(** * LXD image service and container copy: a shallow embedding

    The development follows [lxd/images.go] (the build-directory pipeline),
    the older inline variant of the same file, and [lxc/copy.go].

    - Go errors are values of [error]; a Go [nil] error is [None].
    - Files are byte lists held in a path-indexed finite map.
    - Go maps are [gmap]s; a nil map is [None].
    - SQL tables are lists of row records; statements are the source's
      strings, run by a small interpreter for the shapes the code uses.
    - Calls to peer daemons are answered by oracles that see the whole
      history of calls made so far, and every call is logged. *)

From Stdlib Require Import ZArith NArith Ascii String.
From Stdlib.Strings Require Import Byte.
From stdpp Require Import gmap strings list fin_maps pretty.

Open Scope string_scope.
Open Scope list_scope.

(** ** Errors *)

Inductive error : Type :=
| EOF                      (* io.EOF *)
| ENOENT (path : string)   (* os.PathError for a path that does not exist *)
| Errorf (msg : string)    (* fmt.Errorf with the formatted message *)
| ExitError (cmd : string) (* a child process that exited non-zero *)
| SqlError (msg : string)  (* an error returned by the SQL driver *)
| NoSuchObject             (* sql.ErrNoRows / the store's not-found error *)
| PeerError (msg : string) (* an error reported by a remote daemon *)
| EscapeError (s : string) (* url.EscapeError: a bad percent escape *)
| EISDIR (path : string)   (* reading something that is not a regular file *)
| EEXIST (path : string)   (* creating something that is already there *)
| Wrap (msg : string) (e : error) (* fmt.Errorf("msg: %v", e) *).

#[global] Instance error_eq_dec : EqDecision error.
Proof. solve_decision. Defined.

(** ** Go idioms *)

(** A Go function either returns or panics. *)
Inductive outcome (A : Type) : Type :=
| Returned (a : A)
| Panics (msg : string).
Arguments Returned {A} a.
Arguments Panics {A} msg.

#[global] Instance outcome_ret : MRet outcome := λ A a, Returned a.
#[global] Instance outcome_bind : MBind outcome := λ A B k c,
  match c with Returned a => k a | Panics msg => Panics msg end.

(** A function body over a state [S]: it either leaves the function early
    with [inl r] (a [return] or an unwinding panic) or goes on with a value. *)
Definition Prog (S R A : Type) : Type := S → S * (R + A).

Definition ret {S R A} (a : A) : Prog S R A := λ s, (s, inr a).
Definition return_ {S R A} (r : R) : Prog S R A := λ s, (s, inl r).
Definition bind {S R A B} (c : Prog S R A) (k : A → Prog S R B) : Prog S R B :=
  λ s, match c s with
       | (s', inl r) => (s', inl r)
       | (s', inr a) => k a s'
       end.

#[global] Instance Prog_ret {S R} : MRet (Prog S R) := λ A a, ret a.
#[global] Instance Prog_bind {S R} : MBind (Prog S R) := λ A B k c, bind c k.

(** Run a loop that ends by falling through with its result. *)
Definition fall_through {S R A} (f : S → S * A) : Prog S R A :=
  λ s, let '(s', a) := f s in (s', inr a).

(** [defer f()]: [f] runs when the body is left, however it is left. *)
Definition defer {S R A} (f : S → S) (body : Prog S R A) : Prog S R A :=
  λ s, let '(s', r) := body s in (f s', r).

(** [strings.SplitN(s, sep, 2)] when it yields two fields: the text before
    and after the first [sep]. *)
Fixpoint cut (sep : ascii) (s : string) : option (string * string) :=
  match s with
  | EmptyString => None
  | String c rest =>
      if Ascii.eqb c sep then Some (EmptyString, rest)
      else match cut sep rest with
           | Some (a, b) => Some (String c a, b)
           | None => None
           end
  end.

(** [strings.Contains(s, sep)] for a one-character [sep]. *)
Definition contains (sep : ascii) (s : string) : bool :=
  bool_decide (is_Some (cut sep s)).

(** ** Files *)

#[global] Instance byte_eq_decision : EqDecision byte := Byte.byte_eq_dec.

Definition file := list byte.

(** What a path may name. *)
Inductive node : Type :=
| File (content : file)
| Symlink (target : string)
| Directory
| Subvolume.

#[global] Instance node_eq_dec : EqDecision node.
Proof. solve_decision. Defined.

Abbreviation filesystem := (gmap string node).

(** [make([]byte, n)]: a zero-filled buffer. *)
Definition make_bytes (n : nat) : list byte := replicate n x00.

(** [f.Read(buf)] on a freshly opened regular file: copies as many bytes as
    fit, leaves the rest of the buffer alone, and reports [io.EOF] with a
    count of zero when nothing is left to read. *)
Definition Read (f : file) (buf : list byte) : list byte * nat * option error :=
  match f with
  | [] => (buf, 0, Some EOF)
  | _ => (take (length buf) f ++ drop (length f) buf,
          Nat.min (length f) (length buf), None)
  end.

(** Go's slice expression [s[lo:hi]]. *)
Definition slice (lo hi : nat) (s : list byte) : list byte :=
  take (hi - lo) (drop lo s).

(** [bytes.Equal]. *)
Definition bytes_Equal (a b : list byte) : bool := bool_decide (a = b).

(** [header[i]]; the buffer always has 263 entries, so the default is unused. *)
Definition index (s : list byte) (i : nat) : byte := nth i s x00.

(** ** Compression sniffer ([lxd/images.go], [detectCompression]) *)

Module Sniffer.

Definition unsupported : error := Errorf "Unsupported compression.".

(** The switch over the 263-byte header. *)
Definition classify (header : list byte) : list string * string * option error :=
  if bytes_Equal (slice 0 2 header) [x42; x5a] then
    (["--jxf"], ".tar.bz2", None)
  else if bytes_Equal (slice 0 2 header) [x1f; x8b] then
    (["-zxf"], ".tar.gz", None)
  else if bytes_Equal (slice 1 5 header) [x37; x7a; x58; x5a]
          && bool_decide (index header 0 = xfd) then
    (["-Jxf"], ".tar.xz", None)
  else if bytes_Equal (slice 1 5 header) [x37; x7a; x58; x5a]
          && bool_decide (index header 0 <> xfd) then
    (["--lzma"; "-xf"], ".tar.lzma", None)
  else if bytes_Equal (slice 257 262 header) [x75; x73; x74; x61; x72] then
    (["-xf"], ".tar", None)
  else
    ([""], "", Some unsupported).

Definition detectCompression (fs : filesystem) (fname : string)
  : list string * string * option error :=
  match fs !! fname with
  | None => ([""], "", Some (ENOENT fname))
  | Some (File f) =>
      let header := make_bytes 263 in
      let '(header, _, err) := Read f header in
      match err with
      | Some e => ([""], "", Some e)
      | None => classify header
      end
  | Some _ => ([""], "", Some (EISDIR fname))
  end.

(** The result's parts, named as the callers use them. *)
Definition extractArgs (r : list string * string * option error) := r.1.1.
Definition extension (r : list string * string * option error) := r.1.2.
Definition failure (r : list string * string * option error) := r.2.

End Sniffer.

(** ** Container copy coordinator ([lxc/copy.go]) *)

Module Copy.

(** The fields of [shared.ContainerState] the coordinator reads. *)
Record ContainerState := {
  Config : gmap string string;
  Profiles : list string;
}.

(** [&shared.ContainerState{}]: no config, no profiles. *)
Definition emptyState : ContainerState := {| Config := ∅; Profiles := [] |}.

(** The fields of [lxd.Response] the coordinator reads. *)
Record Response := {
  Operation : string;
  Metadata : list byte;
}.

(** The client-side configuration: only the default remote matters here. *)
Record ClientConfig := {
  DefaultRemote : string;
}.

(** Every use of the client library is logged.  [NewClient] only builds a
    client object; all the others are requests sent to the named remote. *)
Inductive call : Type :=
| NewClient (remote : string)
| ContainerStatus (remote name : string)
| LocalCopy (remote source dest : string)
    (config : gmap string string) (profiles : list string)
| WaitForSuccess (remote operation : string)
| ListProfiles (remote : string)
| GetMigrationSourceWS (remote name : string)
| Addresses (remote : string)
| MigrateFrom (remote name url : string)
    (secrets config : gmap string string) (profiles : list string)
    (baseImage : string).

Definition history := list call.

Definition is_request (c : call) : bool :=
  match c with NewClient _ => false | _ => true end.

Definition is_copy_operation (c : call) : bool :=
  match c with
  | LocalCopy _ _ _ _ _ | MigrateFrom _ _ _ _ _ _ _
  | GetMigrationSourceWS _ _ => true
  | _ => false
  end.

Definition is_migrate_from (c : call) : bool :=
  match c with MigrateFrom _ _ _ _ _ _ _ => true | _ => false end.

(** The daemons (and the JSON decoder) as oracles: each answer may depend on
    everything that was asked before. *)
Record Peers := {
  new_client : history → string → option error;
  container_status : history → string → string → error + ContainerState;
  local_copy : history → string → string → string →
               gmap string string → list string → error + Response;
  wait_for_success : history → string → string → option error;
  list_profiles : history → string → error + list string;
  get_migration_source_ws : history → string → string → error + Response;
  addresses : history → string → error + list string;
  migrate_from : history → string → string → string →
                 gmap string string → gmap string string → list string →
                 string → error + Response;
  json_Unmarshal : list byte → error + gmap string string;
}.

Abbreviation M := (Prog history).

(** Issue a call, log it, and get the oracle's answer for the history so far. *)
Definition ask {R A} (c : call) (answer : history → A) : M R A :=
  λ h, (h ++ [c], inr (answer h)).

(** [x, err := f(); if err != nil { return err }]. *)
Definition try_ {A} (c : call) (answer : history → error + A)
  : M (option error) A :=
  λ h, match answer h with
       | inl e => (h ++ [c], inl (Some e))
       | inr a => (h ++ [c], inr a)
       end.

(** The function's result once it has run. *)
Definition result {A} (r : option error + A) (dflt : A → option error)
  : option error :=
  match r with inl e => e | inr a => dflt a end.

(** Modelled from the spec: identifiers have the form [[remote:]name]
    ([Config.ParseRemoteAndContainer] is not part of the sources at hand);
    without a colon the configuration's default remote is used. *)
Definition ParseRemoteAndContainer (config : ClientConfig) (raw : string)
  : string * string :=
  match cut ":" raw with
  | None => (DefaultRemote config, raw)
  | Some (remote, name) => (remote, name)
  end.

(** Modelled from the spec: a snapshot is named [container/snapshot]
    ([shared.IsSnapshot] is not part of the sources at hand). *)
Definition IsSnapshot (name : string) : bool := contains "/" name.

(** [strings.HasPrefix(k, "volatile")]. *)
Definition HasPrefix (s p : string) : bool := String.prefix p s.

(** [for k := range status.Config { if HasPrefix(k, "volatile") { delete } }]. *)
Definition stripVolatile (config : gmap string string) : gmap string string :=
  filter (λ kv, HasPrefix kv.1 "volatile" = false) config.

(** [NewStringSet(a).IsSubset(NewStringSet(b))]. *)
Definition IsSubset (a b : list string) : bool :=
  bool_decide ((list_to_set a : gset string) ⊆ list_to_set b).

(** [path.Join(operation, "websocket")] for an operation path that is
    already clean. *)
Definition path_Join (a b : string) : string :=
  if decide (a = "") then b else a +:+ "/" +:+ b.

Definition mustSpecifySource : error :=
  Errorf "you must specify a source container name".
Definition illegalCopy : error :=
  Errorf "can't copy to the same container name".
Definition missingProfiles : error :=
  Errorf "not all the profiles from the source exist on the target".

Section Coordinator.
Context (P : Peers) (config : ClientConfig).

(** Lines 49-72: read the source's state and drop volatile keys. *)
Definition readSource (sourceRemote sourceName : string) (keepVolatile : bool)
  : M (option error) (ContainerState * string) :=
  if negb (IsSnapshot sourceName) then
    status ← try_ (ContainerStatus sourceRemote sourceName)
                 (λ h, container_status P h sourceRemote sourceName);
    let baseImage := default "" (Config status !! "volatile.base_image") in
    if negb keepVolatile then
      ret ({| Config := stripVolatile (Config status);
              Profiles := Profiles status |}, baseImage)
    else ret (status, baseImage)
  else ret (emptyState, "").

(** What the loop over the addresses needs. *)
Record migration := {
  sourceOperation : string;
  secrets : gmap string string;
  addrs : list string;
}.

(** Lines 87-115: the destination client, the profile check, the source
    websocket and the address list. *)
Definition negotiate (sourceRemote sourceName destRemote : string)
    (status : ContainerState) : M (option error) migration :=
  _ ← try_ (NewClient destRemote)
           (λ h, match new_client P h destRemote with
                 | Some e => inl e | None => inr tt end);
  destProfs ← try_ (ListProfiles destRemote)
                   (λ h, list_profiles P h destRemote);
  if negb (IsSubset (Profiles status) destProfs) then
    return_ (Some missingProfiles)
  else
    sourceWSResponse ← try_ (GetMigrationSourceWS sourceRemote sourceName)
      (λ h, get_migration_source_ws P h sourceRemote sourceName);
    match json_Unmarshal P (Metadata sourceWSResponse) with
    | inl e => return_ (Some e)
    | inr secrets =>
        addresses ← try_ (Addresses sourceRemote)
                         (λ h, addresses P h sourceRemote);
        ret {| sourceOperation := Operation sourceWSResponse;
               secrets := secrets;
               addrs := addresses |}
    end.

(** One pass through the loop body (lines 118-130): [None] is the
    [return nil], [Some e] is a [continue] with [err = e]. *)
Definition attempt (destRemote destName : string) (status : ContainerState)
    (baseImage : string) (m : migration) (addr : string)
  : history → history * option error :=
  λ h,
    let sourceWSUrl :=
      "wss://" +:+ addr +:+ path_Join (sourceOperation m) "websocket" in
    let c := MigrateFrom destRemote destName sourceWSUrl (secrets m)
               (Config status) (Profiles status) baseImage in
    match migrate_from P h destRemote destName sourceWSUrl (secrets m)
            (Config status) (Profiles status) baseImage with
    | inl e => (h ++ [c], Some e)
    | inr migration =>
        let h1 := h ++ [c] in
        let w := WaitForSuccess destRemote (Operation migration) in
        (h1 ++ [w], wait_for_success P h1 destRemote (Operation migration))
    end.

(** Lines 117-133: [err] is the variable the final [return err] reads. *)
Fixpoint migrateLoop (destRemote destName : string) (status : ContainerState)
    (baseImage : string) (m : migration) (addresses : list string)
    (err : option error) (h : history) : history * option error :=
  match addresses with
  | [] => (h, err)
  | addr :: rest =>
      match attempt destRemote destName status baseImage m addr h with
      | (h', None) => (h', None)
      | (h', Some e) =>
          migrateLoop destRemote destName status baseImage m rest (Some e) h'
      end
  end.

(** A pass of the loop body over addresses that all fail: each is tried in
    order from the history the previous one left, and the error kept at
    the end is the one of the last address tried. *)
Inductive Exhausts (try : string → history → history * option error)
  : list string → history → option error → history → option error → Prop :=
| Exhausts_nil h err : Exhausts try [] h err h err
| Exhausts_cons addr rest h h1 e err h' err' :
    try addr h = (h1, Some e) →
    Exhausts try rest h1 (Some e) h' err' →
    Exhausts try (addr :: rest) h err h' err'.

(** The request the loop sends to the destination for one address. *)
Definition migrationRequest (destRemote destName : string)
    (status : ContainerState) (baseImage : string) (m : migration)
    (addr : string) : call :=
  MigrateFrom destRemote destName
    ("wss://" +:+ addr +:+ path_Join (sourceOperation m) "websocket")
    (secrets m) (Config status) (Profiles status) baseImage.

(** The words of the specification for one address, read off the answers
    of the destination: the address fails with [e] when the migration
    request is refused with [e] (connect, handshake), or is accepted and
    the wait for its operation ends with [e]; [h'] is the history then. *)
Definition fails_at (destRemote destName : string) (status : ContainerState)
    (baseImage : string) (m : migration) (addr : string)
    (h h' : history) (e : error) : Prop :=
  let url := "wss://" +:+ addr +:+ path_Join (sourceOperation m) "websocket" in
  let request := migrationRequest destRemote destName status baseImage m addr in
  (migrate_from P h destRemote destName url (secrets m) (Config status)
     (Profiles status) baseImage = inl e
   ∧ h' = h ++ [request])
  ∨ ∃ migration,
      migrate_from P h destRemote destName url (secrets m) (Config status)
        (Profiles status) baseImage = inr migration
      ∧ wait_for_success P (h ++ [request]) destRemote (Operation migration)
        = Some e
      ∧ h' = h ++ [request; WaitForSuccess destRemote (Operation migration)].

(** The address succeeds: the request is accepted and the wait for its
    operation ends without an error. *)
Definition succeeds_at (destRemote destName : string) (status : ContainerState)
    (baseImage : string) (m : migration) (addr : string)
    (h h' : history) : Prop :=
  let url := "wss://" +:+ addr +:+ path_Join (sourceOperation m) "websocket" in
  let request := migrationRequest destRemote destName status baseImage m addr in
  ∃ migration,
    migrate_from P h destRemote destName url (secrets m) (Config status)
      (Profiles status) baseImage = inr migration
    ∧ wait_for_success P (h ++ [request]) destRemote (Operation migration)
      = None
    ∧ h' = h ++ [request; WaitForSuccess destRemote (Operation migration)].

(** A stretch of addresses that all fail, one after the other, each from
    the history the one before left; the error at the end is the one of
    the last address, or the one at the start when there is no address. *)
Inductive AllFail (fails : string → history → history → error → Prop)
  : list string → history → option error → history → option error → Prop :=
| AllFail_nil h err : AllFail fails [] h err h err
| AllFail_cons addr rest h h1 e err h' err' :
    fails addr h h1 e →
    AllFail fails rest h1 (Some e) h' err' →
    AllFail fails (addr :: rest) h err h' err'.

Definition copyContainer (sourceResource destResource : string)
    (keepVolatile : bool) (h : history) : history * option error :=
  let '(sourceRemote, sourceName) :=
    ParseRemoteAndContainer config sourceResource in
  let '(destRemote, destName) :=
    ParseRemoteAndContainer config destResource in
  if decide (sourceName = "") then (h, Some mustSpecifySource)
  else
    let destName := if decide (destName = "") then sourceName else destName in
    let body : M (option error) (option error) :=
      _ ← try_ (NewClient sourceRemote)
               (λ h, match new_client P h sourceRemote with
                     | Some e => inl e | None => inr tt end);
      '(status, baseImage) ← readSource sourceRemote sourceName keepVolatile;
      if decide (sourceRemote = destRemote) then
        if decide (sourceName = destName) then return_ (Some illegalCopy)
        else
          cp ← try_ (LocalCopy sourceRemote sourceName destName
                       (Config status) (Profiles status))
                    (λ h, local_copy P h sourceRemote sourceName destName
                            (Config status) (Profiles status));
          ask (WaitForSuccess sourceRemote (Operation cp))
              (λ h, wait_for_success P h sourceRemote (Operation cp))
      else
        m ← negotiate sourceRemote sourceName destRemote status;
        fall_through (migrateLoop destRemote destName status baseImage m
                        (addrs m) None)
    in
    let '(h', r) := body h in (h', result r id).

End Coordinator.

End Copy.

(** ** [net/url]: query parsing *)

Module Url.

(** [url.Values]: every key with its values in order of appearance. *)
Abbreviation Values := (gmap string (list string)).

Definition ishex (c : ascii) : bool :=
  let n := N_of_ascii c in
  ((48 <=? n) && (n <=? 57) || (97 <=? n) && (n <=? 102)
   || (65 <=? n) && (n <=? 70))%N.

Definition unhex (c : ascii) : N :=
  let n := N_of_ascii c in
  (if (48 <=? n) && (n <=? 57) then n - 48
   else if (97 <=? n) && (n <=? 102) then n - 97 + 10
   else if (65 <=? n) && (n <=? 70) then n - 65 + 10
   else 0)%N.

(** [url.QueryUnescape]: [%XX] is a byte, [+] is a space. *)
Fixpoint QueryUnescape (s : string) : error + string :=
  match s with
  | EmptyString => inr EmptyString
  | String c rest =>
      if Ascii.eqb c "%"%char then
        match rest with
        | String a (String b rest') =>
            if ishex a && ishex b then
              match QueryUnescape rest' with
              | inr t => inr (String (ascii_of_N (16 * unhex a + unhex b)) t)
              | inl e => inl e
              end
            else inl (EscapeError (String c (String a (String b EmptyString))))
        | _ => inl (EscapeError s)
        end
      else
        match QueryUnescape rest with
        | inr t => inr (String (if Ascii.eqb c "+"%char then " "%char else c) t)
        | inl e => inl e
        end
  end.

(** The separators of the query grammar ([strings.IndexAny(key, "&;")]). *)
Definition is_separator (c : ascii) : bool :=
  Ascii.eqb c "&"%char || Ascii.eqb c ";"%char.

(** The successive settings of [key] in [parseQuery]'s loop. *)
Fixpoint settings (query : string) : list string :=
  match query with
  | EmptyString => []
  | String c rest =>
      if is_separator c then EmptyString :: settings rest
      else match settings rest with
           | [] => [String c EmptyString]
           | k :: ks => String c k :: ks
           end
  end.

(** [strings.Index(key, "=")] and the two halves around it. *)
Definition cut_equals (s : string) : string * string :=
  match cut "=" s with
  | Some (key, value) => (key, value)
  | None => (s, EmptyString)
  end.

(** One turn of the loop: [m[key] = append(m[key], value)], the first
    error being kept and the offending setting skipped. *)
Definition parseSetting (acc : Values * option error) (key : string)
  : Values * option error :=
  let '(m, err) := acc in
  if decide (key = "") then (m, err)
  else
    let '(key, value) := cut_equals key in
    match QueryUnescape key with
    | inl err1 => (m, if err is None then Some err1 else err)
    | inr key =>
        match QueryUnescape value with
        | inl err1 => (m, if err is None then Some err1 else err)
        | inr value => (<[key := default [] (m !! key) ++ [value]]> m, err)
        end
    end.

Definition ParseQuery (query : string) : Values * option error :=
  foldl parseSetting (∅, None) (settings query).

(** The key and value a setting contributes, if it contributes any. *)
Definition decode (setting : string) : option (string * string) :=
  if decide (setting = "") then None
  else
    let '(key, value) := cut_equals setting in
    match QueryUnescape key, QueryUnescape value with
    | inr key, inr value => Some (key, value)
    | _, _ => None
    end.

(** The values a list of settings carries for one key, in order. *)
Definition values_for (k : string) (l : list string) : list string :=
  omap (λ s, match decode s with
             | Some (k', v) => if decide (k' = k) then Some v else None
             | None => None
             end) l.

(** The pairs of a query in the order in which they are written. *)
Definition pairs (query : string) : list (string * string) :=
  omap decode (settings query).

End Url.

(** ** The metadata store: tables and the SQL the daemon sends *)

Module Sql.

Inductive value : Type :=
| VInt (z : Z)
| VText (s : string).

#[global] Instance value_eq_dec : EqDecision value.
Proof. solve_decision. Defined.

(** A row maps column names to values; a database maps table names to rows. *)
Abbreviation row := (gmap string value).
Abbreviation database := (gmap string (list row)).

Inductive operand : Type :=
| Placeholder            (* [?] *)
| Literal (v : value).

Inductive condition : Type :=
| Always
| Equals (column : string) (rhs : operand).

Inductive statement : Type :=
| Select (columns : list string) (table : string) (c : condition)
| Delete (table : string) (c : condition).

(** *** Reading a statement *)

Definition lower_ascii (c : ascii) : ascii :=
  let n := N_of_ascii c in
  if ((65 <=? n) && (n <=? 90))%N then ascii_of_N (n + 32) else c.

Fixpoint lower (s : string) : string :=
  match s with
  | EmptyString => EmptyString
  | String c rest => String (lower_ascii c) (lower rest)
  end.

Definition keyword (w k : string) : bool := bool_decide (lower w = k).

(** The words of a statement, separated by blanks. *)
Fixpoint words_aux (s : string) (cur : string) : list string :=
  match s with
  | EmptyString => if decide (cur = "") then [] else [cur]
  | String c rest =>
      if Ascii.eqb c " "%char then
        if decide (cur = "") then words_aux rest ""
        else cur :: words_aux rest ""
      else words_aux rest (cur +:+ String c EmptyString)
  end.

Definition words (s : string) : list string := words_aux s "".

Definition digit (c : ascii) : option Z :=
  let n := N_of_ascii c in
  if ((48 <=? n) && (n <=? 57))%N then Some (Z.of_N (n - 48)) else None.

Fixpoint number_aux (s : string) (acc : Z) : option Z :=
  match s with
  | EmptyString => Some acc
  | String c rest =>
      match digit c with
      | Some d => number_aux rest (10 * acc + d)
      | None => None
      end
  end.

Definition number (s : string) : option Z :=
  if decide (s = "") then None else number_aux s 0.

(** [column=?] or [column=<number>]; anything else is a syntax error. *)
Definition parse_condition (w : string) : option condition :=
  match cut "=" w with
  | None => None
  | Some (column, rhs) =>
      if decide (column = "") then None
      else if decide (rhs = "?") then Some (Equals column Placeholder)
      else match number rhs with
           | Some n => Some (Equals column (Literal (VInt n)))
           | None => None
           end
  end.

Definition parse_where (ws : list string) : option condition :=
  match ws with
  | [] => Some Always
  | [w; c] => if keyword w "where" then parse_condition c else None
  | _ => None
  end.

Fixpoint strip_comma (s : string) : option string :=
  match s with
  | EmptyString => None
  | String c EmptyString => if Ascii.eqb c ","%char then Some EmptyString else None
  | String c rest =>
      match strip_comma rest with
      | Some r => Some (String c r)
      | None => None
      end
  end.

(** The column list up to [FROM]: all but the last name carry a comma. *)
Fixpoint parse_columns (ws : list string) : option (list string * list string) :=
  match ws with
  | [] => None
  | w :: rest =>
      match strip_comma w with
      | Some column =>
          match parse_columns rest with
          | Some (columns, rest') => Some (column :: columns, rest')
          | None => None
          end
      | None =>
          match rest with
          | f :: rest' => if keyword f "from" then Some ([w], rest') else None
          | [] => None
          end
      end
  end.

Definition parse (q : string) : option statement :=
  match words q with
  | w :: ws =>
      if keyword w "select" then
        match parse_columns ws with
        | Some (columns, table :: rest) =>
            match parse_where rest with
            | Some c => Some (Select columns table c)
            | None => None
            end
        | _ => None
        end
      else if keyword w "delete" then
        match ws with
        | f :: table :: rest =>
            if keyword f "from" then
              match parse_where rest with
              | Some c => Some (Delete table c)
              | None => None
              end
            else None
        | _ => None
        end
      else None
  | [] => None
  end.

(** *** Running a statement *)

Definition syntaxError (q : string) : error := SqlError ("syntax error: " +:+ q).
Definition noSuchTable (t : string) : error := SqlError ("no such table: " +:+ t).
Definition noSuchColumn (c : string) : error := SqlError ("no such column: " +:+ c).
Definition badArguments : error := SqlError "wrong number of arguments".

Definition placeholders (c : condition) : nat :=
  match c with Equals _ Placeholder => 1 | _ => 0 end.

Definition holds (c : condition) (args : list value) (r : row) : bool :=
  match c with
  | Always => true
  | Equals column Placeholder => bool_decide (r !! column = head args)
  | Equals column (Literal v) => bool_decide (r !! column = Some v)
  end.

(** The selected columns of a row, in the order of the statement. *)
Definition project (columns : list string) (r : row) : option (list value) :=
  mapM (λ column, r !! column) columns.

(** [tx.Exec(q, args...)]: the statement's effect on the transaction's view
    of the database, or the driver's error with the view unchanged. *)
Definition Exec (tx : database) (q : string) (args : list value)
  : database * option error :=
  match parse q with
  | None => (tx, Some (syntaxError q))
  | Some (Select _ _ _) => (tx, None)
  | Some (Delete table c) =>
      if decide (placeholders c = length args) then
        match tx !! table with
        | None => (tx, Some (noSuchTable table))
        | Some rows =>
            (<[table := filter (λ r, holds c args r = false) rows]> tx, None)
        end
      else (tx, Some badArguments)
  end.

(** [dbQueryScan(db, q, inargs, outfmt)]: the selected rows, each a slice
    of column values. *)
Definition dbQueryScan (db : database) (q : string) (inargs : list value)
  : list (list value) * option error :=
  match parse q with
  | Some (Select columns table c) =>
      if decide (placeholders c = length inargs) then
        match db !! table with
        | None => ([], Some (noSuchTable table))
        | Some rows =>
            match mapM (project columns)
                    (filter (λ r, holds c inargs r = true) rows) with
            | Some results => (results, None)
            | None => ([], Some (noSuchColumn (default "" (head columns))))
            end
        end
      else ([], Some badArguments)
  | Some (Delete _ _) => ([], Some (SqlError "not a query"))
  | None => ([], Some (syntaxError q))
  end.

(** [r[i].(string)] and [r[i].(int)]: a failed index or type assertion
    panics. *)
Definition column_string (r : list value) (i : nat) : outcome string :=
  match r !! i with
  | Some (VText s) => Returned s
  | Some (VInt _) => Panics "interface conversion: interface is int, not string"
  | None => Panics "index out of range"
  end.

(** Readers of the columns of a row of [images]. *)
Definition int_of (r : row) (column : string) : Z :=
  match r !! column with Some (VInt z) => z | _ => 0%Z end.
Definition text_of (r : row) (column : string) : string :=
  match r !! column with Some (VText s) => s | _ => "" end.

End Sql.

(** ** The image service ([lxd/images.go]) *)

Module Images.
Import Sql.

(** *** Data *)

Record ImageAlias := {
  Name : string;
  Description : string;
}.

(** [shared.ImageBaseInfo]: a row of [images]. *)
Record ImageBaseInfo := {
  Id : Z;
  BaseFingerprint : string;
  BaseFilename : string;
  BaseSize : Z;
  BasePublic : Z;
  BaseArchitecture : Z;
  BaseCreationDate : Z;
  BaseExpiryDate : Z;
  BaseUploadDate : Z;
}.

(** [shared.ImageInfo]; [Properties] may be a nil map. *)
Record ImageInfo := {
  Aliases : list ImageAlias;
  Architecture : Z;
  Fingerprint : string;
  Filename : string;
  Properties : option (gmap string string);
  Public : Z;
  Size : Z;
  CreationDate : Z;
  ExpiryDate : Z;
  UploadDate : Z;
}.

(** [shared.ImageInfo{}]. *)
Definition noImage : ImageInfo :=
  {| Aliases := []; Architecture := 0; Fingerprint := ""; Filename := "";
     Properties := None; Public := 0; Size := 0; CreationDate := 0;
     ExpiryDate := 0; UploadDate := 0 |}.

Record fileResponseEntry := {
  identifier : string;
  path : string;
  filename : string;
}.

Inductive payload : Type :=
| Urls (l : list string)
| Records (l : list ImageInfo)
| Record_ (i : ImageInfo)
| Fields (m : gmap string string).

Inductive Response : Type :=
| SyncResponse (success : bool) (metadata : payload)
| EmptySyncResponse
| FileResponse (files : list fileResponseEntry)
| SmartError (e : error)
| InternalError (e : error).

(** A JSON value of an operation's metadata. *)
Inductive jvalue : Type :=
| JString (s : string)
| JOther.

(** An entry of the operation registry: [Resources] may be nil, and the
    metadata is a JSON object ([Some]) or something else ([None]). *)
Record operation := {
  Resources : option (gmap string (list string));
  OpMetadata : option (gmap string jvalue);
}.

(** Work done on the storage backend, in the order it was done. *)
Inductive work : Type :=
| BtrfsMakeSubvol (subvol : string)
| BtrfsDeleteSubvol (subvol : string)
| LVMCreateLV (vg lv : string)
| LVMCreateThinPool (vg : string)
| LVMRemoveLV (vg lv : string)
| Mkfs (device : string)
| Mount (device mountpoint : string)
| Umount (mountpoint : string)
| Untar (tarball destination : string).

Record Daemon := {
  db : database;
  fs : filesystem;
  BackingFs : string;
  serverConfig : gmap string string;
  volumes : gset (string * string);
  operations : gmap string operation;
  worklog : list work;
  temporaries : nat;
}.

Definition set_db (d : Daemon) (x : database) : Daemon :=
  {| db := x; fs := fs d; BackingFs := BackingFs d;
     serverConfig := serverConfig d; volumes := volumes d;
     operations := operations d; worklog := worklog d;
     temporaries := temporaries d |}.
Definition set_fs (d : Daemon) (x : filesystem) : Daemon :=
  {| db := db d; fs := x; BackingFs := BackingFs d;
     serverConfig := serverConfig d; volumes := volumes d;
     operations := operations d; worklog := worklog d;
     temporaries := temporaries d |}.
Definition set_serverConfig (d : Daemon) (x : gmap string string) : Daemon :=
  {| db := db d; fs := fs d; BackingFs := BackingFs d;
     serverConfig := x; volumes := volumes d;
     operations := operations d; worklog := worklog d;
     temporaries := temporaries d |}.
Definition set_volumes (d : Daemon) (x : gset (string * string)) : Daemon :=
  {| db := db d; fs := fs d; BackingFs := BackingFs d;
     serverConfig := serverConfig d; volumes := x;
     operations := operations d; worklog := worklog d;
     temporaries := temporaries d |}.
Definition did (d : Daemon) (w : work) : Daemon :=
  {| db := db d; fs := fs d; BackingFs := BackingFs d;
     serverConfig := serverConfig d; volumes := volumes d;
     operations := operations d; worklog := worklog d ++ [w];
     temporaries := temporaries d |}.
Definition next_temporary (d : Daemon) : Daemon :=
  {| db := db d; fs := fs d; BackingFs := BackingFs d;
     serverConfig := serverConfig d; volumes := volumes d;
     operations := operations d; worklog := worklog d;
     temporaries := S (temporaries d) |}.

(** A request, as far as the handlers look at it. *)
Record Request := {
  trusted : bool;               (* [d.isTrustedClient(r)] *)
  recursion : bool;             (* [d.isRecursionRequest(r)] *)
  fingerprintVar : string;      (* [mux.Vars(r)["fingerprint"]] *)
  secretValue : string;         (* [r.FormValue("secret")] *)
  Header : gmap string (list string);
  Body : list byte;
}.

(** [http.CanonicalHeaderKey]: the first letter and every letter after a
    hyphen in upper case, the others in lower case. *)
Definition upper_ascii (c : ascii) : ascii :=
  let n := N_of_ascii c in
  if ((97 <=? n) && (n <=? 122))%N then ascii_of_N (n - 32) else c.

Fixpoint canonical (upper : bool) (s : string) : string :=
  match s with
  | EmptyString => EmptyString
  | String c rest =>
      String (if upper then upper_ascii c else lower_ascii c)
             (canonical (Ascii.eqb c "-"%char) rest)
  end.

Definition CanonicalHeaderKey (key : string) : string := canonical true key.

(** [r.Header.Get(key)]: the first value, or the empty string. *)
Definition Header_Get (r : Request) (key : string) : string :=
  default "" (Header r !! CanonicalHeaderKey key ≫= head).

(** *** Collaborators that are not part of the sources at hand *)

(** Modelled from the spec: the versioned API root ([shared.APIVersion]). *)
Definition APIVersion : string := "1.0".

(** Modelled from the spec: [<var>/images/] holds content files and
    sidecars ([shared.VarPath]). *)
Definition VarPath (parts : list string) : string :=
  foldl (λ acc part, acc +:+ "/" +:+ part) "/var/lib/lxd" parts.

(** [filepath.Join] of a clean directory and a name. *)
Definition Join (dir name : string) : string := dir +:+ "/" +:+ name.

(** [filepath.Base]. *)
Fixpoint Base_aux (s : string) (cur : string) : string :=
  match s with
  | EmptyString => cur
  | String c rest =>
      if Ascii.eqb c "/"%char then Base_aux rest ""
      else Base_aux rest (cur +:+ String c EmptyString)
  end.
Definition Base (s : string) : string :=
  if decide (s = "") then "." else Base_aux s "".

Definition image_of_row (r : row) : ImageBaseInfo :=
  {| Id := int_of r "id";
     BaseFingerprint := text_of r "fingerprint";
     BaseFilename := text_of r "filename";
     BaseSize := int_of r "size";
     BasePublic := int_of r "public";
     BaseArchitecture := int_of r "architecture";
     BaseCreationDate := int_of r "creation_date";
     BaseExpiryDate := int_of r "expiry_date";
     BaseUploadDate := int_of r "upload_date" |}.

Definition image_rows (db : database) : list row := default [] (db !! "images").

(** Modelled from the spec: [getImage(fingerprint, publicOnly)] returns the
    row or NotFound, and applies [public=1] filtering when the caller is
    untrusted ([dbImageGet] is not part of the sources at hand). *)
Definition dbImageGet (db : database) (fp : string) (public : bool)
  : error + ImageBaseInfo :=
  match
    List.find (λ r, bool_decide (r !! "fingerprint" = Some (VText fp))
                    && (negb public
                        || bool_decide (r !! "public" = Some (VInt 1))))
      (image_rows db)
  with
  | Some r => inr (image_of_row r)
  | None => inl NoSuchObject
  end.

(** Modelled from the spec: server-wide settings are kept by a collaborator
    ([getServerConfigValue] is not part of the sources at hand); the answer is
    the value, whether it is set, and the store's error. *)
Definition getServerConfigValue (d : Daemon) (key : string)
  : string * bool * option error :=
  match serverConfig d !! key with
  | Some v => (v, true, None)
  | None => ("", false, None)
  end.

(** [shared.PathExists]. *)
Definition PathExists (d : Daemon) (p : string) : bool :=
  bool_decide (is_Some (fs d !! p)).

(** [os.Remove]: files and links go away, a subvolume does not. *)
Definition os_Remove (d : Daemon) (p : string) : Daemon * option error :=
  match fs d !! p with
  | None => (d, Some (ENOENT p))
  | Some Subvolume => (d, Some (Errorf "operation not permitted"))
  | Some _ => (set_fs d (delete p (fs d)), None)
  end.

(** Modelled from the spec: deletion removes the subvolume
    ([btrfsDeleteSubvol] is not part of the sources at hand). *)
Definition btrfsDeleteSubvol (d : Daemon) (subvol : string) : Daemon :=
  let d := did d (BtrfsDeleteSubvol subvol) in
  match fs d !! subvol with
  | Some Subvolume => set_fs d (delete subvol (fs d))
  | _ => d
  end.

(** Modelled from the spec: deletion removes the LV ([shared.LVMRemoveLV] is
    not part of the sources at hand). *)
Definition LVMRemoveLV_ (d : Daemon) (vgname lvname : string)
  : Daemon * option error :=
  let d := did d (LVMRemoveLV vgname lvname) in
  if decide ((vgname, lvname) ∈ volumes d) then
    (set_volumes d (volumes d ∖ {[ (vgname, lvname) ]}), None)
  else (d, Some (ExitError "lvremove")).

(** *** Reading images *)

(** The loop over the property rows (lines 826-830). *)
Fixpoint scanProperties (results : list (list value))
    (properties : gmap string string) : outcome (gmap string string) :=
  match results with
  | [] => Returned properties
  | r :: rest =>
      key ← column_string r 0;
      value ← column_string r 1;
      scanProperties rest (<[key := value]> properties)
  end.

(** The loop over the alias rows (lines 840-845). *)
Fixpoint scanAliases (results : list (list value)) (aliases : list ImageAlias)
  : outcome (list ImageAlias) :=
  match results with
  | [] => Returned aliases
  | r :: rest =>
      name ← column_string r 0;
      desc ← column_string r 0;
      let a := {| Name := name; Description := desc |} in
      scanAliases rest (aliases ++ [a])
  end.

Definition doImageGet (d : Daemon) (fingerprint : string) (public : bool)
  : outcome (ImageInfo * option Response) :=
  match dbImageGet (db d) fingerprint public with
  | inl err => Returned (noImage, Some (SmartError err))
  | inr imgInfo =>
      let q := "SELECT key, value FROM images_properties where image_id=?" in
      match dbQueryScan (db d) q [VInt (Id imgInfo)] with
      | (_, Some err) => Returned (noImage, Some (SmartError err))
      | (results, None) =>
          properties ← scanProperties results ∅;
          let q := "SELECT name, description FROM images_aliases WHERE image_id=?" in
          match dbQueryScan (db d) q [VInt (Id imgInfo)] with
          | (_, Some err) => Returned (noImage, Some (InternalError err))
          | (results, None) =>
              aliases ← scanAliases results [];
              let info := {| Fingerprint := BaseFingerprint imgInfo;
                             Filename := BaseFilename imgInfo;
                             Properties := Some properties;
                             Aliases := aliases;
                             Public := BasePublic imgInfo;
                             Size := BaseSize imgInfo;
                             Architecture := BaseArchitecture imgInfo;
                             CreationDate := BaseCreationDate imgInfo;
                             ExpiryDate := BaseExpiryDate imgInfo;
                             UploadDate := BaseUploadDate imgInfo |} in
              Returned (info, None)
          end
      end
  end.

(** The loop of [doImagesGet] (lines 729-741). *)
Fixpoint listImages (d : Daemon) (recursion public : bool)
    (results : list (list value)) (resultString : list string)
    (resultMap : list ImageInfo) : outcome (list string * list ImageInfo) :=
  match results with
  | [] => Returned (resultString, resultMap)
  | r :: rest =>
      name ← column_string r 0;
      if negb recursion then
        let url := "/" +:+ APIVersion +:+ "/images/" +:+ name in
        listImages d recursion public rest (resultString ++ [url]) resultMap
      else
        '(image, response) ← doImageGet d name public;
        match response with
        | Some _ => listImages d recursion public rest resultString resultMap
        | None =>
            listImages d recursion public rest resultString
              (resultMap ++ [image])
        end
  end.

Definition doImagesGet (d : Daemon) (recursion public : bool)
  : outcome (payload * option error) :=
  let q := if public then "SELECT fingerprint FROM images WHERE public=1"
           else "SELECT fingerprint FROM images" in
  match dbQueryScan (db d) q [] with
  | (_, Some err) => Returned (Urls [], Some err)
  | (results, None) =>
      '(resultString, resultMap) ←
        listImages d recursion public results [] [];
      if negb recursion then Returned (Urls resultString, None)
      else Returned (Records resultMap, None)
  end.

Definition imagesGet (d : Daemon) (r : Request) : outcome Response :=
  let public := negb (trusted r) in
  '(result, err) ← doImagesGet d (recursion r) public;
  match err with
  | Some err => Returned (SmartError err)
  | None => Returned (SyncResponse true result)
  end.

(** *** Secret-gated access *)

(** [strings.Replace(s, "/", " ", -1)]. *)
Fixpoint slashes_to_spaces (s : string) : string :=
  match s with
  | EmptyString => EmptyString
  | String c rest =>
      String (if Ascii.eqb c "/"%char then " "%char else c)
             (slashes_to_spaces rest)
  end.

Definition isSpace (c : ascii) : bool :=
  Ascii.eqb c " "%char || Ascii.eqb c "009"%char || Ascii.eqb c "013"%char.

Fixpoint skipSpace (s : string) : string :=
  match s with
  | String c rest => if isSpace c then skipSpace rest else s
  | EmptyString => s
  end.

(** The run of non-blank characters a [%s] verb reads, and what follows. *)
Fixpoint token (s : string) : string * string :=
  match s with
  | EmptyString => (EmptyString, EmptyString)
  | String c rest =>
      if isSpace c || Ascii.eqb c "010"%char then (EmptyString, s)
      else let '(t, s') := token rest in (String c t, s')
  end.

(** Literal text of the format must be next in the input. *)
Fixpoint literal (lit s : string) : option string :=
  match lit, s with
  | EmptyString, _ => Some s
  | String a lit', String b s' =>
      if Ascii.eqb a b then literal lit' s' else None
  | String _ _, EmptyString => None
  end.

(** [fmt.Sscanf(toScan, " %s images %s", &imgVersion, &imgFingerprint)]
    with [count == 2] and no error: blanks of the format match any run of
    blanks, each [%s] reads one non-empty word. *)
Definition Sscanf_images (toScan : string) : option (string * string) :=
  let s := skipSpace toScan in
  let '(imgVersion, s) := token s in
  if decide (imgVersion = "") then None
  else
    match literal "images" (skipSpace s) with
    | None => None
    | Some s =>
        let '(imgFingerprint, _) := token (skipSpace s) in
        if decide (imgFingerprint = "") then None
        else Some (imgVersion, imgFingerprint)
    end.

(** The inner loop (lines 874-887): is [fingerprint] among the images the
    operation names? *)
Definition names_image (opImages : list string) (fingerprint : string) : bool :=
  existsb (λ img,
             match Sscanf_images (slashes_to_spaces img) with
             | Some (_, imgFingerprint) =>
                 bool_decide (imgFingerprint = fingerprint)
             | None => false
             end) opImages.

(** [opMetadata.GetString("secret")]. *)
Definition secret_of (op : operation) : option string :=
  match OpMetadata op with
  | Some opMetadata =>
      match opMetadata !! "secret" with
      | Some (JString s) => Some s
      | _ => None
      end
  | None => None
  end.

(** One turn of the outer loop: does this operation make the secret valid? *)
Definition grants (op : operation) (fingerprint secret : string) : bool :=
  match Resources op with
  | None => false
  | Some resources =>
      match resources !! "images" with
      | None => false
      | Some opImages =>
          names_image opImages fingerprint
          && bool_decide (secret_of op = Some secret)
      end
  end.

Definition imageValidSecret (d : Daemon) (fingerprint secret : string) : bool :=
  existsb (λ entry, grants entry.2 fingerprint secret)
          (map_to_list (operations d)).

Definition imageGet (d : Daemon) (r : Request) : outcome Response :=
  let fingerprint := fingerprintVar r in
  let public := negb (trusted r) in
  let secret := secretValue r in
  let public :=
    if public && imageValidSecret d fingerprint secret then false else public in
  '(info, response) ← doImageGet d fingerprint public;
  match response with
  | Some response => Returned response
  | None => Returned (SyncResponse true (Record_ info))
  end.

Definition imageExport (d : Daemon) (r : Request) : outcome Response :=
  let fingerprint := fingerprintVar r in
  let public := negb (trusted r) in
  let secret := secretValue r in
  let public :=
    if public && imageValidSecret d fingerprint secret then false else public in
  match dbImageGet (db d) fingerprint public with
  | inl err => Returned (SmartError err)
  | inr imgInfo =>
      let filename := BaseFilename imgInfo in
      let imagePath := VarPath ["images"; BaseFingerprint imgInfo] in
      let rootfsPath := imagePath +:+ ".rootfs" in
      let filename :=
        if decide (filename = "") then
          let '(_, ext, err) := Sniffer.detectCompression (fs d) imagePath in
          let ext := if err is Some _ then "" else ext in
          fingerprint +:+ ext
        else filename in
      if PathExists d rootfsPath then
        Returned (FileResponse
          [ {| identifier := "metadata"; path := imagePath;
               filename := "meta-" +:+ filename |};
            {| identifier := "rootfs"; path := rootfsPath;
               filename := filename |} ])
      else
        Returned (FileResponse
          [ {| identifier := filename; path := imagePath;
               filename := filename |} ])
  end.

(** *** Deleting an image (lines 752-809) *)

(** The three statements of the transaction (lines 800-802); what each
    returns is discarded. *)
Definition deleteRows (tx : database) (id : Z) : database :=
  let '(tx, _) :=
    Exec tx "DELETE FROM images_aliases WHERE image_id=?" [VInt id] in
  let '(tx, _) :=
    Exec tx "DELETE FROM images_properties WHERE image_id?" [VInt id] in
  let '(tx, _) := Exec tx "DELETE FROM images WHERE id=?" [VInt id] in
  tx.

Definition imageDelete (d : Daemon) (r : Request) : Daemon * Response :=
  let fingerprint := fingerprintVar r in
  match dbImageGet (db d) fingerprint false with
  | inl err => (d, SmartError err)
  | inr imgInfo =>
      let fname := VarPath ["images"; BaseFingerprint imgInfo] in
      let '(d, _) := os_Remove d fname in
      let fmetaname := VarPath ["images"; BaseFingerprint imgInfo +:+ ".rootfs"] in
      let d := if PathExists d fmetaname then (os_Remove d fmetaname).1 else d in
      let '(vgname, vgnameIsSet, err) :=
        getServerConfigValue d "core.lvm_vg_name" in
      match err with
      | Some err => (d, InternalError (Wrap "Error checking server config" err))
      | None =>
          let cleaned : Daemon * option Response :=
            if vgnameIsSet then
              match LVMRemoveLV_ d vgname (BaseFingerprint imgInfo) with
              | (d, Some err) =>
                  (d, Some (InternalError
                              (Wrap "Failed to remove deleted image LV" err)))
              | (d, None) =>
                  let lvsymlink := fname +:+ ".lv" in
                  match os_Remove d lvsymlink with
                  | (d, Some err) =>
                      (d, Some (InternalError
                         (Wrap "Failed to remove symlink to deleted image LV"
                               err)))
                  | (d, None) => (d, None)
                  end
              end
            else if decide (BackingFs d = "btrfs") then
              (btrfsDeleteSubvol d (fname +:+ ".btrfs"), None)
            else (d, None) in
          match cleaned with
          | (d, Some response) => (d, response)
          | (d, None) =>
              (* dbBegin ... txCommit *)
              (set_db d (deleteRows (db d) (Id imgInfo)), EmptySyncResponse)
          end
      end
  end.

(** *** Merging the property sources (lines 368-376) *)

(** [info.Properties[pkey] = pval[0]]. *)
Definition assignProperty (properties : option (gmap string string))
    (pkey : string) (pval : list string)
  : outcome (option (gmap string string)) :=
  match pval with
  | [] => Panics "index out of range"
  | v :: _ =>
      match properties with
      | None => Panics "assignment to entry in nil map"
      | Some m => Returned (Some (<[pkey := v]> m))
      end
  end.

(** [p, _ := url.ParseQuery(ph); for pkey, pval := range p { ... }]. *)
Definition mergeHeader (properties : outcome (option (gmap string string)))
    (ph : string) : outcome (option (gmap string string)) :=
  let '(p, _) := Url.ParseQuery ph in
  map_fold (λ pkey pval acc, properties ← acc;
                             assignProperty properties pkey pval)
           properties p.

Definition mergeProperties (metaProperties : option (gmap string string))
    (propHeaders : list string) : outcome (option (gmap string string)) :=
  foldl mergeHeader (Returned metaProperties) propHeaders.

(** *** Ingestion: requests, tools and the file system *)

Record imageFromContainerPostReq := {
  ReqFilename : string;
  ReqPublic : bool;
  Source : gmap string string;
  ReqProperties : option (gmap string string);
}.

(** [imageMetadata] without the templates, which nothing here reads. *)
Record imageMetadata := {
  MetaArchitecture : string;
  MetaCreationDate : Z;
  MetaExpiryDate : Z;
  MetaProperties : option (gmap string string);
}.

(** A part of a multipart body. *)
Record part := {
  FormName : string;
  FileName : string;
  content : file;
}.

(** Libraries, child processes and the container runtime. *)
Record Tools := {
  sha256 : list byte → string;
  json_Decode : list byte → option imageFromContainerPostReq;
  ParseMediaType : string → error + (string * gmap string string);
  parts : list byte → string → list part;
  exec : string → list string → filesystem → error + list byte;
  yaml_Unmarshal : list byte → error + imageMetadata;
  ArchitectureId : string → Z;
  newLxdContainer : string → error + Z;
  exportToTar : string → string → error + file;
  compress : file → file;
  unpacked : file → string → error + list byte;
  now : Z;
}.

(** How a handler's helper is left early. *)
Inductive abort : Type :=
| Fail (e : error)
| Panic (msg : string).

Abbreviation Job := (Prog Daemon abort).

Definition fail {A} (e : error) : Job A := return_ (Fail e).

(** [x, err := f(); if err != nil { return err }] for a pure [f]. *)
Definition try {A} (x : error + A) : Job A :=
  match x with inl e => fail e | inr a => ret a end.

(** The same for a function that changes the daemon and returns an error. *)
Definition check (f : Daemon → Daemon * option error) : Job unit :=
  λ d, match f d with
       | (d', Some e) => (d', inl (Fail e))
       | (d', None) => (d', inr tt)
       end.

Definition effect (f : Daemon → Daemon) : Job unit := λ d, (f d, inr tt).
Definition inspect {A} (f : Daemon → A) : Job A := λ d, (d, inr (f d)).

(** A panic of a pure computation unwinds the handler. *)
Definition unwind {A} (x : outcome A) : Job A :=
  match x with Returned a => ret a | Panics msg => return_ (Panic msg) end.

(** [ioutil.TempFile] and [ioutil.TempDir]: a fresh name under [dir]. *)
Definition temporary (n : node) (dir pfx : string) : Job string :=
  λ d, match fs d !! dir with
       | Some Directory =>
           let name := Join dir (pfx +:+ pretty (temporaries d)) in
           (next_temporary (set_fs d (<[name := n]> (fs d))), inr name)
       | _ => (d, inl (Fail (ENOENT dir)))
       end.
Definition TempFile := temporary (File []).
Definition TempDir := temporary Directory.

(** [os.MkdirAll] of a path whose parents exist. *)
Definition MkdirAll (p : string) (d : Daemon) : Daemon * option error :=
  match fs d !! p with
  | Some Directory => (d, None)
  | Some _ => (d, Some (EEXIST p))
  | None => (set_fs d (<[p := Directory]> (fs d)), None)
  end.

(** Writing a whole file through an open handle. *)
Definition write (p : string) (c : file) (d : Daemon) : Daemon :=
  set_fs d (<[p := File c]> (fs d)).

(** [os.Rename]. *)
Definition os_Rename (old new : string) (d : Daemon) : Daemon * option error :=
  match fs d !! old with
  | None => (d, Some (ENOENT old))
  | Some n => (set_fs d (<[new := n]> (delete old (fs d))), None)
  end.

(** [os.Symlink]. *)
Definition os_Symlink (target link : string) (d : Daemon)
  : Daemon * option error :=
  match fs d !! link with
  | Some _ => (d, Some (EEXIST link))
  | None => (set_fs d (<[link := Symlink target]> (fs d)), None)
  end.

(** [os.Readlink]. *)
Definition os_Readlink (d : Daemon) (link : string) : error + string :=
  match fs d !! link with
  | Some (Symlink target) => inr target
  | _ => inl (ENOENT link)
  end.

(** The name of a direct child of [dir], if [p] is one. *)
Fixpoint strip_prefix (pfx s : string) : option string :=
  match pfx, s with
  | EmptyString, _ => Some s
  | String a pfx', String b s' =>
      if Ascii.eqb a b then strip_prefix pfx' s' else None
  | String _ _, EmptyString => None
  end.

Definition child_of (dir p : string) : option string :=
  match strip_prefix (dir +:+ "/") p with
  | Some name => if contains "/" name then None else Some name
  | None => None
  end.

Definition below (dir p : string) : bool :=
  bool_decide (p = dir) || bool_decide (is_Some (strip_prefix (dir +:+ "/") p)).

(** [shared.ReadDir]: the names in a directory. *)
Definition ReadDir (d : Daemon) (dir : string) : list string :=
  omap (λ entry, child_of dir entry.1) (map_to_list (fs d)).

Fixpoint has_suffix_lv (s : string) : bool :=
  match s with
  | EmptyString => false
  | String c rest => bool_decide (s = ".lv") || has_suffix_lv rest
  end.

(** [filepath.Glob(builddir + "/*.lv")]. *)
Definition Glob_lv (d : Daemon) (dir : string) : list string :=
  Join dir <$> filter (λ name, has_suffix_lv name = true) (ReadDir d dir).

(** [os.RemoveAll]: refuses while a subvolume is left below. *)
Definition os_RemoveAll (dir : string) (d : Daemon) : Daemon * option error :=
  if existsb (λ entry, below dir entry.1
                       && bool_decide (entry.2 = Subvolume))
             (map_to_list (fs d))
  then (d, Some (Errorf "operation not permitted"))
  else (set_fs d (filter (λ entry, below dir entry.1 = false) (fs d)), None).

(** [strconv.Atoi] with the error dropped: zero unless the text is a
    decimal number. *)
Definition Atoi (s : string) : Z :=
  match s with
  | String "-" rest => default 0%Z (Z.opp <$> number rest)
  | String "+" rest => default 0%Z (number rest)
  | _ => default 0%Z (number s)
  end.

(** Modelled from the spec: the btrfs backend creates the subvolume
    ([btrfsMakeSubvol] is not part of the sources at hand). *)
Definition btrfsMakeSubvol (subvol : string) (d : Daemon)
  : Daemon * option error :=
  let d := did d (BtrfsMakeSubvol subvol) in
  match fs d !! subvol with
  | Some _ => (d, Some (EEXIST subvol))
  | None => (set_fs d (<[subvol := Subvolume]> (fs d)), None)
  end.

(** Modelled from the spec: the LVM backend allocates an LV named by the
    fingerprint under the volume group ([shared.LVMCreateLV] is not part of
    the sources at hand); the answer is the device path. *)
Definition LVMCreateLV_ (lvname vgname : string) (d : Daemon)
  : Daemon * (error + string) :=
  let d := did d (LVMCreateLV vgname lvname) in
  if decide ((vgname, lvname) ∈ volumes d) then (d, inl (ExitError "lvcreate"))
  else (set_volumes d ({[ (vgname, lvname) ]} ∪ volumes d),
        inr ("/dev/" +:+ vgname +:+ "/" +:+ lvname)).

Section Pipeline.
Context (T : Tools).

(** *** Reading [metadata.yaml] (lines 670-701) *)

Definition getImageMetadata (fname : string) : Job imageMetadata :=
  d ← inspect id;
  let metadataName := "metadata.yaml" in
  let '(compressionArgs, _, err) := Sniffer.detectCompression (fs d) fname in
  match err with
  | Some err => fail err
  | None =>
      let args := ["-O"] ++ compressionArgs ++ [fname; metadataName] in
      match exec T "tar" args (fs d) with
      | inl err =>
          fail (Wrap "Could not extract image metadata metadata.yaml from tar"
                     err)
      | inr output =>
          match yaml_Unmarshal T output with
          | inl err => fail (Wrap "Could not parse metadata.yaml" err)
          | inr metadata => ret metadata
          end
      end
  end.

(** *** Unpacking (lines 70-110) *)

Definition untar (tarball path : string) : Job unit :=
  d ← inspect id;
  let '(extractArgs, _, err) := Sniffer.detectCompression (fs d) tarball in
  match err with
  | Some err => fail err
  | None =>
      let args := ["-C"; path; "--numeric-owner"] ++ extractArgs ++ [tarball] in
      _ ← effect (λ d, did d (Untar tarball path));
      _ ← try (exec T "tar" args (fs d));
      ret tt
  end.

Definition untarImage (imagefname destpath : string) : Job unit :=
  _ ← untar imagefname destpath;
  d ← inspect id;
  if PathExists d (imagefname +:+ ".rootfs") then
    let rootfsPath := destpath +:+ "/rootfs" in
    d ← inspect id;
    match MkdirAll rootfsPath d with
    | (_, Some _) => fail (Errorf "Error creating rootfs directory")
    | (d', None) =>
        _ ← effect (λ _, d');
        untar (imagefname +:+ ".rootfs") rootfsPath
    end
  else ret tt.

(** The error a helper returns, as a value; a panic still unwinds. *)
Definition returned_error (c : Job unit) : Job (option error) :=
  λ d, match c d with
       | (d', inl (Fail e)) => (d', inr (Some e))
       | (d', inl (Panic msg)) => (d', inl (Panic msg))
       | (d', inr _) => (d', inr None)
       end.

(** *** The unpacked sidecar (lines 418-507) *)

Definition createImageLV (builddir fingerprint vgname : string) : Job unit :=
  let imagefname := Join builddir fingerprint in
  d ← inspect id;
  match LVMCreateLV_ fingerprint vgname d with
  | (d', inl err) =>
      _ ← effect (λ _, d');
      fail (Wrap "Error Creating LVM LV for new image" err)
  | (d', inr lvpath) =>
      _ ← effect (λ _, d');
      _ ← check (os_Symlink lvpath (imagefname +:+ ".lv"));
      _ ← effect (λ d, did d (Mkfs lvpath));
      d ← inspect id;
      match exec T "mkfs.ext4"
              ["-E"; "nodiscard,lazy_itable_init=0,lazy_journal_init=0"; lvpath]
              (fs d) with
      | inl err => fail (Wrap "Error making filesystem on image LV" err)
      | inr _ =>
          tempLVMountPoint ← TempDir builddir "tmp_lv_mnt";
          _ ← effect (λ d, did d (Mount lvpath tempLVMountPoint));
          d ← inspect id;
          match exec T "mount" ["-o"; "discard"; lvpath; tempLVMountPoint]
                  (fs d) with
          | inl err => fail (Wrap "Error mounting image LV" err)
          | inr _ =>
              untarErr ← returned_error (untarImage imagefname tempLVMountPoint);
              _ ← effect (λ d, did d (Umount tempLVMountPoint));
              d ← inspect id;
              match exec T "umount" [tempLVMountPoint] (fs d) with
              | inl err =>
                  match untarErr with
                  | None => fail err
                  | Some untarErr =>
                      fail (Wrap "Error unmounting during cleanup of error"
                                 untarErr)
                  end
              | inr _ =>
                  match untarErr with
                  | None => ret tt
                  | Some untarErr => fail untarErr
                  end
              end
          end
      end
  end.

Definition buildOtherFs (builddir fp : string) : Job unit :=
  d ← inspect id;
  let '(vgname, vgnameIsSet, err) := getServerConfigValue d "core.lvm_vg_name" in
  match err with
  | Some err => fail (Wrap "Error checking server config" err)
  | None =>
      if vgnameIsSet then createImageLV builddir fp vgname
      else if decide (BackingFs d = "btrfs") then
        let imagefname := Join builddir fp in
        let subvol := imagefname +:+ ".btrfs" in
        _ ← check (btrfsMakeSubvol subvol);
        untarImage imagefname subvol
      else ret tt
  end.

(** *** Promoting the files (lines 510-544) *)

Definition pullOutImagefiles (builddir fingerprint : string) : Job unit :=
  let imagefname := Join builddir fingerprint in
  let imagerootfsfname := Join builddir (fingerprint +:+ ".rootfs") in
  let finalName := VarPath ["images"; fingerprint] in
  let finalrootfsName := VarPath ["images"; fingerprint +:+ ".rootfs"] in
  d ← inspect id;
  _ ← (if PathExists d imagerootfsfname
       then check (os_Rename imagerootfsfname finalrootfsName)
       else ret tt);
  _ ← check (os_Rename imagefname finalName);
  let lvsymlink := imagefname +:+ ".lv" in
  d ← inspect id;
  if PathExists d lvsymlink then
    check (os_Rename lvsymlink (VarPath ["images"; fingerprint +:+ ".lv"]))
  else if decide (BackingFs d = "btrfs") then
    check (os_Rename (imagefname +:+ ".btrfs")
                     (VarPath ["images"; fingerprint +:+ ".btrfs"]))
  else ret tt.

(** *** Persisting the row (lines 546-600) *)

Definition uniqueViolation : error :=
  SqlError "UNIQUE constraint failed: images.fingerprint".

Definition fresh_id (rows : list row) : Z :=
  (foldr (λ r acc, Z.max (int_of r "id") acc) 0 rows + 1)%Z.

Definition property_row (id : Z) (k v : string) : row :=
  {[ "image_id" := VInt id; "type" := VInt 0;
     "key" := VText k; "value" := VText v ]}.

(** Modelled from the spec: the schema is
    [images(id pk, fingerprint unique, filename, size, public, architecture,
    creation_date, expiry_date, upload_date)] and
    [images_properties(image_id, type, key, value)]; the two INSERT
    statements act on the tables directly, the first one failing on a
    fingerprint that is already there; a failed transaction leaves the
    database as it was. *)
Definition dbInsertImage (fp fname : string) (sz public arch : Z)
    (creationDate expiryDate : Z) (properties : option (gmap string string))
  : Job unit :=
  d ← inspect id;
  let tx := db d in
  if existsb (λ r, bool_decide (r !! "fingerprint" = Some (VText fp)))
             (image_rows tx)
  then fail uniqueViolation
  else
    let id := fresh_id (image_rows tx) in
    let image : row :=
      {[ "id" := VInt id; "fingerprint" := VText fp; "filename" := VText fname;
         "size" := VInt sz; "public" := VInt public;
         "architecture" := VInt arch; "creation_date" := VInt creationDate;
         "expiry_date" := VInt expiryDate; "upload_date" := VInt (now T) ]} in
    let tx := <["images" := image_rows tx ++ [image]]> tx in
    let tx :=
      match properties with
      | Some m =>
          if decide (0 < size m) then
            <["images_properties" :=
                default [] (tx !! "images_properties")
                ++ ((λ kv, property_row id kv.1 kv.2) <$> map_to_list m)]> tx
          else tx
      | None => tx
      end in
    effect (λ d, set_db d tx).

(** *** From the request to the image (lines 631-653) *)

Definition buildImageFromInfo (info : ImageInfo) (builddir : string)
  : Job (gmap string string) :=
  _ ← buildOtherFs builddir (Fingerprint info);
  _ ← dbInsertImage (Fingerprint info) (Filename info) (Size info)
        (Public info) (Architecture info) (CreationDate info)
        (ExpiryDate info) (Properties info);
  let metadata : gmap string string :=
    <["size" := pretty (Size info)]>
      (<["fingerprint" := Fingerprint info]> ∅) in
  _ ← pullOutImagefiles builddir (Fingerprint info);
  ret metadata.

(** *** An image made from a container (lines 131-221) *)

Definition imgPostContInfo (req : imageFromContainerPostReq)
    (builddir : string) : Job ImageInfo :=
  let name := default "" (Source req !! "name") in
  let ctype := default "" (Source req !! "type") in
  if bool_decide (ctype = "") || bool_decide (name = "") then
    fail (Errorf "No source provided")
  else
    let kind : option error :=
      if decide (ctype = "snapshot") then
        if negb (Copy.IsSnapshot name) then Some (Errorf "Not a snapshot")
        else None
      else if decide (ctype = "container") then
        if Copy.IsSnapshot name then Some (Errorf "This is a snapshot")
        else None
      else Some (Errorf "Bad type") in
    match kind with
    | Some err => fail err
    | None =>
        let public := if ReqPublic req then 1%Z else 0%Z in
        '(name, snap) ←
          (if decide (ctype = "snapshot") then
             match cut "/" name with
             | Some (container, snap) => ret (container, snap)
             | None => fail (Errorf "Not a snapshot")
             end
           else ret (name, ""));
        architecture ← try (newLxdContainer T name);
        let tarpath := Join builddir (name +:+ ".tar") in
        _ ← effect (write tarpath []);
        match exportToTar T name snap with
        | inl err => fail (Wrap "imgPostContInfo: exportToTar failed" err)
        | inr tar =>
            _ ← effect (write tarpath tar);
            d ← inspect id;
            _ ← try (exec T "gzip" [tarpath] (fs d));
            let gztarpath := tarpath +:+ ".gz" in
            _ ← effect (λ d, write gztarpath (compress T tar)
                               (set_fs d (delete tarpath (fs d))));
            let fingerprint := sha256 T (compress T tar) in
            let imagefname := Join builddir fingerprint in
            _ ← check (os_Rename gztarpath imagefname);
            ret {| Aliases := []; Architecture := architecture;
                   Fingerprint := fingerprint; Filename := ReqFilename req;
                   Properties := ReqProperties req; Public := public;
                   Size := Z.of_nat (length (compress T tar));
                   CreationDate := 0; ExpiryDate := 0; UploadDate := 0 |}
        end
    end.

(** *** An image in the body (lines 223-379) *)

Definition fingerprintMismatch : error := Errorf "fingerprints don't match".

(** The check of [X-LXD-fingerprint] (lines 312-316 and 346-350). *)
Definition checkFingerprint (r : Request) (fingerprint : string) : Job unit :=
  let expectedFingerprint := Header_Get r "X-LXD-fingerprint" in
  if negb (bool_decide (expectedFingerprint = ""))
     && negb (bool_decide (fingerprint = expectedFingerprint))
  then fail fingerprintMismatch
  else ret tt.

(** [mr.NextPart()]. *)
Definition NextPart (ps : list part) : Job (part * list part) :=
  match ps with
  | [] => fail EOF
  | p :: rest => ret (p, rest)
  end.

Definition getImgPostInfo (r : Request) (builddir : string) : Job ImageInfo :=
  post ← TempFile builddir "lxd_post_";
  defer (λ d, (os_Remove d post).1)
    (_ ← effect (write post (Body r));
     match json_Decode T (Body r) with
     | Some req => imgPostContInfo req builddir
     | None =>
         let public := Atoi (Header_Get r "X-LXD-public") in
         let propHeaders :=
           default [] (Header r !! CanonicalHeaderKey "X-LXD-properties") in
         let '(ctype, ctypeParams) :=
           match ParseMediaType T (Header_Get r "Content-Type") with
           | inl _ => ("application/octet-stream", ∅)
           | inr x => x
           end in
         imageTarf ← TempFile builddir "lxd_tar_";
         '(size, filename, fingerprint, imageMeta) ←
           (if decide (ctype = "multipart/form-data") then
              rootfsTarf ← TempFile builddir "lxd_tar_";
              let mr := parts T (Body r) (default "" (ctypeParams !! "boundary")) in
              '(part1, mr) ← NextPart mr;
              if negb (bool_decide (FormName part1 = "metadata")) then
                fail (Errorf "Invalid multipart image")
              else
                _ ← effect (write imageTarf (content part1));
                '(part2, _) ← NextPart mr;
                if negb (bool_decide (FormName part2 = "rootfs")) then
                  fail (Errorf "Invalid multipart image")
                else
                  _ ← effect (write rootfsTarf (content part2));
                  let size := (Z.of_nat (length (content part1))
                               + Z.of_nat (length (content part2)))%Z in
                  let fingerprint :=
                    sha256 T (content part1 ++ content part2) in
                  _ ← checkFingerprint r fingerprint;
                  let imgfname := Join builddir fingerprint in
                  _ ← check (os_Rename imageTarf imgfname);
                  let rootfsfname := Join builddir (fingerprint +:+ ".rootfs") in
                  _ ← check (os_Rename rootfsTarf rootfsfname);
                  imageMeta ← getImageMetadata imgfname;
                  ret (size, FileName part2, fingerprint, imageMeta)
            else
              _ ← effect (write imageTarf (Body r));
              let size := Z.of_nat (length (Body r)) in
              let fingerprint := sha256 T (Body r) in
              _ ← checkFingerprint r fingerprint;
              let imgfname := Join builddir fingerprint in
              _ ← check (os_Rename imageTarf imgfname);
              imageMeta ← getImageMetadata imgfname;
              ret (size, Header_Get r "X-LXD-filename", fingerprint, imageMeta));
         properties ← unwind (mergeProperties (MetaProperties imageMeta)
                                              propHeaders);
         ret {| Aliases := [];
                Architecture := ArchitectureId T (MetaArchitecture imageMeta);
                Fingerprint := fingerprint; Filename := filename;
                Properties := properties; Public := public; Size := size;
                CreationDate := MetaCreationDate imageMeta;
                ExpiryDate := MetaExpiryDate imageMeta; UploadDate := 0 |}
     end).

(** *** Cleaning the build directory (lines 381-415) *)

Definition removeImgWorkdir (builddir : string) (d : Daemon) : Daemon :=
  let '(vgname, _, _) := getServerConfigValue d "core.lvm_vg_name" in
  let d :=
    match Glob_lv d builddir with
    | lvsymlink :: _ =>
        match os_Readlink d lvsymlink with
        | inl _ => d
        | inr lvpath => (LVMRemoveLV_ d vgname (Base lvpath)).1
        end
    | [] => d
    end in
  let d :=
    if decide (BackingFs d = "btrfs") then
      foldl (λ d fname, btrfsDeleteSubvol d (Join builddir fname))
            d (ReadDir d builddir)
    else d in
  (os_RemoveAll builddir d).1.

(** *** POST /images (lines 602-629) *)

Definition imagesPost (d : Daemon) (r : Request) : Daemon * outcome Response :=
  let dirname := VarPath ["images"] in
  match MkdirAll dirname d with
  | (d, Some err) => (d, Returned (InternalError err))
  | (d, None) =>
      match TempDir dirname "lxd_build_" d with
      | (d, inl (Fail err)) => (d, Returned (InternalError err))
      | (d, inl (Panic msg)) => (d, Panics msg)
      | (d, inr builddir) =>
          let body : Job (gmap string string) :=
            defer (removeImgWorkdir builddir)
              (info ← getImgPostInfo r builddir;
               buildImageFromInfo info builddir) in
          match body d with
          | (d, inl (Fail err)) => (d, Returned (SmartError err))
          | (d, inl (Panic msg)) => (d, Panics msg)
          | (d, inr metadata) =>
              (d, Returned (SyncResponse true (Fields metadata)))
          end
      end
  end.

End Pipeline.

(** *** What a job does to the daemon *)

(** Running [c] from [d] takes the daemon to one related to [d] by [R],
    however [c] is left. *)
Definition moves {A} (R : relation Daemon) (c : Job A) (d : Daemon) : Prop :=
  R d (c d).1.

(** The database is as it was. *)
Definition same_db : relation Daemon := λ d d', db d' = db d.

(** The rows of [images] and [images_properties] that were there are
    still there, in place, and [images_aliases] is as it was. *)
Definition keeps_rows : relation Daemon := λ d d',
  db d' !! "images_aliases" = db d !! "images_aliases"
  ∧ image_rows (db d) `prefix_of` image_rows (db d')
  ∧ default [] (db d !! "images_properties")
    `prefix_of` default [] (db d' !! "images_properties").

(** The work log has grown, and every mount it has grown by comes with
    the unmount of the same mount point. *)
Definition unmounts : relation Daemon := λ d d',
  ∃ l, worklog d' = worklog d ++ l
       ∧ ∀ device mountpoint,
           Mount device mountpoint ∈ l → Umount mountpoint ∈ l.

(** Running [c] from [d] ends with an error that is returned. *)
Definition refused {A} (c : Job A) (d : Daemon) : Prop :=
  ∃ d' e, c d = (d', inl (Fail e)).

(** Running [c] from [d] does not panic. *)
Definition calm {A} (c : Job A) (d : Daemon) : Prop :=
  ∀ d' msg, c d ≠ (d', inl (Panic msg)).

(** *** What the claims speak of *)

(** The same request from a trusted client. *)
Definition as_trusted (r : Request) : Request :=
  {| trusted := true; recursion := recursion r;
     fingerprintVar := fingerprintVar r; secretValue := secretValue r;
     Header := Header r; Body := Body r |}.

(** The store holds an image with this fingerprint whose public flag is 1. *)
Definition public_image (d : Daemon) (fp : string) : Prop :=
  ∃ r : row, r ∈ image_rows (db d)
             ∧ r !! "fingerprint" = Some (VText fp)
             ∧ r !! "public" = Some (VInt 1).

(** An operation of the registry names the image among its resources and
    carries the secret in its metadata. *)
Definition secret_matches (d : Daemon) (fp secret : string) : Prop :=
  ∃ (id : string) (op : operation) (resources : gmap string (list string))
    (opImages : list string) (img version : string),
    operations d !! id = Some op
    ∧ Resources op = Some resources
    ∧ resources !! "images" = Some opImages
    ∧ img ∈ opImages
    ∧ Sscanf_images (slashes_to_spaces img) = Some (version, fp)
    ∧ secret_of op = Some secret.

(** The value one [X-LXD-properties] header gives a key: the first one
    written for it. *)
Definition header_value (ph k : string) : option string :=
  snd <$> List.find (λ kv, bool_decide (kv.1 = k)) (Url.pairs ph).

(** The value the headers give a key: the one of the last header that
    mentions it. *)
Fixpoint headers_value (propHeaders : list string) (k : string)
  : option string :=
  match propHeaders with
  | [] => None
  | ph :: rest =>
      match headers_value rest k with
      | Some v => Some v
      | None => header_value ph k
      end
  end.

(** The work that builds an unpacked sidecar. *)
Definition builds_sidecar (w : work) : bool :=
  match w with
  | BtrfsMakeSubvol _ | LVMCreateLV _ _ | LVMCreateThinPool _
  | Mkfs _ | Mount _ _ | Untar _ _ => true
  | _ => false
  end.

(** ** The older, inline variant of the image service

    The second copy of the file handles POST /images in one function, keeps
    the upload directly under the images directory and names the LVM
    sidecar [.lvm]. *)

Module Inline.

Definition COMPRESSION_TAR : Z := 0.
Definition COMPRESSION_GZIP : Z := 1.
Definition COMPRESSION_BZ2 : Z := 2.
Definition COMPRESSION_LZMA : Z := 3.
Definition COMPRESSION_XZ : Z := 4.

(** [detectCompression] (lines 40-72): the result of [Read] is not looked
    at. *)
Definition detectCompression (fs : filesystem) (fname : string)
  : Z * string * option error :=
  match fs !! fname with
  | None => ((-1)%Z, "", Some (ENOENT fname))
  | Some n =>
      let header := make_bytes 263 in
      let header :=
        match n with File f => (Read f header).1.1 | _ => header end in
      if bytes_Equal (slice 0 2 header) [x42; x5a] then
        (COMPRESSION_BZ2, ".tar.bz2", None)
      else if bytes_Equal (slice 0 2 header) [x1f; x8b] then
        (COMPRESSION_GZIP, ".tar.gz", None)
      else if bytes_Equal (slice 1 5 header) [x37; x7a; x58; x5a]
              && bool_decide (index header 0 = xfd) then
        (COMPRESSION_XZ, ".tar.xz", None)
      else if bytes_Equal (slice 1 5 header) [x37; x7a; x58; x5a]
              && bool_decide (index header 0 <> xfd) then
        (COMPRESSION_LZMA, ".tar.lzma", None)
      else if bytes_Equal (slice 257 262 header) [x75; x73; x74; x61; x72] then
        (COMPRESSION_TAR, ".tar", None)
      else ((-1)%Z, "", Some Sniffer.unsupported)
  end.

(** The switch over the compression code (lines 88-99 and 427-438). *)
Definition tarArgs (compression : Z) : list string :=
  if decide (compression = COMPRESSION_TAR) then ["-xf"]
  else if decide (compression = COMPRESSION_GZIP) then ["-zxf"]
  else if decide (compression = COMPRESSION_BZ2) then ["--jxf"]
  else if decide (compression = COMPRESSION_LZMA) then ["--lzma"; "-xf"]
  else ["-Jxf"].

Section Handler.
Context (T : Tools).

(** A handler body: left early with the response to send. *)
Abbreviation Handler := (Prog Daemon Response).

Definition content_of (d : Daemon) (p : string) : file :=
  match fs d !! p with Some (File f) => f | _ => [] end.

(** [untarImage] (lines 81-122): unpack, then read the unpacked
    [metadata.yaml]. *)
Definition untarImage (imagefname destpath : string) (d : Daemon)
  : Daemon * (error + imageMetadata) :=
  let '(compression, _, err) := detectCompression (fs d) imagefname in
  match err with
  | Some err => (d, inl err)
  | None =>
      let args := ["-C"; destpath; "--numeric-owner"] ++ tarArgs compression
                  ++ [imagefname] in
      let d := did d (Untar imagefname destpath) in
      match exec T "tar" args (fs d) with
      | inl err => (d, inl err)
      | inr _ =>
          match unpacked T (content_of d imagefname) "metadata.yaml" with
          | inl err => (d, inl (Wrap "Could not read image metadata" err))
          | inr yamldata =>
              match yaml_Unmarshal T yamldata with
              | inl err => (d, inl (Wrap "Could not parse metadata.yaml" err))
              | inr metadata => (d, inr metadata)
              end
          end
      end
  end.

(** [getImageMetadata] (lines 416-459). *)
Definition getImageMetadata (fname : string) (d : Daemon)
  : error + imageMetadata :=
  let '(compression, _, err) := detectCompression (fs d) fname in
  match err with
  | Some err => inl err
  | None =>
      let args := ["-O"] ++ tarArgs compression ++ [fname; "metadata.yaml"] in
      match exec T "tar" args (fs d) with
      | inl err =>
          inl (Wrap "Could not extract image metadata metadata.yaml from tar"
                    err)
      | inr output =>
          match yaml_Unmarshal T output with
          | inl err => inl (Wrap "Could not parse metadata.yaml" err)
          | inr metadata => inr metadata
          end
      end
  end.

(** Modelled from the spec: on first use the LVM backend creates a thin
    pool and persists its name; each image gets a thin LV named by the
    fingerprint ([shared.LVMCreateDefaultThinPool], [setLVMThinPoolNameConfig]
    and [shared.LVMCreateThinLV] are not part of the sources at hand). *)
Definition LVMCreateDefaultThinPool (vgname : string) (d : Daemon)
  : Daemon * (error + string) :=
  (did d (LVMCreateThinPool vgname), inr "LXDPool").

Definition setLVMThinPoolNameConfig (poolname : string) (d : Daemon)
  : Daemon * option error :=
  (set_serverConfig d (<["core.lvm_thinpool_name" := poolname]> (serverConfig d)),
   None).

Definition LVMCreateThinLV (lvname poolname vgname : string) (d : Daemon)
  : Daemon * (error + string) :=
  LVMCreateLV_ lvname vgname d.

(** The [cleanup] closure (lines 136-168).  Inside the LVM branch [err] is a
    new variable, so the response carries the error the closure was given. *)
Definition cleanup (backing_fs vgname : string) (vgnameIsSet : bool)
    (err : error) (fname : string) (d : Daemon) : Daemon * Response :=
  let d :=
    if vgnameIsSet then
      let lvsymlink := fname +:+ ".lvm" in
      let lvpath :=
        match os_Readlink d lvsymlink with inr t => t | inl _ => "" end in
      let d := (LVMRemoveLV_ d vgname (Base lvpath)).1 in
      (os_Remove d lvsymlink).1
    else if decide (backing_fs = "btrfs") then
      let subvol := fname +:+ ".btrfs" in
      if PathExists d subvol then btrfsDeleteSubvol d subvol else d
    else d in
  match os_Remove d fname with
  | (d, Some remErr) =>
      (d, InternalError (Wrap "Could not process image; Error deleting temporary file" remErr))
  | (d, None) => (d, SmartError err)
  end.

Definition alreadyExists : error := Errorf "Image already exists.".

(** The rows of [images_properties] one header adds (lines 363-386). *)
Definition headerRows (id : Z) (ph : string) : error + list row :=
  match Url.ParseQuery ph with
  | (_, Some err) => inl err
  | (p, None) =>
      inr ((λ entry, property_row id entry.1 (default "" (head entry.2)))
           <$> map_to_list p)
  end.

Fixpoint headersRows (id : Z) (propHeaders : list string) : error + list row :=
  match propHeaders with
  | [] => inr []
  | ph :: rest =>
      match headerRows id ph with
      | inl err => inl err
      | inr rows =>
          match headersRows id rest with
          | inl err => inl err
          | inr more => inr (rows ++ more)
          end
      end
  end.

(** [imagesPost] (lines 124-399); [GetFilesystem] is the outcome of
    [shared.GetFilesystem(d.lxcpath)] and [io_Copy] the error of copying
    the body into the temporary file, if it fails (what was written by
    then is not kept: [cleanup] removes the file). *)
Definition imagesPost (GetFilesystem : error + string)
    (io_Copy : option error) (d : Daemon) (r : Request)
  : Daemon * Response :=
  match GetFilesystem with
  | inl err => (d, InternalError err)
  | inr backing_fs =>
  let '(vgname, vgnameIsSet, err) := getServerConfigValue d "core.lvm_vg_name" in
  match err with
  | Some err => (d, InternalError (Wrap "Error checking server config" err))
  | None =>
  let cleanup := cleanup backing_fs vgname vgnameIsSet in
  let leave {A} (err : error) (fname : string) : Handler A :=
    λ d, let '(d, response) := cleanup err fname d in (d, inl response) in
  let public := Atoi (Header_Get r "X-LXD-public") in
  let tarname := Header_Get r "X-LXD-filename" in
  let dirname := VarPath ["images"] in
  match MkdirAll dirname d with
  | (d, Some err) => (d, InternalError err)
  | (d, None) =>
  match TempFile dirname "lxd_image_" d with
  | (d, inl (Fail err)) => (d, InternalError err)
  | (d, inl (Panic msg)) => (d, InternalError (Errorf msg))
  | (d, inr fname) =>
  let body : Handler Response :=
    _ ← (match io_Copy with
         | Some err => leave err fname
         | None => fall_through (λ d, (write fname (Body r) d, tt))
         end);
    let size := Z.of_nat (length (Body r)) in
    let fingerprint := sha256 T (Body r) in
    let expectedFingerprint := Header_Get r "X-LXD-fingerprint" in
    _ ← (if negb (bool_decide (expectedFingerprint = ""))
            && negb (bool_decide (fingerprint = expectedFingerprint))
         then leave fingerprintMismatch fname else ret tt);
    let imagefname := VarPath ["images"; fingerprint] in
    d ← fall_through (λ d, (d, d));
    _ ← (if PathExists d imagefname then leave alreadyExists fname else ret tt);
    d ← fall_through (λ d, (d, d));
    _ ← (match os_Rename fname imagefname d with
         | (_, Some err) => leave err fname
         | (d', None) => fall_through (λ _, (d', tt))
         end);
    imageMeta ←
      (if vgnameIsSet then
         d ← fall_through (λ d, (d, d));
         let '(poolname, poolnameIsSet, _) :=
           getServerConfigValue d "core.lvm_thinpool_name" in
         poolname ←
           (if negb poolnameIsSet then
              d ← fall_through (λ d, (d, d));
              match LVMCreateDefaultThinPool vgname d with
              | (_, inl err) =>
                  leave (Wrap "Error creating LVM thin pool" err) imagefname
              | (d', inr poolname) =>
                  match setLVMThinPoolNameConfig poolname d' with
                  | (_, Some err) =>
                      leave (Wrap "Error setting LVM thin pool config" err)
                            imagefname
                  | (d'', None) => fall_through (λ _, (d'', poolname))
                  end
              end
            else ret poolname);
         d ← fall_through (λ d, (d, d));
         match LVMCreateThinLV fingerprint poolname vgname d with
         | (d', inl err) =>
             _ ← fall_through (λ _, (d', tt));
             leave (Wrap "Error Creating LVM LV for new image" err) imagefname
         | (d', inr lvpath) =>
             _ ← fall_through (λ _, (d', tt));
             d ← fall_through (λ d, (d, d));
             match os_Symlink lvpath (imagefname +:+ ".lvm") d with
             | (_, Some err) => leave err imagefname
             | (d', None) =>
                 _ ← fall_through (λ _, (did d' (Mkfs lvpath), tt));
                 d ← fall_through (λ d, (d, d));
                 match exec T "mkfs.ext4"
                         ["-E";
                          "nodiscard,lazy_itable_init=0,lazy_journal_init=0";
                          lvpath] (fs d) with
                 | inl err =>
                     leave (Wrap "Error making filesystem on image LV" err)
                           imagefname
                 | inr _ =>
                     match TempDir "/tmp" "LXD_import" d with
                     | (_, inl (Fail err)) => leave err imagefname
                     | (_, inl (Panic msg)) => leave (Errorf msg) imagefname
                     | (d', inr tempLVMountPoint) =>
                         _ ← fall_through
                               (λ _, (did d' (Mount lvpath tempLVMountPoint), tt));
                         let removeTempMountPoint (d : Daemon) : Daemon :=
                           (os_RemoveAll tempLVMountPoint d).1 in
                         d ← fall_through (λ d, (d, d));
                         match exec T "mount"
                                 ["-o"; "discard,stripe=1"; lvpath;
                                  tempLVMountPoint] (fs d) with
                         | inl err =>
                             _ ← fall_through
                                   (λ d, (removeTempMountPoint d, tt));
                             leave (Wrap "Error mounting image LV" err)
                                   imagefname
                         | inr _ =>
                             let unmountLV (d : Daemon) : Daemon * option error :=
                               let d := did d (Umount tempLVMountPoint) in
                               match exec T "umount" [tempLVMountPoint] (fs d)
                               with
                               | inl err => (d, Some err)
                               | inr _ => (d, None)
                               end in
                             d ← fall_through (λ d, (d, d));
                             match untarImage imagefname tempLVMountPoint d with
                             | (d', inl err) =>
                                 _ ← fall_through
                                       (λ _, ((unmountLV d').1, tt));
                                 _ ← fall_through
                                       (λ d, (removeTempMountPoint d, tt));
                                 leave err imagefname
                             | (d', inr imageMeta) =>
                                 _ ← fall_through
                                       (λ _, match unmountLV d' with
                                             | (d, Some _) => (d, tt)
                                             | (d, None) =>
                                                 (removeTempMountPoint d, tt)
                                             end);
                                 _ ← fall_through
                                       (λ d, ((os_Remove d imagefname).1, tt));
                                 ret imageMeta
                             end
                         end
                     end
                 end
             end
         end
       else if decide (backing_fs = "btrfs") then
         let subvol := imagefname +:+ ".btrfs" in
         d ← fall_through (λ d, (d, d));
         match exec T "btrfs" ["subvolume"; "create"; subvol] (fs d) with
         | inl err =>
             _ ← fall_through (λ d, (did d (BtrfsMakeSubvol subvol), tt));
             leave err imagefname
         | inr _ =>
             _ ← fall_through (λ d, ((btrfsMakeSubvol subvol d).1, tt));
             d ← fall_through (λ d, (d, d));
             match untarImage imagefname subvol d with
             | (d', inl err) =>
                 _ ← fall_through (λ _, (d', tt));
                 leave err imagefname
             | (d', inr imageMeta) => fall_through (λ _, (d', imageMeta))
             end
         end
       else
         d ← fall_through (λ d, (d, d));
         match getImageMetadata imagefname d with
         | inl err => leave err imagefname
         | inr imageMeta => ret imageMeta
         end);
    let arch := ArchitectureId T (MetaArchitecture imageMeta) in
    d ← fall_through (λ d, (d, d));
    let tx := db d in
    if existsb (λ r, bool_decide (r !! "fingerprint" = Some (VText fingerprint)))
               (image_rows tx)
    then leave uniqueViolation imagefname
    else
      let id := fresh_id (image_rows tx) in
      let image : row :=
        {[ "id" := VInt id; "fingerprint" := VText fingerprint;
           "filename" := VText tarname; "size" := VInt size;
           "public" := VInt public; "architecture" := VInt arch;
           "upload_date" := VInt (now T) ]} in
      let tx := <["images" := image_rows tx ++ [image]]> tx in
      let propHeaders :=
        default [] (Header r !! CanonicalHeaderKey "X-LXD-properties") in
      match headersRows id propHeaders with
      | inl err => leave err imagefname
      | inr rows =>
          let tx :=
            if decide (0 < length propHeaders) then
              <["images_properties" :=
                  default [] (tx !! "images_properties") ++ rows]> tx
            else tx in
          _ ← fall_through (λ d, (set_db d tx, tt));
          let metadata : gmap string string :=
            <["size" := pretty size]> (<["fingerprint" := fingerprint]> ∅) in
          ret (SyncResponse true (Fields metadata))
      end
  in
  match body d with
  | (d, inl response) => (d, response)
  | (d, inr response) => (d, response)
  end
  end end end end.

End Handler.

End Inline.

End Images.

(** * The remaining handlers

    The handlers of [lxd/images.go] that no claim is about, the server
    information of [lxd/api10.go] and the command entry of [lxc/copy.go]. *)

Module Handlers.
Import Sql Images.

(** A JSON value of a response body ([shared.Jmap] holds [interface{}]). *)
Inductive json : Type :=
| JText (s : string)
| JBool (b : bool)
| JNumber (z : Z)
| JObject (m : gmap string json).

(** The responses these handlers use besides those above. *)
Inductive Reply : Type :=
| Plain (r : Response)
| BadRequest (e : error)
| Conflict
| SyncAlias (a : ImageAlias)
| SyncAliases (l : list ImageAlias)
| SyncBody (body : gmap string json)
| Async (resources : gmap string (list string))
        (metadata : gmap string jvalue).

(** *** PUT /images/{fp} (lines 934-973)

    [decode] is [json.NewDecoder(r.Body).Decode(&imageRaw)]: the error, or
    the [properties] member, nil when the body has none.  The INSERT
    statement is prepared against the table and executed once per pair. *)
Definition imagePut (decode : list byte → error + option (gmap string string))
    (d : Daemon) (r : Request) : Daemon * Reply :=
  let fingerprint := fingerprintVar r in
  match decode (Body r) with
  | inl err => (d, BadRequest err)
  | inr properties =>
      match dbImageGet (db d) fingerprint false with
      | inl err => (d, Plain (SmartError err))
      | inr imgInfo =>
          let tx := db d in
          let '(tx, _) :=
            Exec tx "DELETE FROM images_properties WHERE image_id=?"
                 [VInt (Id imgInfo)] in
          match tx !! "images_properties" with
          | None => (d, Plain (InternalError (noSuchTable "images_properties")))
          | Some rows =>
              let added :=
                (λ kv, property_row (Id imgInfo) kv.1 kv.2)
                <$> map_to_list (default ∅ properties) in
              (set_db d (<["images_properties" := rows ++ added]> tx),
               Plain EmptySyncResponse)
          end
      end
  end.

(** *** POST /images/{fp}/secret (lines 1137-1156)

    [random] is the outcome of [shared.RandomCryptoString()]. *)
Definition imageSecret (random : error + string) (d : Daemon) (r : Request)
  : Reply :=
  let fingerprint := fingerprintVar r in
  match dbImageGet (db d) fingerprint false with
  | inl err => Plain (SmartError err)
  | inr _ =>
      match random with
      | inl err => Plain (InternalError err)
      | inr secret =>
          Async {[ "images" := [fingerprint] ]} {[ "secret" := JString secret ]}
      end
  end.

(** *** The alias service (lines 977-1087) *)

Record aliasPostReq := {
  AliasName : string;
  AliasDescription : string;
  AliasTarget : string;
}.

Definition alias_rows (db : database) : list row :=
  default [] (db !! "images_aliases").

(** Modelled from the spec: [getAlias(name)] finds the alias of that name
    ([dbAliasGet] is not part of the sources at hand); [None] is a nil
    error. *)
Definition dbAliasGet (db : database) (name : string) : option error :=
  if existsb (λ a : row, bool_decide (a !! "name" = Some (VText name)))
             (alias_rows db)
  then None else Some NoSuchObject.

(** Modelled from the spec: [addAlias(name, imageId, desc)] inserts a row
    of [images_aliases(id pk, name unique, image_id, description)]
    ([dbAddAlias] is not part of the sources at hand). *)
Definition dbAddAlias (db : database) (name : string) (imageId : Z)
    (desc : string) : database * option error :=
  match db !! "images_aliases" with
  | None => (db, Some (noSuchTable "images_aliases"))
  | Some rows =>
      if existsb (λ a : row, bool_decide (a !! "name" = Some (VText name))) rows
      then (db, Some (SqlError "UNIQUE constraint failed: images_aliases.name"))
      else
        let a : row :=
          {[ "id" := VInt (fresh_id rows); "name" := VText name;
             "image_id" := VInt imageId; "description" := VText desc ]} in
        (<["images_aliases" := rows ++ [a]]> db, None)
  end.

(** [rows.Scan] into a [*string]: text as it is, a number in decimal. *)
Definition scan_string (v : value) : string :=
  match v with VText s => s | VInt z => pretty z end.

(** The image rows an alias row joins with
    ([ON images_aliases.image_id=images.id], and [AND images.public=1]
    for an untrusted client). *)
Definition joined (db : database) (isTrustedClient : bool) (a : row)
  : list row :=
  filter (λ i : row, is_Some (a !! "image_id")
                     ∧ i !! "id" = a !! "image_id"
                     ∧ (isTrustedClient = true
                        ∨ i !! "public" = Some (VInt 1)))
         (image_rows db).

(** [doAliasGet] (lines 1061-1080): the first row of the join of the
    aliases of that name with their images, scanned into the fingerprint
    and the description; the fingerprint goes to the [Name] field. *)
Definition doAliasGet (d : Daemon) (name : string) (isTrustedClient : bool)
  : error + ImageAlias :=
  match db d !! "images_aliases", db d !! "images" with
  | Some aliases, Some _ =>
      let named :=
        filter (λ a : row, a !! "name" = Some (VText name)) aliases in
      let found :=
        named ≫= λ a, (λ i : row, (i, a)) <$> joined (db d) isTrustedClient a in
      match found with
      | (i, a) :: _ =>
          match i !! "fingerprint", a !! "description" with
          | Some fingerprint, Some description =>
              inr {| Name := scan_string fingerprint;
                     Description := scan_string description |}
          | _, _ => inl (SqlError "no such column")
          end
      | [] => inl NoSuchObject
      end
  | None, _ => inl (noSuchTable "images_aliases")
  | _, None => inl (noSuchTable "images")
  end.

(** [name] is [mux.Vars(r)["name"]]. *)
Definition aliasGet (d : Daemon) (r : Request) (name : string) : Reply :=
  match doAliasGet d name (trusted r) with
  | inl err => Plain (SmartError err)
  | inr alias => SyncAlias alias
  end.

(** The loop of [aliasesGet] (lines 1028-1041). *)
Fixpoint listAliases (d : Daemon) (r : Request) (results : list (list value))
    (responseStr : list string) (responseMap : list ImageAlias)
  : outcome (list string * list ImageAlias) :=
  match results with
  | [] => Returned (responseStr, responseMap)
  | res :: rest =>
      name ← column_string res 0;
      if negb (recursion r) then
        let url := "/" +:+ APIVersion +:+ "/images/aliases/" +:+ name in
        listAliases d r rest (responseStr ++ [url]) responseMap
      else
        match doAliasGet d name (trusted r) with
        | inl _ => listAliases d r rest responseStr responseMap
        | inr alias => listAliases d r rest responseStr (responseMap ++ [alias])
        end
  end.

Definition aliasesGet (d : Daemon) (r : Request) : outcome Reply :=
  match dbQueryScan (db d) "SELECT name FROM images_aliases" [] with
  | (_, Some err) => Returned (BadRequest err)
  | (results, None) =>
      '(responseStr, responseMap) ← listAliases d r results [] [];
      if negb (recursion r) then
        Returned (Plain (SyncResponse true (Urls responseStr)))
      else Returned (SyncAliases responseMap)
  end.

(** [aliasDelete] (lines 1082-1087): what the statement returns is
    discarded. *)
Definition aliasDelete (d : Daemon) (r : Request) (name : string)
  : Daemon * Reply :=
  let '(db', _) :=
    Exec (db d) "DELETE FROM images_aliases WHERE name=?" [VText name] in
  (set_db d db', Plain EmptySyncResponse).

Definition nameAndTargetRequired : error := Errorf "name and target are required".

(** [aliasesPost] (lines 983-1013); [decode] is the JSON decoder. *)
Definition aliasesPost (decode : list byte → error + aliasPostReq)
    (d : Daemon) (r : Request) : Daemon * Reply :=
  match decode (Body r) with
  | inl err => (d, BadRequest err)
  | inr req =>
      if bool_decide (AliasName req = "") || bool_decide (AliasTarget req = "")
      then (d, BadRequest nameAndTargetRequired)
      else
        let description :=
          if decide (AliasDescription req = "") then AliasName req
          else AliasDescription req in
        match dbAliasGet (db d) (AliasName req) with
        | None => (d, Conflict)
        | Some _ =>
            match dbImageGet (db d) (AliasTarget req) false with
            | inl err => (d, Plain (SmartError err))
            | inr imgInfo =>
                match dbAddAlias (db d) (AliasName req) (Id imgInfo)
                        description with
                | (_, Some err) => (d, Plain (InternalError err))
                | (db', None) => (set_db d db', Plain EmptySyncResponse)
                end
            end
        end
  end.

(** *** GET on the API root ([lxd/api10.go], lines 41-102) *)

(** What the host reports: [syscall.Uname]'s release field (an array of
    65 signed bytes), the backing file system of the LXC path, and the
    versions compiled in. *)
Record Host := {
  Uname : error + list Z;
  GetFilesystem : error + string;
  ConfigError : option error;
  lxc_Version : string;
  shared_Version : string;
  APICompat : Z;
}.

(** Modelled from the spec: [getServerConfig] reads every setting from
    the store [getServerConfigValue] reads one setting from (it is not
    part of the sources at hand); [ConfigError] is the error of that read,
    if it fails. *)
Definition getServerConfig (H : Host) (d : Daemon)
  : error + gmap string string :=
  match ConfigError H with
  | Some err => inl err
  | None => inr (serverConfig d)
  end.

(** [string(byte(c))] for a signed byte: the UTF-8 form of the code point
    [c mod 256]. *)
Definition string_of_int8 (c : Z) : string :=
  let v := (c mod 256)%Z in
  if (v <? 128)%Z then String (ascii_of_N (Z.to_N v)) EmptyString
  else String (ascii_of_N (Z.to_N (192 + v / 64)))
         (String (ascii_of_N (Z.to_N (128 + v mod 64))) EmptyString).

(** The loop over [uname.Release] (lines 70-76). *)
Fixpoint kernelVersion (release : list Z) : string :=
  match release with
  | [] => EmptyString
  | c :: rest =>
      if decide (c = 0%Z) then EmptyString
      else string_of_int8 c +:+ kernelVersion rest
  end.

(** The loop over the server configuration (lines 88-94). *)
Definition shownConfig (serverConfig : gmap string string) : gmap string json :=
  map_imap (λ key value,
              Some (if decide (key = "core.trust_password") then JBool true
                    else JText value)) serverConfig.

Definition api10Get (H : Host) (d : Daemon) (r : Request) : Reply :=
  let body : gmap string json := {[ "api_compat" := JNumber (APICompat H) ]} in
  if trusted r then
    let body := <["auth" := JText "trusted"]> body in
    match Uname H with
    | inl err => Plain (InternalError err)
    | inr release =>
        match GetFilesystem H with
        | inl err => Plain (InternalError err)
        | inr backing_fs =>
            let env : gmap string json :=
              {[ "lxc_version" := JText (lxc_Version H);
                 "lxd_version" := JText (shared_Version H);
                 "driver" := JText "lxc";
                 "backing_fs" := JText backing_fs ]} in
            let env := <["kernel_version" := JText (kernelVersion release)]> env in
            let body := <["environment" := JObject env]> body in
            match getServerConfig H d with
            | inl err => Plain (InternalError err)
            | inr serverConfig =>
                let body :=
                  <["config" := JObject (shownConfig serverConfig)]> body in
                SyncBody body
            end
        end
    end
  else SyncBody (<["auth" := JText "untrusted"]> body).

(** *** What the properties below speak of *)

(** A word [%s] reads whole and [strings.Replace] leaves alone: not empty,
    without blank, line feed or slash. *)
Fixpoint plain_chars (s : string) : bool :=
  match s with
  | EmptyString => true
  | String c rest =>
      negb (isSpace c) && negb (Ascii.eqb c "010"%char)
      && negb (Ascii.eqb c "/"%char) && plain_chars rest
  end.

Definition plain (s : string) : bool :=
  negb (bool_decide (s = "")) && plain_chars s.

(** The identifiers of an image row are those of a primary key. *)
Definition unique_ids (rows : list row) : Prop :=
  ∀ i j (a b : row), rows !! i = Some a → rows !! j = Some b →
                     a !! "id" = b !! "id" → i = j.

(** The bytes of a text, as [uname.Release] holds them. *)
Fixpoint release_of (s : string) : list Z :=
  match s with
  | EmptyString => []
  | String c rest => Z.of_N (N_of_ascii c) :: release_of rest
  end.

(** A text of ASCII characters other than NUL. *)
Fixpoint ascii_text (s : string) : bool :=
  match s with
  | EmptyString => true
  | String c rest =>
      (0 <? N_of_ascii c)%N && (N_of_ascii c <? 128)%N && ascii_text rest
  end.

(** The fingerprints of the image rows are those of a unique index. *)
Definition unique_fingerprints (rows : list row) : Prop :=
  ∀ a b : row, a ∈ rows → b ∈ rows →
               a !! "fingerprint" = b !! "fingerprint" → a = b.

(** Every row carries its integer identifier. *)
Definition keyed (rows : list row) : Prop :=
  ∀ a : row, a ∈ rows → ∃ z : Z, a !! "id" = Some (VInt z).

End Handlers.

(** The command entry of [lxc/copy.go] (lines 137-143). *)

Module CopyCmd.
Import Copy.

(** The error for a wrong argument count; it is declared with the other
    commands, outside the sources at hand. *)
Definition errArgs : error := Errorf "wrong number of subcommand arguments".

Definition run (P : Peers) (config : ClientConfig) (args : list string)
    (h : history) : history * option error :=
  match args with
  | [source; dest] => copyContainer P config source dest false h
  | _ => (h, Some errArgs)
  end.

(** The configuration a call carries to a daemon, if it carries one. *)
Definition config_of (c : call) : option (gmap string string) :=
  match c with
  | LocalCopy _ _ _ config _ => Some config
  | MigrateFrom _ _ _ _ config _ _ => Some config
  | _ => None
  end.

(** No key of the configuration begins with [volatile]. *)
Definition withheld (config : gmap string string) : Prop :=
  ∀ k, is_Some (config !! k) → HasPrefix k "volatile" = false.

Definition forwards_no_volatile (c : call) : Prop :=
  ∀ config, config_of c = Some config → withheld config.

End CopyCmd.

(** * Scenarios

    Concrete daemons, requests and tools on which the code is run. *)

Module Scenario.
Import Copy Sql Images.

(** Daemons that answer every call, with a source that advertises the given
    addresses and a destination on which migration fails from the addresses
    listed as unreachable. *)
Definition friendly (advertised unreachable : list string) : Peers :=
  {| new_client := λ _ _, None;
     container_status := λ _ _ _,
       inr {| Config := ∅; Profiles := ["default"] |};
     local_copy := λ _ _ _ _ _ _,
       inr {| Operation := "/1.0/operations/1"; Metadata := [] |};
     wait_for_success := λ _ _ _, None;
     list_profiles := λ _ _, inr ["default"];
     get_migration_source_ws := λ _ _ _,
       inr {| Operation := "/1.0/operations/2"; Metadata := [] |};
     addresses := λ _ _, inr advertised;
     migrate_from := λ _ _ _ url _ _ _ _,
       if existsb (λ a, bool_decide
                          (url = "wss://" +:+ a
                                 +:+ "/1.0/operations/2/websocket"))
                  unreachable
       then inl (PeerError "dial failed")
       else inr {| Operation := "/1.0/operations/3"; Metadata := [] |};
     json_Unmarshal := λ _, inr ∅ |}.

Definition local : ClientConfig := {| DefaultRemote := "local" |}.

(** The source of the examples: one container with the default profile. *)
Definition exampleStatus : ContainerState :=
  {| Config := ∅; Profiles := ["default"] |}.

Definition exampleMigration (advertised : list string) : migration :=
  {| sourceOperation := "/1.0/operations/2"; secrets := ∅;
     addrs := advertised |}.

Definition exampleSetup : history :=
  [NewClient "local"; ContainerStatus "local" "c1"; NewClient "other";
   ListProfiles "other"; GetMigrationSourceWS "local" "c1"; Addresses "local"].

(** A toy digest: the content itself in hexadecimal (it is injective, as
    SHA-256 is taken to be). *)
Definition hex_digit (n : N) : ascii :=
  if (n <? 10)%N then ascii_of_N (48 + n) else ascii_of_N (87 + n).

Fixpoint hex (content : list byte) : string :=
  match content with
  | [] => EmptyString
  | b :: rest =>
      String (hex_digit (Byte.to_N b / 16))
        (String (hex_digit (Byte.to_N b mod 16)) (hex rest))
  end.

(** Tools that always succeed; every archive holds the same metadata. *)
Definition tools : Tools :=
  {| sha256 := hex;
     json_Decode := λ _, None;
     ParseMediaType := λ _, inl (Errorf "mime: no media type");
     parts := λ _ _, [];
     exec := λ _ _ _, inr [];
     yaml_Unmarshal := λ _,
       inr {| MetaArchitecture := "x86_64"; MetaCreationDate := 0;
              MetaExpiryDate := 0;
              MetaProperties := Some {[ "os" := "alpine" ]} |};
     ArchitectureId := λ _, 2%Z;
     newLxdContainer := λ _, inl NoSuchObject;
     exportToTar := λ _ _, inl NoSuchObject;
     compress := λ f, f;
     unpacked := λ _ _, inr [];
     now := 0%Z |}.

(** A store with one private image, one property and one alias of it. *)
Definition alpine : row :=
  {[ "id" := VInt 1; "fingerprint" := VText "1f8b";
     "filename" := VText "alpine.tar.gz"; "size" := VInt 2;
     "public" := VInt 0; "architecture" := VInt 2;
     "creation_date" := VInt 0; "expiry_date" := VInt 0;
     "upload_date" := VInt 0 ]}.

Definition alpine_os : row := property_row 1 "os" "alpine".

Definition alpine_alias : row :=
  {[ "id" := VInt 1; "name" := VText "alpine"; "image_id" := VInt 1;
     "description" := VText "Alpine Linux" ]}.

Definition store : database :=
  {[ "images" := [alpine]; "images_properties" := [alpine_os];
     "images_aliases" := [alpine_alias] ]}.

(** An operation minted for the export of that image. *)
Definition export_operation : operation :=
  {| Resources := Some {[ "images" := ["/1.0/images/1f8b"] ]};
     OpMetadata := Some {[ "secret" := JString "s3cret" ]} |}.

Definition daemon (backing : string) : Daemon :=
  {| db := store;
     fs := {[ "/var/lib/lxd/images" := Directory;
              "/var/lib/lxd/images/1f8b" := File [x1f; x8b] ]};
     BackingFs := backing; serverConfig := ∅; volumes := ∅;
     operations := {[ "op1" := export_operation ]};
     worklog := []; temporaries := 0 |}.

(** The record of that image as the service returns it. *)
Definition alpine_record : ImageInfo :=
  {| Aliases := [ {| Name := "alpine"; Description := "alpine" |} ];
     Architecture := 2; Fingerprint := "1f8b"; Filename := "alpine.tar.gz";
     Properties := Some {[ "os" := "alpine" ]}; Public := 0; Size := 2;
     CreationDate := 0; ExpiryDate := 0; UploadDate := 0 |}.

(** A request for the image [fp]. *)
Definition request (trust : bool) (fp secret : string) : Request :=
  {| trusted := trust; recursion := true; fingerprintVar := fp;
     secretValue := secret; Header := ∅; Body := [] |}.

(** A host whose kernel reports release 4.2; the release array is not
    cleared after the NUL. *)
Definition host : Handlers.Host :=
  {| Handlers.Uname := inr (Handlers.release_of "4.2" ++ [0; 55]%Z);
     Handlers.GetFilesystem := inr "ext4";
     Handlers.ConfigError := None;
     Handlers.lxc_Version := "1.1.3";
     Handlers.shared_Version := "0.17";
     Handlers.APICompat := 1 |}.

(** The body of a synchronous reply. *)
Definition body_of (reply : Handlers.Reply) : gmap string Handlers.json :=
  match reply with Handlers.SyncBody body => body | _ => ∅ end.

(** Tools with which a container can be exported. *)
Definition exporting : Tools :=
  {| sha256 := hex;
     json_Decode := json_Decode tools;
     ParseMediaType := ParseMediaType tools;
     parts := parts tools;
     exec := exec tools;
     yaml_Unmarshal := yaml_Unmarshal tools;
     ArchitectureId := ArchitectureId tools;
     newLxdContainer := λ _, inr 2%Z;
     exportToTar := λ _ _, inr [x75; x73];
     compress := λ f, x1f :: x8b :: f;
     unpacked := unpacked tools;
     now := 0%Z |}.

(** A request for an image of the container [c1], and its image. *)
Definition from_c1 : imageFromContainerPostReq :=
  {| ReqFilename := "c1.tar.gz"; ReqPublic := false;
     Source := {[ "name" := "c1"; "type" := "container" ]};
     ReqProperties := Some {[ "os" := "alpine" ]} |}.

Definition exported_c1 : ImageInfo :=
  {| Aliases := []; Architecture := 2; Fingerprint := "1f8b7573";
     Filename := "c1.tar.gz"; Properties := Some {[ "os" := "alpine" ]};
     Public := 0; Size := 4; CreationDate := 0; ExpiryDate := 0;
     UploadDate := 0 |}.

(** An upload of a raw tarball that announces its fingerprint. *)
Definition upload_as (fp : string) (body : list byte) : Request :=
  {| trusted := true; recursion := false; fingerprintVar := "";
     secretValue := "";
     Header := {[ CanonicalHeaderKey "X-LXD-fingerprint" := [fp] ]};
     Body := body |}.

(** An upload of a raw tarball. *)
Definition upload (body : list byte) : Request :=
  {| trusted := true; recursion := false; fingerprintVar := "";
     secretValue := ""; Header := ∅; Body := body |}.

End Scenario.

(** * Properties *)

(** ** The compression sniffer *)

Module SnifferFacts.
Import Sniffer.

Lemma Read_nonempty (f : file) (buf : list byte) :
  f ≠ [] →
  Read f buf = (take (length buf) f ++ drop (length f) buf,
                Nat.min (length f) (length buf), None).
Proof. destruct f; [congruence | reflexivity]. Qed.

Lemma drop_make_bytes (n k : nat) : drop k (make_bytes n) = make_bytes (n - k).
Proof. unfold make_bytes. apply drop_replicate. Qed.

(** What [detectCompression] classifies: the bytes read, zero-padded. *)
Lemma header_of_short_file (f : file) :
  f ≠ [] → length f < 263 →
  (Read f (make_bytes 263)).1.1 = f ++ make_bytes (263 - length f).
Proof.
  intros Hne Hlen. rewrite Read_nonempty by done. cbn [fst].
  rewrite drop_make_bytes. f_equal.
  apply take_ge. unfold make_bytes. rewrite length_replicate. lia.
Qed.

Lemma detectCompression_file (fs : filesystem) (fname : string) (f : file) :
  fs !! fname = Some (File f) → f ≠ [] →
  detectCompression fs fname
  = classify (take 263 f ++ make_bytes (263 - length f)).
Proof.
  intros Hf Hne. unfold detectCompression. rewrite Hf.
  rewrite Read_nonempty by done.
  rewrite drop_make_bytes.
  unfold make_bytes at 1. rewrite length_replicate. reflexivity.
Qed.


(** Whatever the sixth byte is, a header that starts [FD 37 7A 58 5A] is
    xz; and whatever the first byte is, short of [FD], a header that goes
    on [37 7A 58 5A] is lzma. *)
Lemma sixth_byte_is_ignored (fs : filesystem) (fname : string) (b : byte)
    (tail : list byte) :
  fs !! fname = Some (File ([xfd; x37; x7a; x58; x5a; b] ++ tail)) →
  detectCompression fs fname = (["-Jxf"], ".tar.xz", None).
Proof.
  intros Hf. rewrite (detectCompression_file _ _ _ Hf) by done.
  reflexivity.
Qed.

Lemma first_byte_is_only_compared_to_FD (fs : filesystem) (fname : string)
    (b0 b5 : byte) (tail : list byte) :
  fs !! fname = Some (File ([b0; x37; x7a; x58; x5a; b5] ++ tail)) →
  b0 ≠ xfd →
  detectCompression fs fname = (["--lzma"; "-xf"], ".tar.lzma", None).
Proof.
  intros Hf Hb0. rewrite (detectCompression_file _ _ _ Hf) by done.
  unfold classify, slice, bytes_Equal, index. cbn.
  rewrite (bool_decide_eq_false_2 (b0 = xfd)) by done.
  rewrite (bool_decide_eq_true_2 (b0 ≠ xfd)) by done.
  rewrite !bool_decide_eq_false_2 by (intros [=]).
  reflexivity.
Qed.

(** C5: the code contradicts the six-byte magics its own comment lists.  A
    header [FD 37 7A 58 5A 01], whose sixth byte is not [00], is classified
    as xz, and a header [FF 37 7A 58 5A 00], whose first byte is outside
    [00..E0], is classified as lzma: only bytes 1 to 4 and the test
    "first byte is FD" are looked at. *)
Theorem detectCompression_magic_unchecked :
  detectCompression
    {[ "img" := File ([xfd; x37; x7a; x58; x5a; x01] ++ make_bytes 257) ]} "img"
  = (["-Jxf"], ".tar.xz", None)
  ∧ detectCompression
      {[ "img" := File ([xff; x37; x7a; x58; x5a; x00] ++ make_bytes 257) ]}
      "img"
    = (["--lzma"; "-xf"], ".tar.lzma", None).
Proof. split; vm_compute; reflexivity. Qed.




End SnifferFacts.

(** ** The copy coordinator *)

Module CopyFacts.
Import Copy Scenario.

Section Facts.
Context (P : Peers) (config : ClientConfig).

(** A failed attempt moves on to the next address with its error kept; a
    successful one ends the loop. *)
Lemma migrateLoop_spec destRemote destName status baseImage m addresses :
  ∀ err h h' res,
    migrateLoop P destRemote destName status baseImage m addresses err h
    = (h', res) →
    (∃ tried addr rest h1 e1,
        addresses = tried ++ addr :: rest
        ∧ Exhausts (attempt P destRemote destName status baseImage m)
                   tried h err h1 e1
        ∧ attempt P destRemote destName status baseImage m addr h1 = (h', None)
        ∧ res = None)
    ∨ Exhausts (attempt P destRemote destName status baseImage m)
               addresses h err h' res.
Proof.
  induction addresses as [| addr rest IH]; intros err h h' res Hrun.
  - cbn in Hrun. injection Hrun as <- <-. right. constructor.
  - cbn [migrateLoop] in Hrun.
    destruct (attempt P destRemote destName status baseImage m addr h)
      as [h1 [e |]] eqn:Hatt.
    + destruct (IH _ _ _ _ Hrun)
        as [(tried & a & rest' & h2 & e2 & -> & Hex & Ha & ->) | Hex].
      * left. exists (addr :: tried), a, rest', h2, e2.
        split; [reflexivity |]. split; [| done].
        econstructor; eassumption.
      * right. econstructor; eassumption.
    + injection Hrun as <- <-. left.
      exists [], addr, rest, h, err. split; [reflexivity |].
      split; [constructor | done].
Qed.

(** After a pass in which everything failed, the error kept is the one of
    the last address. *)
Lemma Exhausts_last try tried addr h err h' err' :
  Exhausts try (tried ++ [addr]) h err h' err' →
  ∃ h1 e, try addr h1 = (h', Some e) ∧ err' = Some e.
Proof.
  revert h err. induction tried as [| a tried IH]; intros h err Hex.
  - inversion Hex as [| ? ? ? h1 e ? ? ? Htry Hrest]; subst.
    inversion Hrest; subst. eauto.
  - inversion Hex as [| ? ? ? h1 e ? ? ? Htry Hrest]; subst. eauto.
Qed.

(** Every address of a failed pass was tried, in order: the pass logs one
    [MigrateFrom] per address. *)
Lemma attempt_logs destRemote destName status baseImage m addr h h' res :
  attempt P destRemote destName status baseImage m addr h = (h', res) →
  ∃ url more,
    url = "wss://" +:+ addr +:+ path_Join (sourceOperation m) "websocket"
    ∧ h' = h ++ MigrateFrom destRemote destName url (secrets m)
                  (Config status) (Profiles status) baseImage :: more
    ∧ Forall (λ c, is_migrate_from c = false) more.
Proof.
  unfold attempt. intros Hatt.
  destruct (migrate_from P h destRemote destName _ _ _ _ _) as [e | rsp].
  - injection Hatt as <- <-. eexists _, []. split; [reflexivity |].
    split; [reflexivity | constructor].
  - injection Hatt as <- <-. eexists _, [_]. split; [reflexivity |].
    split; [by rewrite <- app_assoc |].
    repeat constructor.
Qed.

(** An attempt fails when the migration request fails or when waiting for
    its operation does, and with that very error. *)
Lemma attempt_fails destRemote destName status baseImage m addr h h' e :
  attempt P destRemote destName status baseImage m addr h = (h', Some e) ↔
  let url := "wss://" +:+ addr +:+ path_Join (sourceOperation m) "websocket" in
  let request := MigrateFrom destRemote destName url (secrets m)
                   (Config status) (Profiles status) baseImage in
  (migrate_from P h destRemote destName url (secrets m) (Config status)
     (Profiles status) baseImage = inl e
   ∧ h' = h ++ [request])
  ∨ ∃ migration,
      migrate_from P h destRemote destName url (secrets m) (Config status)
        (Profiles status) baseImage = inr migration
      ∧ wait_for_success P (h ++ [request]) destRemote (Operation migration)
        = Some e
      ∧ h' = (h ++ [request])
             ++ [WaitForSuccess destRemote (Operation migration)].
Proof.
  unfold attempt. cbn zeta.
  destruct (migrate_from P h destRemote destName _ _ _ _ _) as [e' | rsp].
  - split.
    + intros [= <- <-]. by left.
    + intros [[[= <-] ->] | (? & ? & _)]; done.
  - split.
    + intros [= <- Hw]. right. by exists rsp.
    + intros [[? _] | (? & [= <-] & Hw & ->)]; [done |]. by rewrite Hw.
Qed.

(** The calls made before the loop. *)
Lemma readSource_log sourceRemote sourceName keepVolatile h h' r :
  readSource P sourceRemote sourceName keepVolatile h = (h', r) →
  h' = h ++ (if IsSnapshot sourceName then []
             else [ContainerStatus sourceRemote sourceName]).
Proof.
  unfold readSource. destruct (IsSnapshot sourceName); cbn.
  - intros [= <- <-]. by rewrite app_nil_r.
  - unfold mbind, Prog_bind, bind, try_.
    destruct (container_status P h sourceRemote sourceName);
      [by intros [= <- <-] |].
    destruct keepVolatile; cbn; by intros [= <- <-].
Qed.

Lemma negotiate_log sourceRemote sourceName destRemote status h h' m :
  negotiate P sourceRemote sourceName destRemote status h = (h', inr m) →
  h' = h ++ [NewClient destRemote; ListProfiles destRemote;
             GetMigrationSourceWS sourceRemote sourceName;
             Addresses sourceRemote].
Proof.
  unfold negotiate, mbind, Prog_bind, bind, try_.
  destruct (new_client P h destRemote); [by intros [= <- ?] |].
  destruct (list_profiles P _ destRemote); [by intros [= <- ?] |].
  destruct (IsSubset _ _); cbn; [| by intros [= <- ?]].
  destruct (get_migration_source_ws P _ sourceRemote sourceName);
    [by intros [= <- ?] |].
  destruct (json_Unmarshal P _); [by intros [= <- ?] |].
  destruct (addresses P _ sourceRemote); [by intros [= <- ?] |].
  cbn. intros [= <- <-]. by rewrite <- !app_assoc.
Qed.

(** How a cross-remote copy reaches the loop. *)
Lemma copyContainer_cross_remote sourceResource destResource keepVolatile
    sourceRemote sourceName destRemote destName status baseImage m h1 h0 :
  ParseRemoteAndContainer config sourceResource = (sourceRemote, sourceName) →
  ParseRemoteAndContainer config destResource = (destRemote, destName) →
  sourceName ≠ "" →
  sourceRemote ≠ destRemote →
  new_client P [] sourceRemote = None →
  readSource P sourceRemote sourceName keepVolatile [NewClient sourceRemote]
  = (h1, inr (status, baseImage)) →
  negotiate P sourceRemote sourceName destRemote status h1 = (h0, inr m) →
  copyContainer P config sourceResource destResource keepVolatile []
  = migrateLoop P destRemote
      (if decide (destName = "") then sourceName else destName)
      status baseImage m (addrs m) None h0.
Proof.
  intros Hsrc Hdst Hname Hremote Hnew Hread Hneg.
  unfold copyContainer. rewrite Hsrc, Hdst.
  destruct (decide (sourceName = "")) as [? | _]; [done |].
  unfold mbind, Prog_bind, bind, try_. rewrite Hnew. cbn [app].
  rewrite Hread.
  destruct (decide (sourceRemote = destRemote)) as [? | _]; [done |].
  rewrite Hneg. unfold fall_through.
  destruct (migrateLoop _ _ _ _ _ _ _ _ _) as [h' res]. reflexivity.
Qed.

(** C7, amended: when the source and destination remotes are equal and
    the (non-empty) container names are equal, no local-copy or migration
    operation is issued; besides creating the client, the only request is
    the status query for the source container, sent to that same daemon
    and skipped for a snapshot; once the client is created and that query
    succeeds, the copy fails with IllegalCopy. *)
Theorem same_remote_same_name sourceResource destResource keepVolatile
    remote sourceName destName :
  ParseRemoteAndContainer config sourceResource = (remote, sourceName) →
  ParseRemoteAndContainer config destResource = (remote, destName) →
  sourceName ≠ "" →
  destName = "" ∨ destName = sourceName →
  let '(h, res) :=
    copyContainer P config sourceResource destResource keepVolatile [] in
  (h = [NewClient remote]
   ∨ h = [NewClient remote; ContainerStatus remote sourceName])
  ∧ Forall (λ c, is_copy_operation c = false) h
  ∧ (IsSnapshot sourceName = true → Forall (λ c, is_request c = false) h)
  ∧ (new_client P [] remote = None →
     (IsSnapshot sourceName = true
      ∨ ∃ status, container_status P [NewClient remote] remote sourceName
                  = inr status) →
     res = Some illegalCopy).
Proof.
  intros Hsrc Hdst Hname Hsame.
  unfold copyContainer. rewrite Hsrc, Hdst.
  destruct (decide (sourceName = "")) as [? | _]; [done |].
  assert (Hd : (if decide (destName = "") then sourceName else destName)
               = sourceName).
  { destruct Hsame as [-> | ->]; [done |]. by destruct (decide _). }
  rewrite Hd. clear Hd.
  unfold mbind, Prog_bind, bind, try_. cbn [app].
  destruct (new_client P [] remote) as [e |] eqn:Hnew.
  { cbn. split; [by left |]. split; [by repeat constructor |].
    split; [by repeat constructor | done]. }
  unfold readSource. destruct (IsSnapshot sourceName) eqn:Hsnap; cbn.
  - destruct (decide (remote = remote)) as [_ | ?]; [| done].
    destruct (decide (sourceName = sourceName)) as [_ | ?]; [| done].
    cbn. split; [by left |]. split; [by repeat constructor |].
    split; [by repeat constructor | done].
  - unfold mbind, Prog_bind, bind, try_. cbn [app].
    destruct (container_status P [NewClient remote] remote sourceName)
      as [e | status] eqn:Hstatus.
    + cbn. split; [by right |]. split; [by repeat constructor |].
      split; [done |]. intros _ [? | [? ?]]; done.
    + destruct keepVolatile; cbn;
        (destruct (decide (remote = remote)) as [_ | ?]; [| done]);
        (destruct (decide (sourceName = sourceName)) as [_ | ?]; [| done]);
        cbn; (split; [by right |]); (split; [by repeat constructor |]);
        (split; [done |]); done.
Qed.

(** A stretch of failed attempts, in the words of the daemons' answers. *)
Lemma Exhausts_AllFail destRemote destName status baseImage m addresses :
  ∀ h err h' err',
    Exhausts (attempt P destRemote destName status baseImage m)
             addresses h err h' err' →
    AllFail (fails_at P destRemote destName status baseImage m)
            addresses h err h' err'.
Proof.
  induction addresses as [| addr rest IH]; intros h err h' err' Hex.
  - inversion Hex; subst. constructor.
  - inversion Hex as [| ? ? ? h1 e ? ? ? Htry Hrest]; subst.
    apply (AllFail_cons _ addr rest h h1 e); [| by apply IH].
    apply attempt_fails in Htry. unfold fails_at, migrationRequest.
    destruct Htry as [Hrefused | (migration & Hsent & Hwait & ->)].
    + by left.
    + right. exists migration. by rewrite <- app_assoc.
Qed.

Lemma attempt_succeeds destRemote destName status baseImage m addr h h' :
  attempt P destRemote destName status baseImage m addr h = (h', None) →
  succeeds_at P destRemote destName status baseImage m addr h h'.
Proof.
  unfold attempt, succeeds_at, migrationRequest. cbn zeta.
  destruct (migrate_from P h destRemote destName _ _ _ _ _) as [e | rsp];
    [done |].
  intros [= <- Hwait]. exists rsp. by rewrite <- app_assoc.
Qed.

Lemma AllFail_last fails tried addr h err h' err' :
  AllFail fails (tried ++ [addr]) h err h' err' →
  ∃ h1 e, fails addr h1 h' e ∧ err' = Some e.
Proof.
  revert h err. induction tried as [| a tried IH]; intros h err Hall.
  - inversion Hall as [| ? ? ? h1 e ? ? ? Hfails Hrest]; subst.
    inversion Hrest; subst. eauto.
  - inversion Hall as [| ? ? ? h1 e ? ? ? Hfails Hrest]; subst. eauto.
Qed.

(** C8: in a cross-remote copy that got past the profile check and obtained
    the source websocket and the address list, the addresses are tried in
    order, each from the history the previous one left.  An address fails
    when the destination refuses the migration request for it or when the
    wait for the operation of that request ends with an error, and then
    the next address is tried.  Either some address succeeds after all the
    earlier ones failed, and the copy returns nil right after the wait for
    that address, sending nothing for the later ones; or every address
    fails and the copy returns the error of the last one. *)
Theorem cross_remote_address_fallback sourceResource destResource keepVolatile
    sourceRemote sourceName destRemote destName status baseImage m h1 h0 :
  ParseRemoteAndContainer config sourceResource = (sourceRemote, sourceName) →
  ParseRemoteAndContainer config destResource = (destRemote, destName) →
  sourceName ≠ "" →
  sourceRemote ≠ destRemote →
  new_client P [] sourceRemote = None →
  readSource P sourceRemote sourceName keepVolatile [NewClient sourceRemote]
  = (h1, inr (status, baseImage)) →
  negotiate P sourceRemote sourceName destRemote status h1 = (h0, inr m) →
  let name := if decide (destName = "") then sourceName else destName in
  let fails := fails_at P destRemote name status baseImage m in
  let succeeds := succeeds_at P destRemote name status baseImage m in
  let '(h, res) :=
    copyContainer P config sourceResource destResource keepVolatile [] in
  (∃ tried addr rest hk ek,
      addrs m = tried ++ addr :: rest
      ∧ AllFail fails tried h0 None hk ek
      ∧ succeeds addr hk h
      ∧ res = None)
  ∨ (AllFail fails (addrs m) h0 None h res
     ∧ ∀ tried addr, addrs m = tried ++ [addr] →
         ∃ hk e, fails addr hk h e ∧ res = Some e).
Proof.
  intros Hsrc Hdst Hname Hremote Hnew Hread Hneg name fails succeeds.
  rewrite (copyContainer_cross_remote _ _ _ _ _ _ _ _ _ _ _ _
             Hsrc Hdst Hname Hremote Hnew Hread Hneg).
  destruct (migrateLoop _ _ _ _ _ _ _ _ _) as [h res] eqn:Hrun.
  destruct (migrateLoop_spec _ _ _ _ _ _ _ _ _ _ Hrun)
    as [(tried & addr & rest & hk & ek & Haddrs & Hex & Hok & ->) | Hex].
  - left. exists tried, addr, rest, hk, ek. split; [done |].
    split; [by apply Exhausts_AllFail |].
    split; [by apply attempt_succeeds | done].
  - right. apply Exhausts_AllFail in Hex. split; [done |].
    intros tried addr Heq. fold name fails in Hex. rewrite Heq in Hex.
    by apply AllFail_last in Hex.
Qed.

(** C10: in a cross-remote copy whose source advertises no address, the
    copy returns nil; no migration request was sent to the destination,
    the calls made being exactly those that lead up to the loop. *)
Theorem cross_remote_no_addresses sourceResource destResource keepVolatile
    sourceRemote sourceName destRemote destName status baseImage m h1 h0 :
  ParseRemoteAndContainer config sourceResource = (sourceRemote, sourceName) →
  ParseRemoteAndContainer config destResource = (destRemote, destName) →
  sourceName ≠ "" →
  sourceRemote ≠ destRemote →
  new_client P [] sourceRemote = None →
  readSource P sourceRemote sourceName keepVolatile [NewClient sourceRemote]
  = (h1, inr (status, baseImage)) →
  negotiate P sourceRemote sourceName destRemote status h1 = (h0, inr m) →
  addrs m = [] →
  copyContainer P config sourceResource destResource keepVolatile []
  = (h0, None)
  ∧ Forall (λ c, is_migrate_from c = false) h0
  ∧ h0 = NewClient sourceRemote
         :: (if IsSnapshot sourceName then []
             else [ContainerStatus sourceRemote sourceName])
         ++ [NewClient destRemote; ListProfiles destRemote;
             GetMigrationSourceWS sourceRemote sourceName;
             Addresses sourceRemote].
Proof.
  intros Hsrc Hdst Hname Hremote Hnew Hread Hneg Hnone.
  rewrite (copyContainer_cross_remote _ _ _ _ _ _ _ _ _ _ _ _
             Hsrc Hdst Hname Hremote Hnew Hread Hneg).
  rewrite Hnone. cbn [migrateLoop].
  apply readSource_log in Hread. apply negotiate_log in Hneg.
  assert (Hh0 : h0 = NewClient sourceRemote
                     :: (if IsSnapshot sourceName then []
                         else [ContainerStatus sourceRemote sourceName])
                     ++ [NewClient destRemote; ListProfiles destRemote;
                         GetMigrationSourceWS sourceRemote sourceName;
                         Addresses sourceRemote]).
  { rewrite Hneg, Hread. reflexivity. }
  split; [done |]. split; [| done].
  rewrite Hh0. destruct (IsSnapshot sourceName); repeat constructor.
Qed.

End Facts.

(** C7, as stated, fails: [copy local:c1 local:c1] asks the daemon for the
    status of [c1] before it compares the names, and when that query fails
    the copy ends with the query's error, not with IllegalCopy. *)
Lemma same_name_copy_contacts_daemon :
  copyContainer (friendly [] []) local "local:c1" "local:c1" false []
  = ([NewClient "local"; ContainerStatus "local" "c1"], Some illegalCopy)
  ∧ is_request (ContainerStatus "local" "c1") = true
  ∧ copyContainer
      {| new_client := λ _ _, None;
         container_status := λ _ _ _, inl (PeerError "not found");
         local_copy := local_copy (friendly [] []);
         wait_for_success := λ _ _ _, None;
         list_profiles := λ _ _, inr [];
         get_migration_source_ws := get_migration_source_ws (friendly [] []);
         addresses := λ _ _, inr [];
         migrate_from := migrate_from (friendly [] []);
         json_Unmarshal := λ _, inr ∅ |}
      local "local:c1" "local:c1" false []
    = ([NewClient "local"; ContainerStatus "local" "c1"],
       Some (PeerError "not found")).
Proof. repeat split; vm_compute; reflexivity. Qed.

Lemma same_remote_same_name_witness :
  let '(h, res) :=
    copyContainer (friendly [] []) local "local:c1" "c1" false [] in
  (h = [NewClient "local"] ∨ h = [NewClient "local"; ContainerStatus "local" "c1"])
  ∧ Forall (λ c, is_copy_operation c = false) h
  ∧ (IsSnapshot "c1" = true → Forall (λ c, is_request c = false) h)
  ∧ (new_client (friendly [] []) [] "local" = None →
     (IsSnapshot "c1" = true
      ∨ ∃ status, container_status (friendly [] []) [NewClient "local"]
                    "local" "c1" = inr status) →
     res = Some illegalCopy).
Proof.
  apply (same_remote_same_name (friendly [] []) local "local:c1" "c1" false
           "local" "c1" "c1");
    [reflexivity | reflexivity | discriminate | right; reflexivity].
Defined.

Lemma cross_remote_address_fallback_witness :
  let P := friendly ["10.0.0.1"; "10.0.0.2"] ["10.0.0.1"] in
  let fails := fails_at P "other" "c2" exampleStatus ""
                 (exampleMigration ["10.0.0.1"; "10.0.0.2"]) in
  let succeeds := succeeds_at P "other" "c2" exampleStatus ""
                    (exampleMigration ["10.0.0.1"; "10.0.0.2"]) in
  let '(h, res) := copyContainer P local "local:c1" "other:c2" false [] in
  (∃ tried addr rest hk ek,
      ["10.0.0.1"; "10.0.0.2"] = tried ++ addr :: rest
      ∧ AllFail fails tried exampleSetup None hk ek
      ∧ succeeds addr hk h
      ∧ res = None)
  ∨ (AllFail fails ["10.0.0.1"; "10.0.0.2"] exampleSetup None h res
     ∧ ∀ tried addr, ["10.0.0.1"; "10.0.0.2"] = tried ++ [addr] →
         ∃ hk e, fails addr hk h e ∧ res = Some e).
Proof.
  apply (cross_remote_address_fallback
           (friendly ["10.0.0.1"; "10.0.0.2"] ["10.0.0.1"]) local
           "local:c1" "other:c2" false "local" "c1" "other" "c2"
           exampleStatus "" (exampleMigration ["10.0.0.1"; "10.0.0.2"])
           [NewClient "local"; ContainerStatus "local" "c1"] exampleSetup);
    [reflexivity | reflexivity | discriminate | discriminate | reflexivity
    | vm_compute; reflexivity | vm_compute; reflexivity].
Defined.

Lemma cross_remote_no_addresses_witness :
  copyContainer (friendly [] []) local "local:c1" "other:c2" false []
  = (exampleSetup, None)
  ∧ Forall (λ c, is_migrate_from c = false) exampleSetup
  ∧ exampleSetup
    = NewClient "local"
      :: (if IsSnapshot "c1" then [] else [ContainerStatus "local" "c1"])
      ++ [NewClient "other"; ListProfiles "other";
          GetMigrationSourceWS "local" "c1"; Addresses "local"].
Proof.
  apply (cross_remote_no_addresses (friendly [] []) local
           "local:c1" "other:c2" false "local" "c1" "other" "c2"
           exampleStatus "" (exampleMigration [])
           [NewClient "local"; ContainerStatus "local" "c1"] exampleSetup);
    [reflexivity | reflexivity | discriminate | discriminate | reflexivity
    | vm_compute; reflexivity | vm_compute; reflexivity | reflexivity].
Defined.

End CopyFacts.

(** ** Query parsing and the property merge *)

Module PropertyFacts.
Import Url Images.

Lemma parseSetting_decode (m : Values) (err : option error) (s : string) :
  (parseSetting (m, err) s).1
  = match decode s with
    | Some (k, v) => <[k := default [] (m !! k) ++ [v]]> m
    | None => m
    end.
Proof.
  unfold parseSetting, decode. destruct (decide (s = "")); [done |].
  destruct (cut_equals s) as [key value].
  destruct (QueryUnescape key); [done |].
  destruct (QueryUnescape value); done.
Qed.

Lemma foldl_parseSetting (k : string) (l : list string) :
  ∀ (m : Values) (err : option error),
    (foldl parseSetting (m, err) l).1 !! k
    = match values_for k l with
      | [] => m !! k
      | vs => Some (default [] (m !! k) ++ vs)
      end.
Proof.
  induction l as [| s l IH]; intros m err; [done |].
  cbn [foldl]. destruct (parseSetting (m, err) s) as [m1 err1] eqn:Hstep.
  rewrite IH. pose proof (parseSetting_decode m err s) as Hm.
  rewrite Hstep in Hm. cbn in Hm. subst m1.
  unfold values_for at 2. cbn [omap list_omap].
  fold (values_for k l).
  destruct (decode s) as [[k' v] |]; [| done].
  destruct (decide (k' = k)) as [-> | Hne].
  - rewrite lookup_insert_eq. cbn.
    destruct (values_for k l) as [| v' vs]; [done |].
    by rewrite <- app_assoc.
  - rewrite lookup_insert_ne by done. done.
Qed.

(** [url.Values] keeps, for every key, its values in the order written. *)
Lemma ParseQuery_lookup (q k : string) :
  (ParseQuery q).1 !! k
  = match values_for k (settings q) with [] => None | vs => Some vs end.
Proof.
  unfold ParseQuery. rewrite foldl_parseSetting. rewrite lookup_empty.
  by destruct (values_for k (settings q)).
Qed.

Lemma ParseQuery_nonempty (q k : string) (vs : list string) :
  (ParseQuery q).1 !! k = Some vs → vs ≠ [].
Proof.
  rewrite ParseQuery_lookup.
  destruct (values_for k (settings q)); [done |]. by intros [= <-].
Qed.

Lemma values_for_find (k : string) (l : list string) :
  head (values_for k l)
  = snd <$> List.find (λ kv, bool_decide (kv.1 = k)) (omap decode l).
Proof.
  induction l as [| s l IH]; [done |].
  unfold values_for. cbn [omap list_omap]. fold (values_for k l).
  destruct (decode s) as [[k' v] |]; [| done].
  cbn [List.find fst]. destruct (decide (k' = k)) as [-> | Hne].
  - by rewrite bool_decide_eq_true_2.
  - by rewrite bool_decide_eq_false_2.
Qed.

(** [pval[0]] is the first value written for the key. *)
Lemma first_of_ParseQuery (ph k : string) :
  (ParseQuery ph).1 !! k ≫= head = header_value ph k.
Proof.
  unfold header_value, pairs. rewrite <- values_for_find.
  rewrite ParseQuery_lookup.
  by destruct (values_for k (settings ph)).
Qed.

(** One header laid over a non-nil map. *)
Lemma mergeHeader_lookup (m : gmap string string) (ph : string) :
  ∃ m', mergeHeader (Returned (Some m)) ph = Returned (Some m')
        ∧ ∀ k, m' !! k = match header_value ph k with
                         | Some v => Some v
                         | None => m !! k
                         end.
Proof.
  unfold mergeHeader.
  destruct (ParseQuery ph) as [p err] eqn:Hp.
  assert (Hne : ∀ k vs, p !! k = Some vs → vs ≠ []).
  { intros k vs Hk. apply (ParseQuery_nonempty ph k). by rewrite Hp. }
  assert (Hhead : ∀ k, p !! k ≫= head = header_value ph k).
  { intros k. rewrite <- first_of_ParseQuery. by rewrite Hp. }
  clear Hp.
  assert (Hfold :
    ∃ m', map_fold (λ pkey pval acc, properties ← acc;
                                     assignProperty properties pkey pval)
                   (Returned (Some m)) p = Returned (Some m')
          ∧ ∀ k, m' !! k = match p !! k ≫= head with
                           | Some v => Some v
                           | None => m !! k
                           end).
  { clear Hhead. revert Hne.
    apply (map_fold_weak_ind
             (λ r (p : Values),
                (∀ k vs, p !! k = Some vs → vs ≠ []) →
                ∃ m', r = Returned (Some m')
                      ∧ ∀ k, m' !! k = match p !! k ≫= head with
                                       | Some v => Some v
                                       | None => m !! k
                                       end)).
    - intros _. exists m. split; [done |]. intros k. by rewrite lookup_empty.
    - intros i x p' r Hi IH Hne.
      destruct IH as (m1 & -> & Hm1).
      { intros k vs Hk. apply (Hne k).
        rewrite lookup_insert_ne; [done |]. intros ->. congruence. }
      destruct x as [| v x].
      { exfalso. apply (Hne i []); [| done]. by rewrite lookup_insert_eq. }
      cbn. eexists. split; [reflexivity |]. intros k.
      destruct (decide (i = k)) as [-> | Hik].
      + by rewrite !lookup_insert_eq.
      + rewrite !lookup_insert_ne by done. apply Hm1. }
  destruct Hfold as (m' & Hrun & Hm'). exists m'. split; [done |].
  intros k. rewrite Hm'. by rewrite Hhead.
Qed.

(** C4, as stated, fails: for a key written twice in one header the first
    value is kept, not the last. *)
Lemma repeated_key_keeps_first_value :
  mergeProperties (Some ∅) ["os=alpine&os=debian"]
  = Returned (Some {[ "os" := "alpine" ]}).
Proof. vm_compute. reflexivity. Qed.

(** C4, amended: the properties of [metadata.yaml] (when it carries a
    properties mapping) come first and the [X-LXD-properties] headers,
    parsed with the URL-query grammar, are laid over them; a key that
    several headers mention gets the value of the last such header, and a
    key written more than once within one header gets the first value
    written there. *)
Theorem properties_merge_order (metaProperties : gmap string string)
    (propHeaders : list string) :
  ∃ properties,
    mergeProperties (Some metaProperties) propHeaders
    = Returned (Some properties)
    ∧ ∀ k, properties !! k = match headers_value propHeaders k with
                             | Some v => Some v
                             | None => metaProperties !! k
                             end.
Proof.
  unfold mergeProperties. revert metaProperties.
  induction propHeaders as [| ph rest IH]; intros m.
  - exists m. by split.
  - cbn [foldl]. destruct (mergeHeader_lookup m ph) as (m1 & -> & Hm1).
    destruct (IH m1) as (m2 & Hrun & Hm2). exists m2. split; [done |].
    intros k. rewrite Hm2. cbn [headers_value].
    destruct (headers_value rest k); [done |]. apply Hm1.
Qed.

End PropertyFacts.

(** ** The image service *)

Module ImageFacts.
Import Sql Images Scenario.

(** *** Deleting *)

Lemma malformed_delete_is_rejected :
  parse "DELETE FROM images_properties WHERE image_id?" = None.
Proof. vm_compute. reflexivity. Qed.

Lemma Exec_other_table (tx : database) (q : string) (args : list value)
    (table other : string) (c : condition) :
  parse q = Some (Delete table c) → table ≠ other →
  (Exec tx q args).1 !! other = tx !! other.
Proof.
  intros Hq Hne. unfold Exec. rewrite Hq.
  destruct (decide _); [| done].
  destruct (tx !! table); [| done]. cbn. by rewrite lookup_insert_ne.
Qed.

Lemma os_Remove_db (d : Daemon) (p : string) : db (os_Remove d p).1 = db d.
Proof. unfold os_Remove. by repeat case_match. Qed.

Lemma LVMRemoveLV_db (d : Daemon) (vg lv : string) :
  db (LVMRemoveLV_ d vg lv).1 = db d.
Proof. unfold LVMRemoveLV_. by case_match. Qed.

Lemma btrfsDeleteSubvol_db (d : Daemon) (p : string) :
  db (btrfsDeleteSubvol d p) = db d.
Proof. unfold btrfsDeleteSubvol. by repeat case_match. Qed.

Lemma deleteRows_keeps_properties (tx : database) (id : Z) :
  deleteRows tx id !! "images_properties" = tx !! "images_properties".
Proof.
  unfold deleteRows.
  destruct (Exec tx _ _) as [t1 e1] eqn:E1.
  destruct (Exec t1 _ _) as [t2 e2] eqn:E2.
  destruct (Exec t2 _ _) as [t3 e3] eqn:E3.
  pose proof (Exec_other_table tx
                "DELETE FROM images_aliases WHERE image_id=?" [VInt id]
                "images_aliases" "images_properties"
                (Equals "image_id" Placeholder) eq_refl ltac:(done)) as X1.
  pose proof (Exec_other_table t2 "DELETE FROM images WHERE id=?" [VInt id]
                "images" "images_properties"
                (Equals "id" Placeholder) eq_refl ltac:(done)) as X3.
  rewrite E1 in X1. rewrite E3 in X3. cbn in X1, X3.
  unfold Exec in E2. rewrite malformed_delete_is_rejected in E2.
  injection E2 as <- <-. by rewrite X3, X1.
Qed.

(** No run of [imageDelete] changes [images_properties]. *)
Lemma imageDelete_keeps_properties (d : Daemon) (r : Request) :
  db (imageDelete d r).1 !! "images_properties" = db d !! "images_properties".
Proof.
  unfold imageDelete.
  destruct (dbImageGet (db d) (fingerprintVar r) false) as [e | imgInfo];
    [done |].
  destruct (os_Remove d _) as [d1 e1] eqn:H1.
  assert (Hd1 : db d1 = db d).
  { pose proof (os_Remove_db d (VarPath ["images"; BaseFingerprint imgInfo])) as H.
    by rewrite H1 in H. }
  set (d2 := if PathExists d1 _ then _ else d1).
  assert (Hd2 : db d2 = db d).
  { subst d2. destruct (PathExists d1 _); [| done].
    by rewrite os_Remove_db. }
  clearbody d2. unfold getServerConfigValue.
  destruct (serverConfig d2 !! "core.lvm_vg_name") as [vgname |].
  - pose proof (LVMRemoveLV_db d2 vgname (BaseFingerprint imgInfo)) as H.
    destruct (LVMRemoveLV_ d2 vgname _) as [d3 [e3 |]]; cbn in H.
    + cbn. by rewrite H, Hd2.
    + pose proof (os_Remove_db d3
                    (VarPath ["images"; BaseFingerprint imgInfo] +:+ ".lv"))
        as H'.
      destruct (os_Remove d3 _) as [d4 [e4 |]]; cbn in H'; cbn.
      * by rewrite H', H, Hd2.
      * by rewrite deleteRows_keeps_properties, H', H, Hd2.
  - destruct (decide (BackingFs d2 = "btrfs")); cbn;
      rewrite deleteRows_keeps_properties, ?btrfsDeleteSubvol_db;
      by rewrite Hd2.
Qed.

(** C2: the code misses the claim by a slip.  Deleting the stored image
    succeeds and removes the image row, its alias and its content file,
    but the property row of the image is still there: the second DELETE
    statement lacks its [=], is rejected by the database, and its error is
    discarded. *)
Theorem imageDelete_leaves_property_rows :
  let '(d, response) := imageDelete (daemon "ext4") (request true "1f8b" "") in
  response = EmptySyncResponse
  ∧ db d !! "images" = Some []
  ∧ db d !! "images_aliases" = Some []
  ∧ fs d !! "/var/lib/lxd/images/1f8b" = None
  ∧ db d !! "images_properties" = Some [alpine_os]
  ∧ alpine_os !! "image_id" = Some (VInt 1).
Proof. vm_compute. repeat split; reflexivity. Qed.

(** *** Reading *)

(** Every alias the loop adds has the first column of its row as name and
    as description; the second column is never read. *)
Lemma scanAliases_spec (results : list (list value)) :
  ∀ acc aliases,
    scanAliases results acc = Returned aliases →
    ∃ new, aliases = acc ++ new
           ∧ Forall2 (λ (row : list value) a,
                        row !! 0 = Some (VText (Name a))
                        ∧ Description a = Name a)
                     results new.
Proof.
  induction results as [| r rest IH]; intros acc aliases Hrun.
  - cbn in Hrun. injection Hrun as <-. exists []. split; [| constructor].
    by rewrite app_nil_r.
  - cbn in Hrun. unfold column_string in Hrun.
    destruct (r !! 0) as [[z | name] |] eqn:Hr; try done. cbn in Hrun.
    destruct (IH _ _ Hrun) as (new & -> & Hnew).
    exists ({| Name := name; Description := name |} :: new).
    split; [by rewrite <- app_assoc |]. by constructor.
Qed.

Lemma scanAliases_same (results : list (list value)) (aliases : list ImageAlias) :
  scanAliases results [] = Returned aliases →
  Forall (λ a, Description a = Name a) aliases.
Proof.
  intros Hrun. destruct (scanAliases_spec _ _ _ Hrun) as (new & -> & Hnew).
  cbn. clear Hrun. induction Hnew as [| ? ? ? ? [_ ?] _ IH]; by constructor.
Qed.

Lemma doImageGet_inv (d : Daemon) (fingerprint : string) (public : bool)
    (info : ImageInfo) :
  doImageGet d fingerprint public = Returned (info, None) →
  ∃ base results,
    dbImageGet (db d) fingerprint public = inr base
    ∧ Fingerprint info = BaseFingerprint base
    ∧ Public info = BasePublic base
    ∧ dbQueryScan (db d)
        "SELECT name, description FROM images_aliases WHERE image_id=?"
        [VInt (Id base)] = (results, None)
    ∧ scanAliases results [] = Returned (Aliases info).
Proof.
  unfold doImageGet. intros Hrun.
  destruct (dbImageGet (db d) fingerprint public) as [e | base]; [done |].
  destruct (dbQueryScan (db d) _ _) as [props [e |]]; [done |].
  destruct (scanProperties props ∅) as [properties | msg]; [| done].
  cbn in Hrun.
  destruct (dbQueryScan (db d) _ _) as [results [e |]] eqn:Hq; [done |].
  destruct (scanAliases results []) as [aliases | msg] eqn:Hs; [| done].
  cbn in Hrun. injection Hrun as <-. exists base, results. by cbn.
Qed.

(** A response of [doImageGet] is an error. *)
Lemma doImageGet_response (d : Daemon) (fingerprint : string) (public : bool)
    (info : ImageInfo) (response : Response) :
  doImageGet d fingerprint public = Returned (info, Some response) →
  ∃ e, response = SmartError e ∨ response = InternalError e.
Proof.
  unfold doImageGet. intros Hrun.
  destruct (dbImageGet (db d) fingerprint public) as [e | base].
  { injection Hrun as <- <-. eauto. }
  destruct (dbQueryScan (db d) _ _) as [props [e |]].
  { injection Hrun as <- <-. eauto. }
  destruct (scanProperties props ∅) as [properties | msg]; [| done].
  cbn in Hrun.
  destruct (dbQueryScan (db d) _ _) as [results [e |]].
  { injection Hrun as <- <-. eauto. }
  destruct (scanAliases results []) as [aliases | msg]; [| done].
  cbn in Hrun. done.
Qed.

Lemma listImages_Forall (Q : ImageInfo → Prop) (d : Daemon) (public : bool) :
  (∀ name info, doImageGet d name public = Returned (info, None) → Q info) →
  ∀ results resultString resultMap urls infos,
    listImages d true public results resultString resultMap
    = Returned (urls, infos) →
    Forall Q resultMap → Forall Q infos.
Proof.
  intros HQ. induction results as [| r rest IH];
    intros resultString resultMap urls infos Hrun Hacc.
  - cbn in Hrun. by injection Hrun as <- <-.
  - cbn in Hrun. destruct (column_string r 0) as [name | msg]; [| done].
    cbn in Hrun.
    destruct (doImageGet d name public) as [[image [response |]] | msg] eqn:Hget;
      [| | done]; cbn in Hrun.
    + by apply (IH _ _ _ _ Hrun).
    + apply (IH _ _ _ _ Hrun). apply Forall_app. split; [done |].
      repeat constructor. by apply (HQ name).
Qed.

(** C9: in every image record returned by GET /images/{fp} and by the
    recursive listing, each alias entry's description equals its name, and
    the names are those of the first column of the alias query: the
    description column is never read. *)
Theorem alias_description_is_name (d : Daemon) (r : Request) :
  (∀ info, imageGet d r = Returned (SyncResponse true (Record_ info)) →
     Forall (λ a, Description a = Name a) (Aliases info)
     ∧ ∃ base results,
         dbQueryScan (db d)
           "SELECT name, description FROM images_aliases WHERE image_id=?"
           [VInt (Id base)] = (results, None)
         ∧ Forall2 (λ (row : list value) a,
                      row !! 0 = Some (VText (Name a))
                      ∧ Description a = Name a)
                   results (Aliases info))
  ∧ (∀ infos, imagesGet d r = Returned (SyncResponse true (Records infos)) →
       Forall (λ info, Forall (λ a, Description a = Name a) (Aliases info))
              infos).
Proof.
  split.
  - intros info Hrun. unfold imageGet in Hrun.
    destruct (doImageGet d _ _) as [[info' [response |]] | msg] eqn:Hget;
      cbn in Hrun; try done.
    { destruct (doImageGet_response _ _ _ _ _ Hget) as [e [-> | ->]]; done. }
    injection Hrun as ->.
    destruct (doImageGet_inv _ _ _ _ Hget)
      as (base & results & _ & _ & _ & Hq & Hs).
    split; [by apply (scanAliases_same results) |].
    exists base, results. split; [done |].
    by destruct (scanAliases_spec _ _ _ Hs) as (new & -> & Hnew).
  - intros infos Hrun. unfold imagesGet, doImagesGet in Hrun.
    destruct (dbQueryScan (db d) _ _) as [results [e |]]; cbn in Hrun.
    { done. }
    destruct (listImages d (recursion r) (negb (trusted r)) results [] [])
      as [[urls infos'] | msg] eqn:Hlist; cbn in Hrun; [| done].
    destruct (recursion r); cbn in Hrun; [| done].
    injection Hrun as ->.
    apply (listImages_Forall _ d (negb (trusted r))) with (results := results)
      (resultString := []) (resultMap := []) (urls := urls); [| done | done].
    intros name info Hget.
    destruct (doImageGet_inv _ _ _ _ Hget) as (? & ? & _ & _ & _ & _ & Hs).
    by apply (scanAliases_same _ _ Hs).
Qed.

Lemma alias_description_is_name_witness :
  alpine_alias !! "description" = Some (VText "Alpine Linux")
  ∧ Forall (λ a, Description a = Name a) (Aliases alpine_record).
Proof.
  split; [reflexivity |].
  apply (proj1 (alias_description_is_name (daemon "ext4")
                  (request true "1f8b" "")) alpine_record).
  vm_compute. reflexivity.
Defined.

(** *** Visibility *)

Lemma dbImageGet_inv (db : database) (fp : string) (public : bool)
    (base : ImageBaseInfo) :
  dbImageGet db fp public = inr base →
  ∃ r : row, r ∈ image_rows db
             ∧ r !! "fingerprint" = Some (VText fp)
             ∧ (public = true → r !! "public" = Some (VInt 1))
             ∧ base = image_of_row r.
Proof.
  unfold dbImageGet. intros Hget.
  destruct (List.find _ (image_rows db)) as [r |] eqn:Hfind; [| done].
  injection Hget as <-. apply find_some in Hfind as [Hin Hr].
  apply andb_prop in Hr as [Hfp Hpub]. apply bool_decide_eq_true in Hfp.
  exists r. split; [by apply list_elem_of_In |]. split; [done |].
  split; [| done]. intros ->. cbn in Hpub. by apply bool_decide_eq_true in Hpub.
Qed.

Lemma image_of_public_row (r : row) (fp : string) :
  r !! "fingerprint" = Some (VText fp) →
  BaseFingerprint (image_of_row r) = fp
  ∧ (r !! "public" = Some (VInt 1) → BasePublic (image_of_row r) = 1%Z).
Proof.
  intros Hfp. unfold image_of_row, text_of, int_of. cbn. rewrite Hfp.
  split; [done |]. by intros ->.
Qed.

(** The secret is valid exactly when some registered operation names the
    image and carries the secret. *)
Lemma imageValidSecret_iff (d : Daemon) (fp secret : string) :
  imageValidSecret d fp secret = true ↔ secret_matches d fp secret.
Proof.
  unfold imageValidSecret, secret_matches. rewrite existsb_exists. split.
  - intros ([id op] & Hin & Hgrant).
    apply list_elem_of_In, elem_of_map_to_list in Hin.
    unfold grants in Hgrant. cbn in Hgrant.
    destruct (Resources op) as [resources |] eqn:Hres; [| done].
    destruct (resources !! "images") as [opImages |] eqn:Himg; [| done].
    apply andb_prop in Hgrant as [Hnames Hsecret].
    apply bool_decide_eq_true in Hsecret.
    unfold names_image in Hnames. apply existsb_exists in Hnames
      as (img & Himgin & Hscan).
    destruct (Sscanf_images (slashes_to_spaces img)) as [[version f] |] eqn:Hs;
      [| done].
    apply bool_decide_eq_true in Hscan as ->.
    exists id, op, resources, opImages, img, version.
    repeat split; try done. by apply list_elem_of_In.
  - intros (id & op & resources & opImages & img & version
            & Hop & Hres & Himg & Hin & Hscan & Hsecret).
    exists (id, op). split.
    { apply list_elem_of_In. by apply elem_of_map_to_list. }
    unfold grants. cbn. rewrite Hres, Himg.
    apply andb_true_intro. split; [| by apply bool_decide_eq_true].
    unfold names_image. apply existsb_exists. exists img.
    split; [by apply list_elem_of_In |]. rewrite Hscan.
    by apply bool_decide_eq_true.
Qed.

(** What a public read of one image shows. *)
Lemma doImageGet_public (d : Daemon) (name : string) (info : ImageInfo) :
  doImageGet d name true = Returned (info, None) →
  Fingerprint info = name ∧ Public info = 1%Z ∧ public_image d name.
Proof.
  intros Hget.
  destruct (doImageGet_inv _ _ _ _ Hget)
    as (base & results & Hbase & Hfp & Hpub & _ & _).
  destruct (dbImageGet_inv _ _ _ _ Hbase) as (r & Hin & Hr & Hp & ->).
  destruct (image_of_public_row r name Hr) as [Hf Hq].
  split; [congruence |]. split; [rewrite Hpub; auto |].
  exists r. auto.
Qed.

(** The rows the public listing selects. *)
Lemma public_listing (d : Daemon) (results : list (list value)) :
  dbQueryScan (db d) "SELECT fingerprint FROM images WHERE public=1" []
  = (results, None) →
  Forall (λ res : list value,
            ∀ name, column_string res 0 = Returned name → public_image d name)
         results.
Proof.
  unfold dbQueryScan.
  replace (parse "SELECT fingerprint FROM images WHERE public=1")
    with (Some (Select ["fingerprint"] "images"
                  (Equals "public" (Literal (VInt 1)))))
    by (vm_compute; reflexivity).
  cbn [placeholders length]. destruct (decide (0 = 0)) as [_ | ?]; [| done].
  destruct (db d !! "images") as [rows |] eqn:Hrows; [| done].
  destruct (mapM _ _) as [selected |] eqn:Hsel; [| done].
  intros [= <-]. apply mapM_Some in Hsel.
  assert (Hall : Forall (λ r : row, r ∈ rows ∧ r !! "public" = Some (VInt 1))
                   (filter (λ r, holds (Equals "public" (Literal (VInt 1)))
                                       [] r = true) rows)).
  { apply Forall_forall. intros r Hr. apply list_elem_of_filter in Hr as [Hh Hr].
    split; [done |]. cbn in Hh. by apply bool_decide_eq_true in Hh. }
  revert Hall. induction Hsel as [| r res rs ress Hproj _ IH];
    intros Hall; [constructor |].
  inversion Hall as [| ? ? [Hin Hpub] Hrest]; subst.
  constructor; [| by apply IH].
  intros name Hname. unfold project in Hproj. cbn in Hproj.
  destruct (r !! "fingerprint") as [v |] eqn:Hv; [| done].
  cbn in Hproj. injection Hproj as <-.
  unfold column_string in Hname. cbn in Hname. destruct v; [done |].
  injection Hname as ->. exists r. unfold image_rows. rewrite Hrows. auto.
Qed.

Lemma listImages_urls (Q : string → Prop) (d : Daemon) (public : bool) :
  ∀ results resultString resultMap urls infos,
    Forall (λ res : list value,
              ∀ name, column_string res 0 = Returned name → Q name) results →
    listImages d false public results resultString resultMap
    = Returned (urls, infos) →
    Forall (λ url, ∃ fp, url = "/" +:+ APIVersion +:+ "/images/" +:+ fp ∧ Q fp)
           resultString →
    Forall (λ url, ∃ fp, url = "/" +:+ APIVersion +:+ "/images/" +:+ fp ∧ Q fp)
           urls.
Proof.
  induction results as [| r rest IH];
    intros resultString resultMap urls infos HQ Hrun Hacc.
  - cbn in Hrun. by injection Hrun as <- <-.
  - inversion HQ as [| ? ? Hr Hrest]; subst.
    cbn in Hrun. destruct (column_string r 0) as [name | msg]; [| done].
    cbn in Hrun. apply (IH _ _ _ _ Hrest Hrun).
    apply Forall_app. split; [done |]. repeat constructor.
    exists name. split; [done |]. by apply Hr.
Qed.

(** C3: for a request of an untrusted client, the listing shows only
    images whose public flag is 1; a fetch or an export succeeds only for
    an image whose public flag is 1 or when the secret of the request is
    the one of a registered operation that names the requested fingerprint
    among its image resources; and with such a secret the fetch and the
    export answer as they do for a trusted client. *)
Theorem public_visibility (d : Daemon) (r : Request) :
  trusted r = false →
  (∀ urls, imagesGet d r = Returned (SyncResponse true (Urls urls)) →
     Forall (λ url, ∃ fp, url = "/" +:+ APIVersion +:+ "/images/" +:+ fp
                          ∧ public_image d fp) urls)
  ∧ (∀ infos, imagesGet d r = Returned (SyncResponse true (Records infos)) →
       Forall (λ info, Public info = 1%Z ∧ public_image d (Fingerprint info))
              infos)
  ∧ (∀ info, imageGet d r = Returned (SyncResponse true (Record_ info)) →
       Fingerprint info = fingerprintVar r
       ∧ (public_image d (fingerprintVar r)
          ∨ secret_matches d (fingerprintVar r) (secretValue r)))
  ∧ (∀ files, imageExport d r = Returned (FileResponse files) →
       public_image d (fingerprintVar r)
       ∨ secret_matches d (fingerprintVar r) (secretValue r))
  ∧ (secret_matches d (fingerprintVar r) (secretValue r) →
     imageGet d r = imageGet d (as_trusted r)
     ∧ imageExport d r = imageExport d (as_trusted r)).
Proof.
  intros Huntrusted. repeat split.
  - intros urls Hrun. unfold imagesGet, doImagesGet in Hrun.
    rewrite Huntrusted in Hrun. cbn [negb] in Hrun.
    destruct (dbQueryScan (db d) _ _) as [results [e |]] eqn:Hq;
      cbn in Hrun; [done |].
    destruct (listImages d (recursion r) true results [] [])
      as [[urls' infos] | msg] eqn:Hlist; cbn in Hrun; [| done].
    destruct (recursion r); cbn in Hrun; [done |].
    injection Hrun as ->.
    apply (listImages_urls _ d true results [] [] urls infos); [| done | done].
    by apply public_listing.
  - intros infos Hrun. unfold imagesGet, doImagesGet in Hrun.
    rewrite Huntrusted in Hrun. cbn [negb] in Hrun.
    destruct (dbQueryScan (db d) _ _) as [results [e |]] eqn:Hq;
      cbn in Hrun; [done |].
    destruct (listImages d (recursion r) true results [] [])
      as [[urls infos'] | msg] eqn:Hlist; cbn in Hrun; [| done].
    destruct (recursion r); cbn in Hrun; [| done].
    injection Hrun as ->.
    apply (listImages_Forall _ d true) with (results := results)
      (resultString := []) (resultMap := []) (urls := urls); [| done | done].
    intros name info Hget.
    destruct (doImageGet_public _ _ _ Hget) as (-> & ? & ?). done.
  - unfold imageGet in H. rewrite Huntrusted in H. cbn [negb andb] in H.
    destruct (imageValidSecret d _ _) eqn:Hsecret;
      destruct (doImageGet d _ _) as [[info' [response |]] | msg] eqn:Hget;
      cbn in H; try done.
    + destruct (doImageGet_response _ _ _ _ _ Hget) as [e [-> | ->]]; done.
    + injection H as ->.
      destruct (doImageGet_inv _ _ _ _ Hget) as (base & ? & Hbase & Hfp & _).
      destruct (dbImageGet_inv _ _ _ _ Hbase) as (row & _ & Hr & _ & ->).
      rewrite Hfp. by apply image_of_public_row.
    + destruct (doImageGet_response _ _ _ _ _ Hget) as [e [-> | ->]]; done.
    + injection H as ->. by apply doImageGet_public in Hget as (? & _).
  - unfold imageGet in H. rewrite Huntrusted in H. cbn [negb andb] in H.
    destruct (imageValidSecret d _ _) eqn:Hsecret.
    + right. by apply imageValidSecret_iff.
    + left. destruct (doImageGet d _ _) as [[info' [response |]] | msg] eqn:Hget;
        cbn in H; try done.
      * destruct (doImageGet_response _ _ _ _ _ Hget) as [e [-> | ->]]; done.
      * by apply doImageGet_public in Hget as (_ & _ & ?).
  - intros files Hrun. unfold imageExport in Hrun.
    rewrite Huntrusted in Hrun. cbn [negb andb] in Hrun.
    destruct (imageValidSecret d _ _) eqn:Hsecret.
    + right. by apply imageValidSecret_iff.
    + left.
      destruct (dbImageGet (db d) (fingerprintVar r) true) as [e | base] eqn:Hbase;
        [done |].
      destruct (dbImageGet_inv _ _ _ _ Hbase) as (row & Hin & Hr & Hp & _).
      exists row. auto.
  - apply imageValidSecret_iff in H. unfold imageGet.
    rewrite Huntrusted. cbn [negb andb as_trusted trusted fingerprintVar
                               secretValue]. by rewrite H.
  - apply imageValidSecret_iff in H. unfold imageExport.
    rewrite Huntrusted. cbn [negb andb as_trusted trusted fingerprintVar
                               secretValue]. by rewrite H.
Qed.

Lemma public_visibility_witness :
  trusted (request false "1f8b" "s3cret") = false
  ∧ Fingerprint alpine_record = "1f8b"
  ∧ (public_image (daemon "ext4") "1f8b"
     ∨ secret_matches (daemon "ext4") "1f8b" "s3cret").
Proof.
  split; [reflexivity |].
  destruct (public_visibility (daemon "ext4") (request false "1f8b" "s3cret")
              eq_refl) as (_ & _ & Hfetch & _).
  apply (Hfetch alpine_record). vm_compute. reflexivity.
Defined.

(** Without the secret the private image is not shown to an untrusted
    client. *)
Lemma private_image_is_hidden :
  imageGet (daemon "ext4") (request false "1f8b" "")
  = Returned (SmartError NoSuchObject)
  ∧ imagesGet (daemon "ext4") (request false "" "")
    = Returned (SyncResponse true (Records [])).
Proof. split; vm_compute; reflexivity. Qed.

(** *** Ingestion *)

(** C1: the pipeline misses what the inline variant does.  Uploading again
    the tarball of the stored image to a daemon on btrfs passes the
    fingerprint validation, then creates a subvolume and unpacks the
    tarball into it, and only then fails, on the unique index of the
    INSERT; nothing checks for the fingerprint before the sidecar is
    built. *)
Theorem duplicate_upload_builds_sidecar :
  let '(d, response) := imagesPost tools (daemon "btrfs") (upload [x1f; x8b]) in
  sha256 tools [x1f; x8b] = "1f8b"
  ∧ response = Returned (SmartError uniqueViolation)
  ∧ worklog d
    = [BtrfsMakeSubvol "/var/lib/lxd/images/lxd_build_0/1f8b.btrfs";
       Untar "/var/lib/lxd/images/lxd_build_0/1f8b"
             "/var/lib/lxd/images/lxd_build_0/1f8b.btrfs";
       BtrfsDeleteSubvol "/var/lib/lxd/images/lxd_build_0/1f8b.btrfs";
       BtrfsDeleteSubvol "/var/lib/lxd/images/lxd_build_0/1f8b"]
  ∧ existsb builds_sidecar (worklog d) = true.
Proof. vm_compute. repeat split; reflexivity. Qed.

(** The inline variant on the same upload: the check for the content file
    comes right after the fingerprint validation and ends the request
    before any work on the backend. *)
Lemma inline_rejects_duplicate_first :
  let '(d, response) :=
    Inline.imagesPost tools (inr "btrfs") None (daemon "btrfs")
      (upload [x1f; x8b]) in
  response = SmartError Inline.alreadyExists ∧ worklog d = [].
Proof. vm_compute. split; reflexivity. Qed.

(** In both variants a wrong [X-LXD-fingerprint] is reported before the
    duplicate is. *)
Lemma fingerprint_is_validated_first :
  let r := {| trusted := true; recursion := false; fingerprintVar := "";
              secretValue := "";
              Header := {[ "X-Lxd-Fingerprint" := ["0000"] ]};
              Body := [x1f; x8b] |} in
  (imagesPost tools (daemon "btrfs") r).2
  = Returned (SmartError fingerprintMismatch)
  ∧ existsb builds_sidecar (worklog (imagesPost tools (daemon "btrfs") r).1)
    = false
  ∧ (Inline.imagesPost tools (inr "btrfs") None (daemon "btrfs") r).2
    = SmartError fingerprintMismatch.
Proof. vm_compute. repeat split; reflexivity. Qed.

End ImageFacts.

(** * Further properties *)

(** ** The sniffer and the unpacking built on it *)

Module SnifferMore.
Import Sniffer Images.

(** X1: whatever the file, [detectCompression] either fails with the
    single empty argument and no extension, or succeeds with one of five
    matching pairs of tar options and extension. *)
Theorem detectCompression_result_shape (fs : filesystem) (fname : string) :
  (failure (detectCompression fs fname) ≠ None
   ∧ extractArgs (detectCompression fs fname) = [""]
   ∧ extension (detectCompression fs fname) = "")
  ∨ (failure (detectCompression fs fname) = None
     ∧ (extractArgs (detectCompression fs fname),
        extension (detectCompression fs fname))
       ∈ [ (["--jxf"], ".tar.bz2"); (["-zxf"], ".tar.gz");
           (["-Jxf"], ".tar.xz"); (["--lzma"; "-xf"], ".tar.lzma");
           (["-xf"], ".tar") ]).
Proof.
  unfold detectCompression.
  destruct (fs !! fname) as [[f | | |] |]; try (left; by cbn).
  destruct (Read f (make_bytes 263)) as [[header n] [e |]]; [left; by cbn |].
  unfold classify. repeat case_match; cbn;
    first [ left; by repeat split
          | right; split; [done |]; set_solver ].
Qed.

(** X2: the two-byte magics decide alone: a file that starts [42 5A] is
    bzip2 and one that starts [1F 8B] is gzip, however short it is and
    whatever follows, a [ustar] mark at offset 257 included. *)
Theorem leading_magic_decides (fs : filesystem) (fname : string)
    (b0 b1 : byte) (tail : list byte) :
  fs !! fname = Some (File (b0 :: b1 :: tail)) →
  (b0 = x42 → b1 = x5a →
   detectCompression fs fname = (["--jxf"], ".tar.bz2", None))
  ∧ (b0 = x1f → b1 = x8b →
     detectCompression fs fname = (["-zxf"], ".tar.gz", None)).
Proof.
  intros Hf.
  split; intros -> ->; rewrite (SnifferFacts.detectCompression_file _ _ _ Hf)
    by done; reflexivity.
Qed.

Lemma leading_magic_decides_witness :
  detectCompression
    {[ "img" := File (x1f :: x8b :: make_bytes 255
                      ++ [x75; x73; x74; x61; x72; x00]) ]} "img"
  = (["-zxf"], ".tar.gz", None).
Proof.
  apply (leading_magic_decides _ "img" x1f x8b
           (make_bytes 255 ++ [x75; x73; x74; x61; x72; x00]));
    reflexivity.
Defined.

(** X3: on a regular file that is not empty the two variants of
    [detectCompression] agree: the same error, the same extension, and, on
    success, the tar options the inline callers derive from the code are
    the ones the pipeline variant returns.  On an empty file they differ:
    the pipeline variant reports the end of file, the inline one an
    unsupported compression. *)
Theorem sniffer_variants_agree (fs : filesystem) (fname : string) (f : file) :
  fs !! fname = Some (File f) →
  (f ≠ [] →
   failure (detectCompression fs fname)
   = (Inline.detectCompression fs fname).2
   ∧ extension (detectCompression fs fname)
     = (Inline.detectCompression fs fname).1.2
   ∧ (failure (detectCompression fs fname) = None →
      Inline.tarArgs (Inline.detectCompression fs fname).1.1
      = extractArgs (detectCompression fs fname)))
  ∧ (f = [] →
     failure (detectCompression fs fname) = Some EOF
     ∧ (Inline.detectCompression fs fname).2 = Some unsupported).
Proof.
  intros Hf. split.
  - intros Hne. unfold detectCompression, Inline.detectCompression.
    rewrite Hf. rewrite SnifferFacts.Read_nonempty by done. cbn [fst snd].
    unfold classify. repeat case_match; cbn; repeat split; done.
  - intros ->. unfold detectCompression, Inline.detectCompression.
    rewrite Hf. split; reflexivity.
Qed.

Lemma sniffer_variants_agree_witness :
  Inline.tarArgs
    (Inline.detectCompression {[ "img" := File [x42; x5a; x68] ]} "img").1.1
  = extractArgs (detectCompression {[ "img" := File [x42; x5a; x68] ]} "img").
Proof.
  apply (sniffer_variants_agree {[ "img" := File [x42; x5a; x68] ]} "img"
           [x42; x5a; x68]); [reflexivity | discriminate | reflexivity].
Defined.

End SnifferMore.

(** ** The copy command *)

Module CopyMore.
Import Copy CopyCmd Scenario.

Lemma stripVolatile_lookup (config : gmap string string) (k : string) :
  stripVolatile config !! k
  = if HasPrefix k "volatile" then None else config !! k.
Proof.
  unfold stripVolatile. destruct (HasPrefix k "volatile") eqn:Hk.
  - apply map_lookup_filter_None. right. intros v _. cbn [fst].
    by rewrite Hk.
  - destruct (config !! k) as [v |] eqn:Hv.
    + apply map_lookup_filter_Some. by split.
    + apply map_lookup_filter_None. by left.
Qed.

Section Facts.
Context (P : Peers) (config : ClientConfig).

Lemma readSource_withheld sourceRemote sourceName h h' status baseImage :
  readSource P sourceRemote sourceName false h = (h', inr (status, baseImage)) →
  withheld (Config status).
Proof.
  unfold readSource. destruct (IsSnapshot sourceName); cbn.
  - intros [= _ <- _]. intros k [v Hv]. unfold emptyState in Hv. cbn in Hv.
    by rewrite lookup_empty in Hv.
  - unfold mbind, Prog_bind, bind, try_.
    destruct (container_status P h sourceRemote sourceName) as [e | st];
      [done |].
    cbn. intros [= _ <- _]. cbn. intros k [v Hv].
    rewrite stripVolatile_lookup in Hv.
    by destruct (HasPrefix k "volatile").
Qed.

(** What the source's base image is read from: the configuration as the
    daemon reported it, before anything is stripped. *)
Lemma readSource_baseImage sourceRemote sourceName keepVolatile h h' status
    baseImage st :
  IsSnapshot sourceName = false →
  container_status P h sourceRemote sourceName = inr st →
  readSource P sourceRemote sourceName keepVolatile h
  = (h', inr (status, baseImage)) →
  baseImage = default "" (Config st !! "volatile.base_image")
  ∧ Profiles status = Profiles st.
Proof.
  intros Hsnap Hst. unfold readSource. rewrite Hsnap. cbn.
  unfold mbind, Prog_bind, bind, try_. rewrite Hst.
  destruct keepVolatile; cbn; by intros [= _ <- <-].
Qed.

Lemma migrateLoop_calls (Q : call → Prop) destRemote destName status baseImage
    m :
  (∀ url, Q (MigrateFrom destRemote destName url (secrets m) (Config status)
               (Profiles status) baseImage)) →
  (∀ op, Q (WaitForSuccess destRemote op)) →
  ∀ remaining err h h' res,
    migrateLoop P destRemote destName status baseImage m remaining err h
    = (h', res) →
    Forall Q h → Forall Q h'.
Proof.
  intros Hm Hw remaining. induction remaining as [| addr rest IH];
    intros err h h' res Hrun Hh.
  - cbn in Hrun. by injection Hrun as <- <-.
  - cbn [migrateLoop] in Hrun.
    destruct (attempt P destRemote destName status baseImage m addr h)
      as [h1 r1] eqn:Hatt.
    assert (Hh1 : Forall Q h1).
    { unfold attempt in Hatt.
      destruct (migrate_from P h destRemote destName _ _ _ _ _).
      - injection Hatt as <- <-. apply Forall_app. split; [done |].
        by repeat constructor.
      - injection Hatt as <- <-. rewrite !Forall_app. split; [split |]; try done;
          by repeat constructor. }
    destruct r1 as [e |].
    + by apply (IH _ _ _ _ Hrun).
    + by injection Hrun as <- <-.
Qed.

Lemma plain_call (c : call) : config_of c = None → forwards_no_volatile c.
Proof. intros Hc cfg Hcfg. by rewrite Hc in Hcfg. Qed.

(** Negotiating sends nothing that carries a configuration. *)
Lemma negotiate_plain sourceRemote sourceName destRemote status h h' r :
  negotiate P sourceRemote sourceName destRemote status h = (h', r) →
  ∃ l, h' = h ++ l ∧ Forall (λ c, config_of c = None) l.
Proof.
  unfold negotiate, mbind, Prog_bind, bind, try_.
  destruct (new_client P h destRemote).
  { intros [= <- _]. eexists [_]. split; [done |]. by repeat constructor. }
  destruct (list_profiles P _ destRemote).
  { intros [= <- _]. eexists [_; _]. split; [by rewrite <- app_assoc |].
    by repeat constructor. }
  destruct (IsSubset _ _); cbn.
  2: { intros [= <- _]. eexists [_; _]. split; [by rewrite <- app_assoc |].
       by repeat constructor. }
  destruct (get_migration_source_ws P _ sourceRemote sourceName).
  { intros [= <- _]. eexists [_; _; _]. split; [by rewrite <- !app_assoc |].
    by repeat constructor. }
  destruct (json_Unmarshal P _).
  { intros [= <- _]. eexists [_; _; _]. split; [by rewrite <- !app_assoc |].
    by repeat constructor. }
  destruct (addresses P _ sourceRemote); cbn.
  { intros [= <- _]. eexists [_; _; _; _]. split; [by rewrite <- !app_assoc |].
    by repeat constructor. }
  intros [= <- _]. eexists [_; _; _; _]. split; [by rewrite <- !app_assoc |].
  by repeat constructor.
Qed.

Ltac calls :=
  repeat first [ done | apply Forall_app_2 | apply Forall_nil_2
               | apply Forall_cons_2 | (apply plain_call; reflexivity) ].

(** X4: [lxc copy] never forwards a volatile key: whatever the daemons
    answer and however the copy ends, no local-copy or migration request it
    sent carries a configuration key that begins with [volatile]. *)
Theorem run_withholds_volatile (args : list string) :
  Forall forwards_no_volatile (run P config args []).1.
Proof.
  unfold run. destruct args as [| source [| dest [| ? ?]]]; try by constructor.
  unfold copyContainer.
  destruct (ParseRemoteAndContainer config source) as [sourceRemote sourceName].
  destruct (ParseRemoteAndContainer config dest) as [destRemote destName].
  destruct (decide (sourceName = "")); [by constructor |].
  unfold mbind, Prog_bind, bind, try_. cbn [app].
  destruct (new_client P [] sourceRemote); [cbn; calls |].
  destruct (readSource P sourceRemote sourceName false [NewClient sourceRemote])
    as [h1 [r | [status baseImage]]] eqn:Hread.
  { cbn. apply CopyFacts.readSource_log in Hread as ->.
    destruct (IsSnapshot sourceName); calls. }
  pose proof (readSource_withheld _ _ _ _ _ _ Hread) as Hw.
  assert (Hh1 : Forall forwards_no_volatile h1).
  { apply CopyFacts.readSource_log in Hread as ->.
    destruct (IsSnapshot sourceName); calls. }
  assert (Hmine : ∀ c, config_of c = Some (Config status) →
                       forwards_no_volatile c).
  { intros c Hc cfg Hcfg. rewrite Hc in Hcfg. by injection Hcfg as <-. }
  destruct (decide (sourceRemote = destRemote)).
  - destruct (decide (sourceName = _)); [by cbn |].
    unfold mbind, Prog_bind, bind, try_.
    destruct (local_copy P h1 _ _ _ _ _); cbn; calls;
      by apply Hmine.
  - destruct (negotiate P sourceRemote sourceName destRemote status h1)
      as [h0 [r | m]] eqn:Hneg.
    + cbn. destruct (negotiate_plain _ _ _ _ _ _ _ Hneg) as (l & -> & Hl).
      calls. eapply Forall_impl; [exact Hl |]. intros c Hc. by apply plain_call.
    + apply CopyFacts.negotiate_log in Hneg as ->.
      unfold fall_through.
      destruct (migrateLoop _ _ _ _ _ _ _ _ _) as [h' res] eqn:Hrun. cbn.
      apply (migrateLoop_calls forwards_no_volatile _ _ _ _ _
               ltac:(intros; by apply Hmine)
               ltac:(intros; by apply plain_call) _ _ _ _ _ Hrun).
      calls.
Qed.

(** X5: in a cross-remote copy whose source has a profile the
    destination lacks, the copy ends with MissingProfiles right after
    listing the destination's profiles: no migration websocket is asked
    for, no address is read and nothing is sent to create a container. *)
Theorem missing_profiles_stop_the_copy sourceResource destResource keepVolatile
    sourceRemote sourceName destRemote destName status baseImage h1 destProfs
    profile :
  ParseRemoteAndContainer config sourceResource = (sourceRemote, sourceName) →
  ParseRemoteAndContainer config destResource = (destRemote, destName) →
  sourceName ≠ "" →
  sourceRemote ≠ destRemote →
  new_client P [] sourceRemote = None →
  readSource P sourceRemote sourceName keepVolatile [NewClient sourceRemote]
  = (h1, inr (status, baseImage)) →
  new_client P h1 destRemote = None →
  list_profiles P (h1 ++ [NewClient destRemote]) destRemote = inr destProfs →
  profile ∈ Profiles status →
  profile ∉ destProfs →
  copyContainer P config sourceResource destResource keepVolatile []
  = (h1 ++ [NewClient destRemote; ListProfiles destRemote],
     Some missingProfiles).
Proof.
  intros Hsrc Hdst Hname Hremote Hnew Hread Hnew' Hprofs Hin Hnotin.
  unfold copyContainer. rewrite Hsrc, Hdst.
  destruct (decide (sourceName = "")) as [? | _]; [done |].
  unfold mbind, Prog_bind, bind, try_. rewrite Hnew. cbn [app].
  rewrite Hread.
  destruct (decide (sourceRemote = destRemote)) as [? | _]; [done |].
  unfold negotiate, mbind, Prog_bind, bind, try_. rewrite Hnew', Hprofs.
  assert (Hsub : IsSubset (Profiles status) destProfs = false).
  { unfold IsSubset. apply bool_decide_eq_false. intros Hsub.
    apply Hnotin. apply (elem_of_list_to_set (C := gset string)).
    apply Hsub. by apply elem_of_list_to_set. }
  rewrite Hsub. cbn. by rewrite <- app_assoc.
Qed.

(** X6: a copy within one remote to another name sends the local-copy
    request with the source's configuration and profiles and then waits
    for the operation that request returned; its result is the request's
    error or the outcome of the wait, and nothing else is sent. *)
Theorem local_copy_sequence sourceResource destResource keepVolatile
    remote sourceName destName status baseImage h1 :
  ParseRemoteAndContainer config sourceResource = (remote, sourceName) →
  ParseRemoteAndContainer config destResource = (remote, destName) →
  sourceName ≠ "" →
  destName ≠ "" →
  destName ≠ sourceName →
  new_client P [] remote = None →
  readSource P remote sourceName keepVolatile [NewClient remote]
  = (h1, inr (status, baseImage)) →
  let request := LocalCopy remote sourceName destName (Config status)
                   (Profiles status) in
  copyContainer P config sourceResource destResource keepVolatile []
  = match local_copy P h1 remote sourceName destName (Config status)
            (Profiles status) with
    | inl err => (h1 ++ [request], Some err)
    | inr cp =>
        (h1 ++ [request; WaitForSuccess remote (Operation cp)],
         wait_for_success P (h1 ++ [request]) remote (Operation cp))
    end.
Proof.
  intros Hsrc Hdst Hname Hdest Hdiff Hnew Hread request.
  unfold copyContainer. rewrite Hsrc, Hdst.
  destruct (decide (sourceName = "")) as [? | _]; [done |].
  destruct (decide (destName = "")) as [? | _]; [done |].
  unfold mbind, Prog_bind, bind, try_. rewrite Hnew. cbn [app].
  rewrite Hread.
  destruct (decide (remote = remote)) as [_ | ?]; [| done].
  destruct (decide (sourceName = destName)) as [? | _]; [done |].
  unfold mbind, Prog_bind, bind, try_, ask.
  destruct (local_copy P h1 remote sourceName destName _ _) as [err | cp];
    cbn; [done |]. by rewrite <- app_assoc.
Qed.

Lemma no_migrate_from (l : list call) :
  Forall (λ c, is_migrate_from c = false) l →
  filter (λ c, is_migrate_from c = true) l = [].
Proof.
  induction 1 as [| c l Hc _ IH]; [done |].
  rewrite filter_cons_False; [done |]. by rewrite Hc.
Qed.

Lemma migrateLoop_requests destRemote destName status baseImage m :
  ∀ remaining err h h' res,
    migrateLoop P destRemote destName status baseImage m remaining err h
    = (h', res) →
    ∃ tried,
      tried `prefix_of` remaining
      ∧ filter (λ c, is_migrate_from c = true) h'
        = filter (λ c, is_migrate_from c = true) h
          ++ ((λ addr,
                 MigrateFrom destRemote destName
                   ("wss://" +:+ addr
                    +:+ path_Join (sourceOperation m) "websocket")
                   (secrets m) (Config status) (Profiles status) baseImage)
              <$> tried).
Proof.
  intros remaining. induction remaining as [| addr rest IH];
    intros err h h' res Hrun.
  - cbn in Hrun. injection Hrun as <- <-. exists []. split; [done |].
    by rewrite app_nil_r.
  - cbn [migrateLoop] in Hrun.
    destruct (attempt P destRemote destName status baseImage m addr h)
      as [h1 r1] eqn:Hatt.
    destruct (CopyFacts.attempt_logs _ _ _ _ _ _ _ _ _ _ Hatt)
      as (url & more & -> & -> & Hmore).
    assert (Hstep :
      filter (λ c, is_migrate_from c = true)
        (h ++ MigrateFrom destRemote destName
                ("wss://" +:+ addr +:+ path_Join (sourceOperation m) "websocket")
                (secrets m) (Config status) (Profiles status) baseImage
              :: more)
      = filter (λ c, is_migrate_from c = true) h
        ++ [MigrateFrom destRemote destName
              ("wss://" +:+ addr +:+ path_Join (sourceOperation m) "websocket")
              (secrets m) (Config status) (Profiles status) baseImage]).
    { rewrite filter_app, filter_cons_True by done.
      by rewrite (no_migrate_from _ Hmore). }
    destruct r1 as [e |].
    + destruct (IH _ _ _ _ Hrun) as (tried & Hpre & Hfil).
      exists (addr :: tried). split; [by apply prefix_cons |].
      rewrite Hfil. setoid_rewrite Hstep. by rewrite <- app_assoc.
    + injection Hrun as <- <-. exists [addr]. split.
      { apply prefix_cons. apply prefix_nil. }
      done.
Qed.

(** X7: in a cross-remote copy of a container, the migration requests
    sent to the destination are, in order, those for an initial stretch of
    the addresses the source advertises, one per address: each names the
    destination container (the source's name when none was given), the
    websocket [wss://<address><operation>/websocket], the secrets of the
    source's operation, and the base image the source reported under
    [volatile.base_image]. *)
Theorem migration_requests_follow_addresses sourceResource destResource
    keepVolatile sourceRemote sourceName destRemote destName st status
    baseImage m h1 h0 :
  ParseRemoteAndContainer config sourceResource = (sourceRemote, sourceName) →
  ParseRemoteAndContainer config destResource = (destRemote, destName) →
  sourceName ≠ "" →
  sourceRemote ≠ destRemote →
  IsSnapshot sourceName = false →
  new_client P [] sourceRemote = None →
  container_status P [NewClient sourceRemote] sourceRemote sourceName = inr st →
  readSource P sourceRemote sourceName keepVolatile [NewClient sourceRemote]
  = (h1, inr (status, baseImage)) →
  negotiate P sourceRemote sourceName destRemote status h1 = (h0, inr m) →
  ∃ tried,
    tried `prefix_of` addrs m
    ∧ filter (λ c, is_migrate_from c = true)
        (copyContainer P config sourceResource destResource keepVolatile []).1
      = (λ addr,
           MigrateFrom destRemote
             (if decide (destName = "") then sourceName else destName)
             ("wss://" +:+ addr +:+ path_Join (sourceOperation m) "websocket")
             (secrets m) (Config status) (Profiles st)
             (default "" (Config st !! "volatile.base_image")))
        <$> tried.
Proof.
  intros Hsrc Hdst Hname Hremote Hsnap Hnew Hst Hread Hneg.
  rewrite (CopyFacts.copyContainer_cross_remote P config _ _ _ _ _ _ _ _ _ _
             h1 h0 Hsrc Hdst Hname Hremote Hnew Hread Hneg).
  destruct (readSource_baseImage _ _ _ _ _ _ _ _ Hsnap Hst Hread) as [-> <-].
  destruct (migrateLoop _ _ _ _ _ _ _ _ _) as [h res] eqn:Hrun.
  destruct (migrateLoop_requests _ _ _ _ _ _ _ _ _ _ Hrun)
    as (tried & Hpre & Hfil).
  exists tried. split; [done |]. cbn [fst]. rewrite Hfil.
  apply CopyFacts.readSource_log in Hread. apply CopyFacts.negotiate_log in Hneg.
  rewrite Hneg, Hread, Hsnap. reflexivity.
Qed.

End Facts.

Lemma missing_profiles_stop_the_copy_witness :
  copyContainer
    {| new_client := λ _ _, None;
       container_status := λ _ _ _,
         inr {| Config := ∅; Profiles := ["default"; "gpu"] |};
       local_copy := local_copy (friendly [] []);
       wait_for_success := λ _ _ _, None;
       list_profiles := λ _ _, inr ["default"];
       get_migration_source_ws := get_migration_source_ws (friendly [] []);
       addresses := λ _ _, inr ["10.0.0.1"];
       migrate_from := migrate_from (friendly [] []);
       json_Unmarshal := λ _, inr ∅ |}
    local "local:c1" "other:c2" false []
  = ([NewClient "local"; ContainerStatus "local" "c1"]
     ++ [NewClient "other"; ListProfiles "other"],
     Some missingProfiles).
Proof.
  apply (missing_profiles_stop_the_copy _ local "local:c1" "other:c2" false
           "local" "c1" "other" "c2"
           {| Config := ∅; Profiles := ["default"; "gpu"] |} ""
           [NewClient "local"; ContainerStatus "local" "c1"] ["default"] "gpu");
    [reflexivity | reflexivity | discriminate | discriminate | reflexivity
    | vm_compute; reflexivity | reflexivity | reflexivity
    | set_solver | set_solver].
Defined.

Lemma local_copy_sequence_witness :
  copyContainer (friendly [] []) local "local:c1" "c2" false []
  = ([NewClient "local"; ContainerStatus "local" "c1"]
     ++ [LocalCopy "local" "c1" "c2" ∅ ["default"];
         WaitForSuccess "local" "/1.0/operations/1"],
     None).
Proof.
  apply (local_copy_sequence (friendly [] []) local "local:c1" "c2" false
           "local" "c1" "c2" exampleStatus ""
           [NewClient "local"; ContainerStatus "local" "c1"]);
    [reflexivity | reflexivity | discriminate | discriminate | discriminate
    | reflexivity | vm_compute; reflexivity].
Defined.

Lemma migration_requests_follow_addresses_witness :
  ∃ tried,
    tried `prefix_of` ["10.0.0.1"; "10.0.0.2"; "10.0.0.3"]
    ∧ filter (λ c, is_migrate_from c = true)
        (copyContainer
           (friendly ["10.0.0.1"; "10.0.0.2"; "10.0.0.3"] ["10.0.0.1"])
           local "local:c1" "other:" false []).1
      = (λ addr,
           MigrateFrom "other" "c1"
             ("wss://" +:+ addr +:+ "/1.0/operations/2/websocket")
             ∅ ∅ ["default"] "")
        <$> tried.
Proof.
  apply (migration_requests_follow_addresses
           (friendly ["10.0.0.1"; "10.0.0.2"; "10.0.0.3"] ["10.0.0.1"])
           local "local:c1" "other:" false "local" "c1" "other" ""
           exampleStatus exampleStatus ""
           (exampleMigration ["10.0.0.1"; "10.0.0.2"; "10.0.0.3"])
           [NewClient "local"; ContainerStatus "local" "c1"] exampleSetup);
    [reflexivity | reflexivity | discriminate | discriminate | reflexivity
    | reflexivity | reflexivity | vm_compute; reflexivity
    | vm_compute; reflexivity].
Defined.

End CopyMore.

(** ** Secrets, export and deletion *)

Module ImageMore.
Import Sql Images Handlers Scenario.

(** *** The scan of an operation's image resources *)

Lemma plain_chars_cons (c : ascii) (s : string) :
  plain_chars (String c s) = true →
  isSpace c = false ∧ Ascii.eqb c "010" = false ∧ Ascii.eqb c "/" = false
  ∧ plain_chars s = true.
Proof.
  cbn. intros H. apply andb_prop in H as [H Hs].
  apply andb_prop in H as [H H3]. apply andb_prop in H as [H1 H2].
  repeat split; try done; by apply negb_true_iff.
Qed.

Lemma slashes_to_spaces_plain (s : string) :
  plain_chars s = true → slashes_to_spaces s = s.
Proof.
  induction s as [| c s IH]; [done |]. intros H.
  apply plain_chars_cons in H as (_ & _ & Hc & Hs). cbn. rewrite Hc.
  by rewrite IH.
Qed.

Lemma append_cons (c : ascii) (a b : string) :
  String c a +:+ b = String c (a +:+ b).
Proof. reflexivity. Qed.

Lemma slashes_to_spaces_app (a b : string) :
  slashes_to_spaces (a +:+ b) = slashes_to_spaces a +:+ slashes_to_spaces b.
Proof.
  induction a as [| c a IH]; [done |].
  rewrite append_cons. simpl. rewrite append_cons. by rewrite IH.
Qed.

Lemma token_plain (s rest : string) :
  plain_chars s = true →
  token (s +:+ String " " rest) = (s, String " " rest).
Proof.
  induction s as [| c s IH]; [done |]. intros H.
  apply plain_chars_cons in H as (H1 & H2 & _ & Hs).
  rewrite append_cons. simpl. rewrite H1, H2. simpl. by rewrite IH.
Qed.

Lemma token_plain_end (s : string) :
  plain_chars s = true → token s = (s, EmptyString).
Proof.
  induction s as [| c s IH]; [done |]. intros H.
  apply plain_chars_cons in H as (H1 & H2 & _ & Hs).
  simpl. rewrite H1, H2. simpl. by rewrite IH.
Qed.

Lemma skipSpace_plain (s : string) :
  plain_chars s = true → skipSpace s = s.
Proof.
  destruct s as [| c s]; [done |]. intros H.
  apply plain_chars_cons in H as (H1 & _). cbn. by rewrite H1.
Qed.

Lemma skipSpace_plain_app (s rest : string) :
  s ≠ "" → plain_chars s = true → skipSpace (s +:+ rest) = s +:+ rest.
Proof.
  destruct s as [| c s]; [done |]. intros _ H.
  apply plain_chars_cons in H as (H1 & _). rewrite append_cons. simpl.
  by rewrite H1.
Qed.

Lemma plain_inv (s : string) :
  plain s = true → s ≠ "" ∧ plain_chars s = true.
Proof.
  unfold plain. intros H. apply andb_prop in H as [H1 H2]. split; [| done].
  apply negb_true_iff in H1. by apply bool_decide_eq_false in H1.
Qed.

(** The scan reads back what the listing writes. *)
Lemma Sscanf_images_url (version fp : string) :
  plain version = true → plain fp = true →
  Sscanf_images (slashes_to_spaces ("/" +:+ version +:+ "/images/" +:+ fp))
  = Some (version, fp).
Proof.
  intros Hv Hf. apply plain_inv in Hv as [Hv0 Hv]. apply plain_inv in Hf as [Hf0 Hf].
  rewrite !slashes_to_spaces_app.
  rewrite (slashes_to_spaces_plain version), (slashes_to_spaces_plain fp) by done.
  unfold Sscanf_images.
  change (slashes_to_spaces "/" +:+ version
          +:+ slashes_to_spaces "/images/" +:+ fp)
    with (String " " (version +:+ String " " (String "i" (String "m"
            (String "a" (String "g" (String "e" (String "s"
              (String " " fp))))))))).
  change (skipSpace (String " " ?x)) with (skipSpace x).
  rewrite skipSpace_plain_app by done.
  rewrite token_plain by done.
  destruct (decide (version = "")) as [? | _]; [done |].
  change (literal "images" (skipSpace (String " " (String "i" (String "m"
            (String "a" (String "g" (String "e" (String "s"
              (String " " fp))))))))))
    with (Some (String " " fp)).
  cbv beta iota.
  change (skipSpace (String " " fp)) with (skipSpace fp).
  rewrite skipSpace_plain by done. rewrite token_plain_end by done.
  by destruct (decide (fp = "")).
Qed.

(** A bare word is not a resource path. *)
Lemma Sscanf_images_bare (fp : string) :
  plain fp = true → Sscanf_images (slashes_to_spaces fp) = None.
Proof.
  intros Hf. apply plain_inv in Hf as [Hf0 Hf].
  rewrite slashes_to_spaces_plain by done. unfold Sscanf_images.
  rewrite skipSpace_plain by done. rewrite token_plain_end by done.
  by destruct (decide (fp = "")).
Qed.

Lemma names_listed_image (fp other : string) :
  plain fp = true →
  names_image ["/" +:+ APIVersion +:+ "/images/" +:+ fp] other
  = bool_decide (fp = other).
Proof.
  intros Hf. unfold names_image. cbn [existsb].
  rewrite (Sscanf_images_url APIVersion fp) by done.
  by rewrite orb_false_r.
Qed.

(** X8: the resource path the image listing writes for a fingerprint,
    [/<version>/images/<fingerprint>], is read back by the secret check as
    exactly that fingerprint: an operation whose image resource is that
    path names this image and no other. *)
Theorem listing_url_names_the_image (fp other : string) :
  plain fp = true →
  names_image ["/" +:+ APIVersion +:+ "/images/" +:+ fp] other
  = bool_decide (fp = other).
Proof.
  intros Hf. unfold names_image. cbn [existsb].
  rewrite (Sscanf_images_url APIVersion fp) by done.
  apply orb_false_r.
Qed.

Lemma listing_url_names_the_image_witness :
  names_image ["/" +:+ APIVersion +:+ "/images/" +:+ "1f8b"] "1f8b" = true
  ∧ names_image ["/" +:+ APIVersion +:+ "/images/" +:+ "1f8b"] "1f8c" = false.
Proof.
  split.
  - rewrite (listing_url_names_the_image "1f8b" "1f8b"); reflexivity.
  - rewrite (listing_url_names_the_image "1f8b" "1f8c"); reflexivity.
Defined.

(** X9: [imageSecret] asks for an operation whose image resource is the
    bare fingerprint of the request and whose metadata holds the fresh
    secret.  Registered as it is, that operation does not make its own
    secret valid, since the secret check only reads resources of the form
    [/<version>/images/<fingerprint>]; with the resource in that form it
    does. *)
Theorem imageSecret_operation (random : error + string) (d : Daemon)
    (r : Request) (resources : gmap string (list string))
    (metadata : gmap string jvalue) :
  imageSecret random d r = Async resources metadata →
  plain (fingerprintVar r) = true →
  ∃ secret,
    random = inr secret
    ∧ resources = {[ "images" := [fingerprintVar r] ]}
    ∧ metadata !! "secret" = Some (JString secret)
    ∧ grants {| Resources := Some resources; OpMetadata := Some metadata |}
        (fingerprintVar r) secret = false
    ∧ grants {| Resources :=
                  Some {[ "images" := ["/" +:+ APIVersion +:+ "/images/"
                                       +:+ fingerprintVar r] ]};
                OpMetadata := Some metadata |}
        (fingerprintVar r) secret = true.
Proof.
  unfold imageSecret. intros Hrun Hplain.
  destruct (dbImageGet (db d) (fingerprintVar r) false); [done |].
  destruct random as [e | secret]; [done |].
  injection Hrun as <- <-. exists secret.
  split; [done |]. split; [done |]. split; [by rewrite lookup_singleton_eq |].
  unfold grants, secret_of. cbn [Resources OpMetadata].
  rewrite !lookup_singleton_eq. split.
  - unfold names_image. cbn [existsb].
    by rewrite (Sscanf_images_bare _ Hplain).
  - rewrite (names_listed_image _ _ Hplain).
    by rewrite !bool_decide_eq_true_2.
Qed.

Lemma imageSecret_operation_witness :
  ∃ secret,
    (inr "s3cret" : error + string) = inr secret
    ∧ ({[ "images" := ["1f8b"] ]} : gmap string (list string))
      = {[ "images" := [fingerprintVar (request true "1f8b" "")] ]}
    ∧ ({[ "secret" := JString "s3cret" ]} : gmap string jvalue) !! "secret"
      = Some (JString secret)
    ∧ grants {| Resources := Some {[ "images" := ["1f8b"] ]};
                OpMetadata := Some {[ "secret" := JString "s3cret" ]} |}
        "1f8b" secret = false
    ∧ grants {| Resources :=
                  Some {[ "images" := ["/" +:+ APIVersion +:+ "/images/"
                                       +:+ "1f8b"] ]};
                OpMetadata := Some {[ "secret" := JString "s3cret" ]} |}
        "1f8b" secret = true.
Proof.
  apply (imageSecret_operation (inr "s3cret") (daemon "ext4")
           (request true "1f8b" "")); vm_compute; reflexivity.
Defined.

(** *** Deleting *)

(** What a well-formed DELETE with one placeholder leaves of its table. *)
Lemma Exec_delete_rows (tx : database) (q : string) (v : value)
    (table column : string) (r : row) :
  parse q = Some (Delete table (Equals column Placeholder)) →
  r ∈ default [] ((Exec tx q [v]).1 !! table)
  ↔ r ∈ default [] (tx !! table) ∧ r !! column ≠ Some v.
Proof.
  intros Hq. unfold Exec. rewrite Hq. cbn [placeholders length].
  destruct (decide (1 = 1)) as [_ | ?]; [| done].
  destruct (tx !! table) as [rows |] eqn:Hrows; cbn [fst].
  - rewrite lookup_insert_eq. unfold default, from_option, id.
    rewrite list_elem_of_filter. cbn [holds head].
    rewrite bool_decide_eq_false. tauto.
  - rewrite Hrows. cbn. set_solver.
Qed.

Lemma deleteRows_images (tx : database) (id : Z) (r : row) :
  r ∈ image_rows (deleteRows tx id)
  ↔ r ∈ image_rows tx ∧ r !! "id" ≠ Some (VInt id).
Proof.
  unfold deleteRows, image_rows.
  destruct (Exec tx _ _) as [t1 e1] eqn:E1.
  destruct (Exec t1 _ _) as [t2 e2] eqn:E2.
  destruct (Exec t2 _ _) as [t3 e3] eqn:E3.
  pose proof (ImageFacts.Exec_other_table tx
                "DELETE FROM images_aliases WHERE image_id=?" [VInt id]
                "images_aliases" "images" (Equals "image_id" Placeholder)
                eq_refl ltac:(done)) as X1.
  pose proof (Exec_delete_rows t2 "DELETE FROM images WHERE id=?" (VInt id)
                "images" "id" r eq_refl) as X3.
  rewrite E1 in X1. rewrite E3 in X3. cbn in X1, X3.
  unfold Exec in E2. rewrite ImageFacts.malformed_delete_is_rejected in E2.
  injection E2 as <- <-. by rewrite X3, X1.
Qed.

Lemma deleteRows_aliases (tx : database) (id : Z) (a : row) :
  a ∈ alias_rows (deleteRows tx id)
  ↔ a ∈ alias_rows tx ∧ a !! "image_id" ≠ Some (VInt id).
Proof.
  unfold deleteRows, alias_rows.
  destruct (Exec tx _ _) as [t1 e1] eqn:E1.
  destruct (Exec t1 _ _) as [t2 e2] eqn:E2.
  destruct (Exec t2 _ _) as [t3 e3] eqn:E3.
  pose proof (Exec_delete_rows tx
                "DELETE FROM images_aliases WHERE image_id=?" (VInt id)
                "images_aliases" "image_id" a eq_refl) as X1.
  pose proof (ImageFacts.Exec_other_table t2 "DELETE FROM images WHERE id=?"
                [VInt id] "images" "images_aliases" (Equals "id" Placeholder)
                eq_refl ltac:(done)) as X3.
  rewrite E1 in X1. rewrite E3 in X3. cbn in X1, X3.
  unfold Exec in E2. rewrite ImageFacts.malformed_delete_is_rejected in E2.
  injection E2 as <- <-. by rewrite X3, X1.
Qed.

(** A successful delete is the transaction run on the database as it was. *)
Lemma imageDelete_success (d d' : Daemon) (r : Request) :
  imageDelete d r = (d', EmptySyncResponse) →
  ∃ base, dbImageGet (db d) (fingerprintVar r) false = inr base
          ∧ db d' = deleteRows (db d) (Id base).
Proof.
  unfold imageDelete.
  destruct (dbImageGet (db d) (fingerprintVar r) false) as [e | base];
    [done |].
  intros Hrun. exists base. split; [done |].
  pose proof (ImageFacts.os_Remove_db d
                (VarPath ["images"; BaseFingerprint base])) as H1.
  destruct (os_Remove d _) as [d1 e1]. cbn in H1.
  assert (H2 : ∀ d2, d2 = (if PathExists d1
                                 (VarPath ["images";
                                           BaseFingerprint base +:+ ".rootfs"])
                           then (os_Remove d1
                                   (VarPath ["images";
                                             BaseFingerprint base +:+ ".rootfs"])).1
                           else d1) → db d2 = db d).
  { intros d2 ->. destruct (PathExists d1 _); [| done].
    by rewrite ImageFacts.os_Remove_db. }
  match type of Hrun with
  | context [getServerConfigValue ?x] =>
      specialize (H2 x eq_refl); set (d2 := x) in *; clearbody d2
  end.
  unfold getServerConfigValue in Hrun.
  destruct (serverConfig d2 !! "core.lvm_vg_name") as [vgname |].
  - pose proof (ImageFacts.LVMRemoveLV_db d2 vgname (BaseFingerprint base)) as H3.
    destruct (LVMRemoveLV_ d2 vgname _) as [d3 [e3 |]]; cbn in H3; [done |].
    pose proof (ImageFacts.os_Remove_db d3
                  (VarPath ["images"; BaseFingerprint base] +:+ ".lv")) as H4.
    destruct (os_Remove d3 _) as [d4 [e4 |]]; cbn in H4; [done |].
    injection Hrun as <-. cbn. by rewrite H4, H3, H2.
  - destruct (decide (BackingFs d2 = "btrfs")); injection Hrun as <-; cbn;
      rewrite ?ImageFacts.btrfsDeleteSubvol_db; by rewrite H2.
Qed.

(** X10: when DELETE /images/{fp} answers with success, the rows of
    [images] with the image's id and the rows of [images_aliases] that
    refer to it are gone, and every other row of the two tables is still
    there. *)
Theorem imageDelete_removes_image_and_aliases (d d' : Daemon) (r : Request) :
  imageDelete d r = (d', EmptySyncResponse) →
  ∃ base,
    dbImageGet (db d) (fingerprintVar r) false = inr base
    ∧ (∀ i : row, i ∈ image_rows (db d')
                  ↔ i ∈ image_rows (db d) ∧ i !! "id" ≠ Some (VInt (Id base)))
    ∧ (∀ a : row, a ∈ alias_rows (db d')
                  ↔ a ∈ alias_rows (db d)
                    ∧ a !! "image_id" ≠ Some (VInt (Id base))).
Proof.
  intros Hrun. destruct (imageDelete_success _ _ _ Hrun) as (base & Hbase & ->).
  exists base. split; [done |]. split.
  - intros i. apply deleteRows_images.
  - intros a. apply deleteRows_aliases.
Qed.

Lemma imageDelete_removes_image_and_aliases_witness :
  ∃ base,
    dbImageGet (db (daemon "ext4")) "1f8b" false = inr base
    ∧ (∀ i : row, i ∈ image_rows (db (imageDelete (daemon "ext4")
                                        (request true "1f8b" "")).1)
                  ↔ i ∈ image_rows (db (daemon "ext4"))
                    ∧ i !! "id" ≠ Some (VInt (Id base)))
    ∧ (∀ a : row, a ∈ alias_rows (db (imageDelete (daemon "ext4")
                                        (request true "1f8b" "")).1)
                  ↔ a ∈ alias_rows (db (daemon "ext4"))
                    ∧ a !! "image_id" ≠ Some (VInt (Id base))).
Proof.
  apply (imageDelete_removes_image_and_aliases (daemon "ext4")
           (imageDelete (daemon "ext4") (request true "1f8b" "")).1
           (request true "1f8b" "")).
  vm_compute. reflexivity.
Defined.

Lemma os_Remove_settings (d : Daemon) (p : string) :
  serverConfig (os_Remove d p).1 = serverConfig d
  ∧ volumes (os_Remove d p).1 = volumes d.
Proof. unfold os_Remove. by repeat case_match. Qed.

Lemma os_Remove_absent (d : Daemon) (p q : string) :
  fs d !! q = None → fs (os_Remove d p).1 !! q = None.
Proof.
  intros Hq. unfold os_Remove. repeat case_match; try done; cbn [fst set_fs fs];
    (destruct (decide (p = q)) as [-> | Hne];
     [apply lookup_delete_eq | by rewrite lookup_delete_ne]).
Qed.

(** X11: when a volume group is configured but the image has no LV in
    it, DELETE /images/{fp} fails with an internal error and leaves the
    database as it was, yet the content file has already been removed. *)
Theorem imageDelete_without_LV (d : Daemon) (r : Request)
    (base : ImageBaseInfo) (vgname : string) (content : file) :
  dbImageGet (db d) (fingerprintVar r) false = inr base →
  serverConfig d !! "core.lvm_vg_name" = Some vgname →
  (vgname, BaseFingerprint base) ∉ volumes d →
  fs d !! VarPath ["images"; BaseFingerprint base] = Some (File content) →
  ∃ err,
    (imageDelete d r).2
    = InternalError (Wrap "Failed to remove deleted image LV" err)
    ∧ db (imageDelete d r).1 = db d
    ∧ fs (imageDelete d r).1 !! VarPath ["images"; BaseFingerprint base] = None.
Proof.
  intros Hbase Hvg Hlv Hfile.
  destruct (imageDelete d r) as [d' response] eqn:Hrun. cbn [fst snd].
  revert Hrun. unfold imageDelete. rewrite Hbase.
  unfold os_Remove at 1. rewrite Hfile.
  set (d1 := set_fs d (delete (VarPath ["images"; BaseFingerprint base]) (fs d))).
  assert (H1 : fs d1 !! VarPath ["images"; BaseFingerprint base] = None).
  { subst d1. cbn. apply lookup_delete_eq. }
  set (d2 := if PathExists d1 _ then _ else d1).
  assert (H2 : db d2 = db d ∧ serverConfig d2 = serverConfig d
               ∧ volumes d2 = volumes d
               ∧ fs d2 !! VarPath ["images"; BaseFingerprint base] = None).
  { subst d2. destruct (PathExists d1 _); [| by subst d1].
    rewrite ImageFacts.os_Remove_db.
    destruct (os_Remove_settings d1
                (VarPath ["images"; BaseFingerprint base +:+ ".rootfs"]))
      as [-> ->].
    repeat split; try done. by apply os_Remove_absent. }
  clearbody d2. destruct H2 as (Hdb & Hcfg & Hvol & Hfs).
  unfold getServerConfigValue. rewrite Hcfg, Hvg.
  unfold LVMRemoveLV_. cbn [did volumes].
  destruct (decide ((vgname, BaseFingerprint base) ∈ volumes d2)) as [Hin | _].
  { by rewrite Hvol in Hin. }
  intros [= <- <-]. cbn. eauto.
Qed.

Lemma imageDelete_without_LV_witness :
  ∃ err,
    (imageDelete (set_serverConfig (daemon "ext4")
                    {[ "core.lvm_vg_name" := "vg0" ]})
                 (request true "1f8b" "")).2
    = InternalError (Wrap "Failed to remove deleted image LV" err)
    ∧ db (imageDelete (set_serverConfig (daemon "ext4")
                         {[ "core.lvm_vg_name" := "vg0" ]})
                      (request true "1f8b" "")).1
      = db (set_serverConfig (daemon "ext4") {[ "core.lvm_vg_name" := "vg0" ]})
    ∧ fs (imageDelete (set_serverConfig (daemon "ext4")
                         {[ "core.lvm_vg_name" := "vg0" ]})
                      (request true "1f8b" "")).1
        !! VarPath ["images"; BaseFingerprint (image_of_row alpine)] = None.
Proof.
  apply (imageDelete_without_LV
           (set_serverConfig (daemon "ext4") {[ "core.lvm_vg_name" := "vg0" ]})
           (request true "1f8b" "") (image_of_row alpine) "vg0" [x1f; x8b]);
    [vm_compute; reflexivity | reflexivity | set_solver | reflexivity].
Defined.

End ImageMore.

(** ** Properties over a nil map *)

Module PropertyMore.
Import Url Images.

Lemma ParseQuery_empty (ph : string) :
  (ParseQuery ph).1 = ∅ ↔ pairs ph = [].
Proof.
  split.
  - intros Hempty. destruct (pairs ph) as [| [k v] l] eqn:Hpairs; [done |].
    pose proof (PropertyFacts.first_of_ParseQuery ph k) as Hfirst.
    rewrite Hempty, lookup_empty in Hfirst. unfold header_value in Hfirst.
    rewrite Hpairs in Hfirst. cbn in Hfirst.
    by rewrite bool_decide_eq_true_2 in Hfirst.
  - intros Hpairs. apply map_eq. intros k. rewrite lookup_empty.
    destruct ((ParseQuery ph).1 !! k) as [vs |] eqn:Hk; [| done].
    pose proof (PropertyFacts.first_of_ParseQuery ph k) as Hfirst.
    pose proof (PropertyFacts.ParseQuery_nonempty ph k vs Hk) as Hne.
    rewrite Hk in Hfirst. unfold header_value in Hfirst.
    rewrite Hpairs in Hfirst. by destruct vs.
Qed.

(** One header laid over a nil map. *)
Lemma mergeHeader_nil (ph : string) :
  mergeHeader (Returned None) ph
  = if decide (pairs ph = []) then Returned None
    else Panics "assignment to entry in nil map".
Proof.
  unfold mergeHeader.
  pose proof (ParseQuery_empty ph) as Hempty.
  assert (Hne : ∀ k vs, (ParseQuery ph).1 !! k = Some vs → vs ≠ []).
  { intros k vs. apply PropertyFacts.ParseQuery_nonempty. }
  destruct (ParseQuery ph) as [p err]. cbn [fst] in Hempty, Hne.
  assert (Hfold :
    map_fold (λ pkey pval acc, properties ← acc;
                               assignProperty properties pkey pval)
             (Returned None) p
    = if decide (p = ∅) then Returned None
      else Panics "assignment to entry in nil map").
  { revert Hne.
    pose (P := λ (r : outcome (option (gmap string string))) (m : Values),
                 (∀ k vs, m !! k = Some vs → vs ≠ []) →
                 r = if decide (m = ∅) then Returned None
                     else Panics "assignment to entry in nil map").
    apply (map_fold_weak_ind P); subst P; cbn beta.
    - intros _. by rewrite decide_True.
    - intros i x p' r Hi IH Hne.
      rewrite decide_False by apply insert_non_empty.
      rewrite IH.
      + destruct x as [| v x].
        { exfalso. apply (Hne i []); [| done]. by rewrite lookup_insert_eq. }
        by destruct (decide (p' = ∅)).
      + intros k vs Hk. apply (Hne k).
        rewrite lookup_insert_ne; [done |]. intros ->. congruence. }
  rewrite Hfold.
  destruct (decide (p = ∅)) as [Hp | Hp], (decide (pairs ph = [])) as [Hq | Hq];
    try done; tauto.
Qed.

Lemma mergeHeader_panics (msg ph : string) :
  mergeHeader (Panics msg) ph = Panics msg.
Proof.
  unfold mergeHeader. destruct (ParseQuery ph) as [p err].
  by apply (map_fold_weak_ind (λ r (_ : Values), r = Panics msg));
    [| intros i x p' r _ ->].
Qed.

Lemma mergeProperties_panics (msg : string) (propHeaders : list string) :
  foldl mergeHeader (Panics msg) propHeaders = Panics msg.
Proof.
  induction propHeaders as [| ph rest IH]; [done |].
  cbn [foldl]. by rewrite mergeHeader_panics.
Qed.

(** X12: when [metadata.yaml] carries no properties mapping, the merge
    returns the nil map if no [X-LXD-properties] header contributes a
    pair, and panics with an assignment to an entry of a nil map as soon
    as one does. *)
Theorem mergeProperties_nil_map (propHeaders : list string) :
  mergeProperties None propHeaders
  = if decide (Forall (λ ph, pairs ph = []) propHeaders) then Returned None
    else Panics "assignment to entry in nil map".
Proof.
  unfold mergeProperties.
  induction propHeaders as [| ph rest IH].
  - by rewrite decide_True.
  - cbn [foldl]. rewrite mergeHeader_nil.
    destruct (decide (pairs ph = [])) as [Hph | Hph].
    + rewrite IH. destruct (decide (Forall _ rest)) as [Hrest | Hrest].
      * by rewrite decide_True by by constructor.
      * rewrite decide_False; [done |]. by inversion 1.
    + rewrite mergeProperties_panics.
      rewrite decide_False; [done |]. by inversion 1.
Qed.

End PropertyMore.

(** ** The remaining handlers *)

Module HandlerMore.
Import Sql Images Handlers Scenario.

(** *** Statements and tables *)

Lemma dbQueryScan_table (db db' : database) (q : string) (args : list value)
    (columns : list string) (table : string) (c : condition) :
  parse q = Some (Select columns table c) →
  db !! table = db' !! table →
  dbQueryScan db q args = dbQueryScan db' q args.
Proof. intros Hq Htable. unfold dbQueryScan. by rewrite Hq, Htable. Qed.

Lemma dbImageGet_table (db db' : database) (fp : string) (public : bool) :
  db !! "images" = db' !! "images" →
  dbImageGet db fp public = dbImageGet db' fp public.
Proof. intros Himages. unfold dbImageGet, image_rows. by rewrite Himages. Qed.

Lemma filter_holds_apart (c : condition) (args : list value) (rows : list row) :
  filter (λ r, holds c args r = true) (filter (λ r, holds c args r = false) rows)
  = [].
Proof.
  induction rows as [| r rows IH]; [done |].
  rewrite (filter_cons (λ r, holds c args r = false)).
  destruct (decide (holds c args r = false)) as [Hr | Hr]; [| done].
  rewrite filter_cons. rewrite decide_False by congruence. done.
Qed.

(** *** PUT /images/{fp} *)

Lemma property_row_columns (id : Z) (k v : string) :
  property_row id k v !! "image_id" = Some (VInt id)
  ∧ property_row id k v !! "key" = Some (VText k)
  ∧ property_row id k v !! "value" = Some (VText v).
Proof. unfold property_row. repeat split; by simplify_map_eq. Qed.

Lemma property_rows_selected (id : Z) (l : list (string * string)) :
  filter (λ r, holds (Equals "image_id" Placeholder) [VInt id] r = true)
         ((λ kv, property_row id kv.1 kv.2) <$> l)
  = (λ kv, property_row id kv.1 kv.2) <$> l.
Proof.
  induction l as [| kv l IH]; [done |].
  rewrite fmap_cons, filter_cons, IH. rewrite decide_True; [done |].
  cbn [holds head]. apply bool_decide_eq_true_2.
  apply property_row_columns.
Qed.

Lemma property_rows_projected (id : Z) (l : list (string * string)) :
  mapM (project ["key"; "value"]) ((λ kv, property_row id kv.1 kv.2) <$> l)
  = Some ((λ kv, [VText kv.1; VText kv.2]) <$> l).
Proof.
  induction l as [| kv l IH]; [done |].
  rewrite !fmap_cons. cbn [mapM]. rewrite IH.
  destruct (property_row_columns id kv.1 kv.2) as (_ & Hk & Hv).
  unfold project. cbn [mapM]. by rewrite Hk, Hv.
Qed.

Lemma scanProperties_pairs (l : list (string * string)) :
  ∀ m : gmap string string,
    NoDup l.*1 →
    scanProperties ((λ kv, [VText kv.1; VText kv.2]) <$> l) m
    = Returned (list_to_map l ∪ m).
Proof.
  induction l as [| [k v] l IH]; intros m Hl.
  - cbn. by rewrite (left_id_L ∅ (∪)).
  - apply NoDup_cons in Hl as [Hk Hl]. cbn. rewrite (IH _ Hl). f_equal.
    rewrite <- insert_union_l. rewrite <- insert_union_r; [done |].
    by apply not_elem_of_list_to_map_1.
Qed.

(** X13: a PUT that succeeds replaces the image's properties by those of
    the body; a GET of the image that worked before returns the same
    record afterwards, with exactly the new properties (none when the
    body carries no properties member). *)
Theorem imagePut_then_get
    (decode : list byte → error + option (gmap string string))
    (d d' : Daemon) (r : Request) (info : ImageInfo) :
  imagePut decode d r = (d', Plain EmptySyncResponse) →
  doImageGet d (fingerprintVar r) false = Returned (info, None) →
  ∃ properties,
    decode (Body r) = inr properties
    ∧ doImageGet d' (fingerprintVar r) false
      = Returned ({| Aliases := Aliases info;
                     Architecture := Architecture info;
                     Fingerprint := Fingerprint info;
                     Filename := Filename info;
                     Properties := Some (default ∅ properties);
                     Public := Public info; Size := Size info;
                     CreationDate := CreationDate info;
                     ExpiryDate := ExpiryDate info;
                     UploadDate := UploadDate info |}, None).
Proof.
  intros Hput Hget. unfold imagePut in Hput.
  destruct (decode (Body r)) as [e | properties]; [by inversion Hput |].
  exists properties. split; [done |].
  unfold doImageGet in *.
  destruct (dbImageGet (db d) (fingerprintVar r) false) as [e | base] eqn:Hbase;
    [by inversion Hput |].
  unfold Exec in Hput.
  change (parse "DELETE FROM images_properties WHERE image_id=?")
    with (Some (Delete "images_properties" (Equals "image_id" Placeholder)))
    in Hput.
  cbn [placeholders length] in Hput.
  destruct (decide (1 = 1)) as [_ | ?]; [| done].
  destruct (db d !! "images_properties") as [rows |] eqn:Hrows.
  2: { rewrite Hrows in Hput. by inversion Hput. }
  rewrite lookup_insert_eq, insert_insert_eq in Hput.
  injection Hput as <-. cbn [db set_db].
  rewrite (dbImageGet_table _ (db d)) by by rewrite lookup_insert_ne.
  rewrite Hbase.
  destruct (dbQueryScan (db d) _ _) as [results [e |]]; [by inversion Hget |].
  destruct (scanProperties results ∅) as [old |]; [| by inversion Hget].
  cbn in Hget.
  destruct (dbQueryScan (db d)
              "SELECT name, description FROM images_aliases WHERE image_id=?"
              [VInt (Id base)]) as [aliases [e |]] eqn:Haliases;
    [by inversion Hget |].
  destruct (scanAliases aliases []) as [found |] eqn:Hfound;
    [| by inversion Hget].
  cbn in Hget. injection Hget as <-. cbn.
  unfold dbQueryScan at 1.
  change (parse "SELECT key, value FROM images_properties where image_id=?")
    with (Some (Select ["key"; "value"] "images_properties"
                  (Equals "image_id" Placeholder))).
  cbn [placeholders length].
  destruct (decide (1 = 1)) as [_ | ?]; [| done].
  rewrite lookup_insert_eq, filter_app, filter_holds_apart.
  rewrite property_rows_selected. cbn [app].
  rewrite property_rows_projected.
  rewrite scanProperties_pairs by apply NoDup_fst_map_to_list.
  rewrite list_to_map_to_list, (right_id_L ∅ (∪)). cbn.
  rewrite (dbQueryScan_table _ (db d) _ _ ["name"; "description"]
             "images_aliases" (Equals "image_id" Placeholder));
    [| reflexivity | by rewrite lookup_insert_ne].
  rewrite Haliases, Hfound. reflexivity.
Qed.

Lemma imagePut_then_get_witness :
  ∃ properties,
    (inr (Some {[ "os" := "debian" ]}) : error + option (gmap string string))
    = inr properties
    ∧ doImageGet (imagePut (λ _, inr (Some {[ "os" := "debian" ]}))
                    (daemon "ext4") (request true "1f8b" "")).1 "1f8b" false
      = Returned ({| Aliases := Aliases alpine_record;
                     Architecture := Architecture alpine_record;
                     Fingerprint := Fingerprint alpine_record;
                     Filename := Filename alpine_record;
                     Properties := Some (default ∅ properties);
                     Public := Public alpine_record;
                     Size := Size alpine_record;
                     CreationDate := CreationDate alpine_record;
                     ExpiryDate := ExpiryDate alpine_record;
                     UploadDate := UploadDate alpine_record |}, None).
Proof.
  apply (imagePut_then_get (λ _, inr (Some {[ "os" := "debian" ]}))
           (daemon "ext4")
           (imagePut (λ _, inr (Some {[ "os" := "debian" ]}))
              (daemon "ext4") (request true "1f8b" "")).1
           (request true "1f8b" "") alpine_record);
    vm_compute; reflexivity.
Defined.

(** *** The alias service *)

Lemma unique_ids_eq (rows : list row) (a b : row) :
  unique_ids rows → a ∈ rows → b ∈ rows → a !! "id" = b !! "id" → a = b.
Proof.
  intros Hunique [i Hi]%list_elem_of_lookup [j Hj]%list_elem_of_lookup Hid.
  pose proof (Hunique i j a b Hi Hj Hid) as ->. congruence.
Qed.

Lemma filter_absent_name (name : string) (rows : list row) :
  existsb (λ a : row, bool_decide (a !! "name" = Some (VText name))) rows
  = false →
  filter (λ a : row, a !! "name" = Some (VText name)) rows = [].
Proof.
  induction rows as [| a rows IH]; [done |]. cbn [existsb].
  intros [Ha Hrows]%orb_false_elim. apply bool_decide_eq_false in Ha.
  rewrite filter_cons, decide_False by done. by apply IH.
Qed.

(** X14: an alias that POST /images/aliases has just stored resolves, for
    a trusted client, to a record whose name field is the fingerprint of
    the target and whose description is the one given, or the alias name
    when none was given.  The image rows are keyed by [id]. *)
Theorem new_alias_resolves (decode : list byte → error + aliasPostReq)
    (d d' : Daemon) (r r' : Request) :
  aliasesPost decode d r = (d', Plain EmptySyncResponse) →
  unique_ids (image_rows (db d)) →
  keyed (image_rows (db d)) →
  trusted r' = true →
  ∃ req,
    decode (Body r) = inr req
    ∧ aliasGet d' r' (AliasName req)
      = SyncAlias {| Name := AliasTarget req;
                     Description := if decide (AliasDescription req = "")
                                    then AliasName req
                                    else AliasDescription req |}.
Proof.
  intros Hpost Hunique Hkeyed Htrusted. unfold aliasesPost in Hpost.
  destruct (decode (Body r)) as [e | req]; [by inversion Hpost |].
  exists req. split; [done |].
  destruct (bool_decide (AliasName req = "") || bool_decide (AliasTarget req = ""));
    [by inversion Hpost |].
  set (description := if decide (AliasDescription req = "") then AliasName req
                      else AliasDescription req) in *.
  destruct (dbAliasGet (db d) (AliasName req)); [| by inversion Hpost].
  unfold dbImageGet in Hpost.
  destruct (List.find _ (image_rows (db d))) as [target |] eqn:Hfind;
    [| by inversion Hpost].
  apply find_some in Hfind as [Htarget Hfp]. apply list_elem_of_In in Htarget.
  apply andb_prop in Hfp as [Hfp%bool_decide_eq_true _].
  destruct (Hkeyed target Htarget) as [z Hz].
  assert (Hid : Id (image_of_row target) = z).
  { cbn. unfold int_of. by rewrite Hz. }
  rewrite Hid in Hpost. unfold dbAddAlias in Hpost.
  destruct (db d !! "images_aliases") as [rows |] eqn:Hrows;
    [| by inversion Hpost].
  destruct (existsb _ rows) eqn:Hnew; [by inversion Hpost |].
  injection Hpost as <-.
  unfold aliasGet, doAliasGet. rewrite Htrusted. cbn [db set_db].
  rewrite lookup_insert_eq, lookup_insert_ne by done.
  unfold image_rows in Htarget, Hunique.
  destruct (db d !! "images") as [images |] eqn:Himages;
    [| by apply elem_of_nil in Htarget].
  simpl in Htarget, Hunique.
  rewrite filter_app, (filter_absent_name _ _ Hnew).
  rewrite filter_cons, decide_True by by simplify_map_eq.
  rewrite filter_nil. cbn [app mbind list_bind mjoin].
  unfold joined, image_rows.
  rewrite (lookup_insert_ne (db d) "images_aliases" "images") by done.
  rewrite Himages. unfold default, from_option, id.
  match goal with
  | |- context [filter ?P images] =>
      assert (Hin : target ∈ filter P images);
      [ apply list_elem_of_filter; split; [| done];
        split; [by simplify_map_eq |]; split; [by simplify_map_eq | by left]
      | destruct (filter P images) as [| first others] eqn:Hfilter;
        [ by apply elem_of_nil in Hin |] ];
      assert (Hfirst : first ∈ filter P images)
        by (rewrite Hfilter; apply list_elem_of_here)
  end.
  apply list_elem_of_filter in Hfirst as [(_ & Hsame & _) Hfirst].
  assert (first = target) as ->.
  { apply (unique_ids_eq images); [done .. |].
    rewrite Hz, Hsame. by simplify_map_eq. }
  cbn. rewrite Hfp. by simplify_map_eq.
Qed.

Lemma store_unique_ids : unique_ids (image_rows (db (daemon "ext4"))).
Proof. intros [| i] [| j] a b Hi Hj _; by cbn in *. Qed.

Lemma store_keyed : keyed (image_rows (db (daemon "ext4"))).
Proof.
  intros a Ha. change (a ∈ [alpine]) in Ha.
  apply list_elem_of_singleton in Ha as ->. by exists 1%Z.
Qed.

Lemma new_alias_resolves_witness :
  ∃ req,
    (inr {| AliasName := "edge"; AliasDescription := "";
            AliasTarget := "1f8b" |} : error + aliasPostReq) = inr req
    ∧ aliasGet (aliasesPost
                  (λ _, inr {| AliasName := "edge"; AliasDescription := "";
                               AliasTarget := "1f8b" |})
                  (daemon "ext4") (request true "" "")).1
               (request true "" "") (AliasName req)
      = SyncAlias {| Name := AliasTarget req;
                     Description := if decide (AliasDescription req = "")
                                    then AliasName req
                                    else AliasDescription req |}.
Proof.
  apply (new_alias_resolves
           (λ _, inr {| AliasName := "edge"; AliasDescription := "";
                        AliasTarget := "1f8b" |})
           (daemon "ext4")
           (aliasesPost
              (λ _, inr {| AliasName := "edge"; AliasDescription := "";
                           AliasTarget := "1f8b" |})
              (daemon "ext4") (request true "" "")).1
           (request true "" "") (request true "" ""));
    [vm_compute; reflexivity | apply store_unique_ids | apply store_keyed
    | reflexivity].
Defined.

(** X15: DELETE /images/aliases/{name} always answers with success,
    whether or not the alias existed; afterwards no alias row carries the
    name, every other alias row and the images are as before, and a GET
    of the alias fails. *)
Theorem aliasDelete_forgets_the_name (d : Daemon) (r r' : Request)
    (name : string) :
  (aliasDelete d r name).2 = Plain EmptySyncResponse
  ∧ (∀ a : row, a ∈ alias_rows (db (aliasDelete d r name).1)
                ↔ a ∈ alias_rows (db d) ∧ a !! "name" ≠ Some (VText name))
  ∧ db (aliasDelete d r name).1 !! "images" = db d !! "images"
  ∧ ∃ err, aliasGet (aliasDelete d r name).1 r' name = Plain (SmartError err).
Proof.
  unfold aliasDelete.
  pose proof (λ a, ImageMore.Exec_delete_rows (db d)
                "DELETE FROM images_aliases WHERE name=?" (VText name)
                "images_aliases" "name" a eq_refl) as Hrows.
  pose proof (ImageFacts.Exec_other_table (db d)
                "DELETE FROM images_aliases WHERE name=?" [VText name]
                "images_aliases" "images" (Equals "name" Placeholder)
                eq_refl ltac:(done)) as Himages.
  destruct (Exec (db d) _ _) as [db' e]. cbn [fst snd db set_db] in *.
  split; [done |]. split; [intros a; apply Hrows |]. split; [done |].
  unfold aliasGet, doAliasGet. cbn [db set_db].
  destruct (db' !! "images_aliases") as [aliases |] eqn:Haliases; [| eauto].
  destruct (db' !! "images") as [images |]; [| eauto].
  assert (Hnone : filter (λ a : row, a !! "name" = Some (VText name)) aliases
                  = []).
  { destruct (filter _ aliases) as [| found others] eqn:Hfilter; [done |].
    assert (Hfound : found ∈ filter (λ a : row, a !! "name" = Some (VText name))
                                    aliases)
      by (rewrite Hfilter; apply list_elem_of_here).
    apply list_elem_of_filter in Hfound as [Hname Hfound].
    destruct (Hrows found) as [Hkept _].
    destruct Hkept as [_ Hother]; [exact Hfound | done]. }
  rewrite Hnone. cbn. eauto.
Qed.

(** *** The API root *)

Lemma string_of_int8_ascii (c : ascii) :
  (N_of_ascii c <? 128)%N = true →
  string_of_int8 (Z.of_N (N_of_ascii c)) = String c EmptyString.
Proof.
  intros Hc%N.ltb_lt. unfold string_of_int8.
  rewrite Z.mod_small by lia.
  destruct (Z.ltb_spec (Z.of_N (N_of_ascii c)) 128) as [_ | ?]; [| lia].
  by rewrite N2Z.id, ascii_N_embedding.
Qed.

Lemma kernelVersion_release (s : string) (rest : list Z) :
  ascii_text s = true →
  rest = [] ∨ head rest = Some 0%Z →
  kernelVersion (release_of s ++ rest) = s.
Proof.
  intros Hs Hrest. induction s as [| c s IH].
  - destruct Hrest as [-> | Hrest]; [done |].
    destruct rest as [| z rest]; [done |]. injection Hrest as ->. done.
  - cbn in Hs. apply andb_prop in Hs as [[Hpos Hc]%andb_prop Hs].
    cbn [release_of app kernelVersion].
    apply N.ltb_lt in Hpos.
    rewrite decide_False by lia.
    rewrite string_of_int8_ascii, ImageMore.append_cons by done.
    by rewrite IH.
Qed.

(** X16: for a trusted client, when [uname], the file system query and
    the read of the server configuration all succeed, the API root
    reports the kernel release as the text before the first NUL of
    [uname.Release] (or the whole array when there is none), provided
    those bytes are ASCII. *)
Theorem api10Get_kernel_version (H : Host) (d : Daemon) (r : Request)
    (s backing : string) (rest : list Z) :
  trusted r = true →
  Uname H = inr (release_of s ++ rest) →
  ascii_text s = true →
  rest = [] ∨ head rest = Some 0%Z →
  GetFilesystem H = inr backing →
  ConfigError H = None →
  ∃ body env,
    api10Get H d r = SyncBody body
    ∧ body !! "environment" = Some (JObject env)
    ∧ env !! "kernel_version" = Some (JText s)
    ∧ env !! "backing_fs" = Some (JText backing).
Proof.
  intros Htrusted Huname Hs Hrest Hfs Hconfig.
  unfold api10Get, getServerConfig.
  rewrite Htrusted, Huname, Hfs, Hconfig,
    (kernelVersion_release s rest Hs Hrest).
  eexists _, _. split; [reflexivity |]. by simplify_map_eq.
Qed.

Lemma api10Get_kernel_version_witness :
  ∃ body env,
    api10Get host (daemon "ext4") (request true "" "") = SyncBody body
    ∧ body !! "environment" = Some (JObject env)
    ∧ env !! "kernel_version" = Some (JText "4.2")
    ∧ env !! "backing_fs" = Some (JText "ext4").
Proof.
  apply (api10Get_kernel_version host (daemon "ext4") (request true "" "")
           "4.2" "ext4" [0; 55]%Z);
    [reflexivity | reflexivity | reflexivity | by right | reflexivity
    | reflexivity].
Defined.

(** X17: what the API root answers never carries the stored trust
    password: an untrusted client gets neither the environment nor the
    configuration, and a trusted one gets every configuration key with
    its value, except that [core.trust_password] is shown as [true]. *)
Theorem api10Get_masks_the_password (H : Host) (d : Daemon) (r : Request)
    (body : gmap string json) :
  api10Get H d r = SyncBody body →
  if trusted r then
    ∃ config,
      body !! "config" = Some (JObject config)
      ∧ ∀ key, config !! key
               = (λ value, if decide (key = "core.trust_password")
                           then JBool true else JText value)
                 <$> serverConfig d !! key
  else body !! "environment" = None ∧ body !! "config" = None
       ∧ body !! "auth" = Some (JText "untrusted").
Proof.
  unfold api10Get, getServerConfig. destruct (trusted r).
  - destruct (Uname H) as [e | release]; [done |].
    destruct (GetFilesystem H) as [e | backing]; [done |].
    destruct (ConfigError H) as [e |]; [done |].
    intros [= <-]. eexists. split; [by simplify_map_eq |].
    intros key. unfold shownConfig. rewrite map_lookup_imap.
    by destruct (serverConfig d !! key).
  - intros [= <-]. by simplify_map_eq.
Qed.

Lemma api10Get_masks_the_password_witness :
  if trusted (request true "" "") then
    ∃ config,
      body_of (api10Get host
                 (set_serverConfig (daemon "ext4")
                    {[ "core.trust_password" := "hunter2" ]})
                 (request true "" "")) !! "config" = Some (JObject config)
      ∧ ∀ key, config !! key
               = (λ value, if decide (key = "core.trust_password")
                           then JBool true else JText value)
                 <$> serverConfig
                       (set_serverConfig (daemon "ext4")
                          {[ "core.trust_password" := "hunter2" ]}) !! key
  else body_of (api10Get host
                  (set_serverConfig (daemon "ext4")
                     {[ "core.trust_password" := "hunter2" ]})
                  (request true "" "")) !! "environment" = None
       ∧ body_of (api10Get host
                    (set_serverConfig (daemon "ext4")
                       {[ "core.trust_password" := "hunter2" ]})
                    (request true "" "")) !! "config" = None
       ∧ body_of (api10Get host
                    (set_serverConfig (daemon "ext4")
                       {[ "core.trust_password" := "hunter2" ]})
                    (request true "" "")) !! "auth"
         = Some (JText "untrusted").
Proof.
  apply (api10Get_masks_the_password host
           (set_serverConfig (daemon "ext4")
              {[ "core.trust_password" := "hunter2" ]})
           (request true "" "")).
  reflexivity.
Defined.

End HandlerMore.

(** ** Ingestion *)

Module IngestMore.
Import Sql Images Handlers Scenario.

#[local] Instance same_db_preorder : PreOrder same_db.
Proof.
  split; [by intros d | intros d1 d2 d3 H12 H23].
  unfold same_db in *. congruence.
Qed.

Section Jobs.
Context (R : relation Daemon) `{!PreOrder R}.

Lemma moves_bind {A B} (c : Job A) (k : A → Job B) (d : Daemon) :
  moves R c d →
  (∀ a d1, c d = (d1, inr a) → moves R (k a) d1) →
  moves R (c ≫= k) d.
Proof.
  unfold moves, mbind, Prog_bind, bind. intros Hc Hk.
  destruct (c d) as [d1 [x | a]]; [done |].
  etrans; [exact Hc | by apply Hk].
Qed.

Lemma moves_ret {A} (a : A) (d : Daemon) : moves R (ret a) d.
Proof. unfold moves. cbn. reflexivity. Qed.

Lemma moves_return {A} (x : abort) (d : Daemon) :
  moves R (return_ x : Job A) d.
Proof. unfold moves. cbn. reflexivity. Qed.

Lemma moves_fail {A} (e : error) (d : Daemon) : moves R (fail e : Job A) d.
Proof. apply moves_return. Qed.

Lemma moves_inspect {A} (f : Daemon → A) (d : Daemon) : moves R (inspect f) d.
Proof. unfold moves. cbn. reflexivity. Qed.

Lemma moves_try {A} (x : error + A) (d : Daemon) : moves R (try x) d.
Proof. destruct x; [apply moves_fail | apply moves_ret]. Qed.

Lemma moves_unwind {A} (x : outcome A) (d : Daemon) : moves R (unwind x) d.
Proof. destruct x; [apply moves_ret | apply moves_return]. Qed.

Lemma moves_effect (f : Daemon → Daemon) (d : Daemon) :
  R d (f d) → moves R (effect f) d.
Proof. done. Qed.

Lemma moves_check (f : Daemon → Daemon * option error) (d : Daemon) :
  R d (f d).1 → moves R (check f) d.
Proof. unfold moves, check. by destruct (f d) as [d' [e |]]. Qed.

Lemma moves_defer {A} (f : Daemon → Daemon) (body : Job A) (d : Daemon) :
  moves R body d → (∀ d1, R d1 (f d1)) → moves R (defer f body) d.
Proof.
  unfold moves, defer. intros Hbody Hf. destruct (body d) as [d1 x].
  etrans; [exact Hbody | apply Hf].
Qed.

Lemma moves_returned_error (c : Job unit) (d : Daemon) :
  moves R c d → moves R (returned_error c) d.
Proof.
  unfold moves, returned_error. by destruct (c d) as [d1 [[e | msg] | []]].
Qed.

End Jobs.

(** *** The steps that leave the database alone *)

Lemma did_same (d : Daemon) (w : work) : same_db d (did d w).
Proof. done. Qed.

Lemma set_fs_same (d : Daemon) (x : filesystem) : same_db d (set_fs d x).
Proof. done. Qed.

Lemma write_same (p : string) (c : file) (d : Daemon) : same_db d (write p c d).
Proof. done. Qed.

Lemma os_Remove_same (d : Daemon) (p : string) : same_db d (os_Remove d p).1.
Proof. apply ImageFacts.os_Remove_db. Qed.

Lemma os_Rename_same (old new : string) (d : Daemon) :
  same_db d (os_Rename old new d).1.
Proof. unfold os_Rename. by case_match. Qed.

Lemma os_Symlink_same (target link : string) (d : Daemon) :
  same_db d (os_Symlink target link d).1.
Proof. unfold os_Symlink. by case_match. Qed.

Lemma MkdirAll_same (p : string) (d : Daemon) : same_db d (MkdirAll p d).1.
Proof. unfold MkdirAll. by repeat case_match. Qed.

Lemma os_RemoveAll_same (dir : string) (d : Daemon) :
  same_db d (os_RemoveAll dir d).1.
Proof. unfold os_RemoveAll. by case_match. Qed.

Lemma btrfsMakeSubvol_same (subvol : string) (d : Daemon) :
  same_db d (btrfsMakeSubvol subvol d).1.
Proof. unfold btrfsMakeSubvol. by case_match. Qed.

Lemma btrfsDeleteSubvol_same (d : Daemon) (subvol : string) :
  same_db d (btrfsDeleteSubvol d subvol).
Proof. apply ImageFacts.btrfsDeleteSubvol_db. Qed.

Lemma LVMCreateLV_same (lvname vgname : string) (d : Daemon) :
  same_db d (LVMCreateLV_ lvname vgname d).1.
Proof. unfold LVMCreateLV_. by case_match. Qed.

Lemma LVMRemoveLV_same (d : Daemon) (vgname lvname : string) :
  same_db d (LVMRemoveLV_ d vgname lvname).1.
Proof. apply ImageFacts.LVMRemoveLV_db. Qed.

Lemma temporary_same (n : node) (dir pfx : string) (d : Daemon) :
  moves same_db (temporary n dir pfx) d.
Proof. unfold moves, temporary. by repeat case_match. Qed.

Lemma removeImgWorkdir_same (builddir : string) (d : Daemon) :
  same_db d (removeImgWorkdir builddir d).
Proof.
  unfold removeImgWorkdir.
  destruct (getServerConfigValue d "core.lvm_vg_name") as [[vgname ?] ?].
  set (d1 := match Glob_lv d builddir with [] => d | _ => _ end).
  assert (H1 : same_db d d1).
  { subst d1. destruct (Glob_lv d builddir) as [| lvsymlink ?]; [done |].
    destruct (os_Readlink d lvsymlink); [done |]. apply LVMRemoveLV_same. }
  clearbody d1.
  set (d2 := if decide (BackingFs d1 = "btrfs") then _ else d1).
  assert (H2 : same_db d1 d2).
  { subst d2. destruct (decide (BackingFs d1 = "btrfs")); [| done].
    generalize (ReadDir d1 builddir). intros names.
    assert (∀ d0, same_db d1 d0 →
                  same_db d1 (foldl (λ d fname,
                                       btrfsDeleteSubvol d (Join builddir fname))
                                    d0 names)) as Hfold.
    { induction names as [| name names IH]; intros d0 H0; [done |].
      cbn [foldl]. apply IH. etrans; [exact H0 |].
      apply btrfsDeleteSubvol_same. }
    by apply Hfold. }
  clearbody d2. etrans; [exact H1 |]. etrans; [exact H2 |].
  apply os_RemoveAll_same.
Qed.

Create HintDb daemon.

#[local] Hint Resolve did_same set_fs_same write_same os_Remove_same
  os_Rename_same os_Symlink_same MkdirAll_same btrfsMakeSubvol_same
  LVMCreateLV_same temporary_same removeImgWorkdir_same : daemon.

(** One step through a job. *)
Ltac job_step :=
  lazymatch goal with
  | |- moves ?R (ret _) _ => apply (moves_ret R)
  | |- moves ?R (fail _) _ => apply (moves_fail R)
  | |- moves ?R (return_ _) _ => apply (moves_return R)
  | |- moves ?R (inspect _) _ => apply (moves_inspect R)
  | |- moves ?R (try _) _ => apply (moves_try R)
  | |- moves ?R (unwind _) _ => apply (moves_unwind R)
  | |- moves ?R (returned_error _) _ => apply (moves_returned_error R)
  | |- moves ?R (defer _ _) _ => apply (moves_defer R)
  | |- moves ?R (mbind _ (inspect _)) _ =>
      apply (moves_bind R);
      [ apply (moves_inspect R)
      | let a := fresh "seen" in
        let d1 := fresh "d" in
        let Heq := fresh "Hseen" in
        intros a d1 Heq; cbv [inspect id] in Heq;
        injection Heq as <- <- ]
  | |- moves ?R (mbind _ _) _ => apply (moves_bind R); [| intros ? ? ?]
  | |- moves ?R (effect _) _ => apply (moves_effect R)
  | |- moves ?R (check _) _ => apply (moves_check R)
  | |- moves _ (match ?x with _ => _ end) _ => destruct x eqn:?
  end.

(** What is left of steps into a fixed daemon. *)
Ltac settled :=
  try done; eauto with daemon;
  lazymatch goal with
  | H : ?run = (?d', _) |- same_db ?d ?d' =>
      let X := fresh in
      assert (X : same_db d run.1) by eauto with daemon;
      rewrite H in X; exact X
  end.

Section Steps.
Context (T : Tools).

Lemma getImageMetadata_same (fname : string) (d : Daemon) :
  moves same_db (getImageMetadata T fname) d.
Proof. unfold getImageMetadata. repeat job_step; settled. Qed.

Lemma untar_same (tarball path : string) (d : Daemon) :
  moves same_db (untar T tarball path) d.
Proof. unfold untar. repeat job_step; settled. Qed.

Lemma untarImage_same (imagefname destpath : string) (d : Daemon) :
  moves same_db (untarImage T imagefname destpath) d.
Proof.
  unfold untarImage. repeat first [apply untar_same | job_step]; settled.
Qed.

Lemma createImageLV_same (builddir fingerprint vgname : string) (d : Daemon) :
  moves same_db (createImageLV T builddir fingerprint vgname) d.
Proof.
  unfold createImageLV, TempDir.
  repeat first [apply untarImage_same | job_step]; settled.
Qed.

Lemma buildOtherFs_same (builddir fp : string) (d : Daemon) :
  moves same_db (buildOtherFs T builddir fp) d.
Proof.
  unfold buildOtherFs.
  repeat first [apply untarImage_same | apply createImageLV_same | job_step];
    settled.
Qed.

Lemma pullOutImagefiles_same (builddir fingerprint : string) (d : Daemon) :
  moves same_db (pullOutImagefiles builddir fingerprint) d.
Proof. unfold pullOutImagefiles. repeat job_step; settled. Qed.

Lemma imgPostContInfo_same (req : imageFromContainerPostReq)
    (builddir : string) (d : Daemon) :
  moves same_db (imgPostContInfo T req builddir) d.
Proof. unfold imgPostContInfo. repeat job_step; settled. Qed.

Lemma checkFingerprint_same (r : Request) (fingerprint : string) (d : Daemon) :
  moves same_db (checkFingerprint r fingerprint) d.
Proof. unfold checkFingerprint. repeat job_step; settled. Qed.

Lemma NextPart_same (ps : list part) (d : Daemon) :
  moves same_db (NextPart ps) d.
Proof. unfold NextPart. repeat job_step; settled. Qed.

Lemma getImgPostInfo_same (r : Request) (builddir : string) (d : Daemon) :
  moves same_db (getImgPostInfo T r builddir) d.
Proof.
  unfold getImgPostInfo, TempFile.
  repeat first [ apply temporary_same | apply imgPostContInfo_same
               | apply checkFingerprint_same | apply NextPart_same
               | apply getImageMetadata_same | job_step ];
    settled.
Qed.

(** *** Storing the row *)

Lemma bind_inr {A B} (c : Job A) (k : A → Job B) (d d' : Daemon) (b : B) :
  (c ≫= k) d = (d', inr b) →
  ∃ d1 a, c d = (d1, inr a) ∧ k a d1 = (d', inr b).
Proof.
  unfold mbind, Prog_bind, bind. destruct (c d) as [d1 [x | a]]; [done |].
  eauto.
Qed.

(** The row [dbInsertImage] writes. *)
Lemma dbInsertImage_stores (fp fname : string) (sz public arch : Z)
    (creationDate expiryDate : Z) (properties : option (gmap string string))
    (d d' : Daemon) :
  dbInsertImage T fp fname sz public arch creationDate expiryDate properties d
  = (d', inr ()) →
  existsb (λ r : row, bool_decide (r !! "fingerprint" = Some (VText fp)))
          (image_rows (db d)) = false
  ∧ ∃ image : row,
      image_rows (db d') = image_rows (db d) ++ [image]
      ∧ image !! "fingerprint" = Some (VText fp)
      ∧ image !! "size" = Some (VInt sz)
      ∧ image !! "upload_date" = Some (VInt (now T)).
Proof.
  unfold dbInsertImage. cbv [mbind Prog_bind bind inspect id fail return_ effect].
  destruct (existsb _ (image_rows (db d))) eqn:Hnew; [done |].
  intros [= <-]. split; [done |]. eexists. split.
  - unfold image_rows at 1. cbn [db set_db].
    destruct properties as [m |]; [destruct (decide (0 < size m)) |];
      rewrite ?(lookup_insert_ne _ "images_properties" "images") by done;
      by rewrite lookup_insert_eq.
  - by simplify_map_eq.
Qed.

Lemma find_new_row (fp : string) (rows : list row) (image : row) :
  existsb (λ r : row, bool_decide (r !! "fingerprint" = Some (VText fp))) rows
  = false →
  image !! "fingerprint" = Some (VText fp) →
  List.find (λ r : row, bool_decide (r !! "fingerprint" = Some (VText fp))
                        && (negb false
                            || bool_decide (r !! "public" = Some (VInt 1))))
            (rows ++ [image])
  = Some image.
Proof.
  intros Hnew Himage. induction rows as [| r rows IH].
  - cbn. by rewrite bool_decide_eq_true_2.
  - cbn in Hnew |- *. apply orb_false_elim in Hnew as [-> Hnew]. by apply IH.
Qed.

Lemma find_no_row (fp : string) (rows : list row) :
  existsb (λ r : row, bool_decide (r !! "fingerprint" = Some (VText fp))) rows
  = false →
  List.find (λ r : row, bool_decide (r !! "fingerprint" = Some (VText fp))
                        && (negb false
                            || bool_decide (r !! "public" = Some (VInt 1))))
            rows
  = None.
Proof.
  intros Hnew. induction rows as [| r rows IH]; [done |].
  cbn in Hnew |- *. apply orb_false_elim in Hnew as [-> Hnew]. by apply IH.
Qed.

(** What a successful run of the handler's body went through. *)
Lemma imagesPost_success (d d' : Daemon) (r : Request)
    (metadata : gmap string string) :
  imagesPost T d r = (d', Returned (SyncResponse true (Fields metadata))) →
  ∃ (info : ImageInfo) (before after : Daemon),
    db before = db d ∧ db d' = db after
    ∧ dbInsertImage T (Fingerprint info) (Filename info) (Size info)
        (Public info) (Architecture info) (CreationDate info)
        (ExpiryDate info) (Properties info) before = (after, inr ())
    ∧ metadata = <["size" := pretty (Size info)]>
                   (<["fingerprint" := Fingerprint info]> ∅).
Proof.
  unfold imagesPost. intros Hpost.
  pose proof (MkdirAll_same (VarPath ["images"]) d) as H0.
  destruct (MkdirAll (VarPath ["images"]) d) as [d0 [e |]]; [done |].
  pose proof (temporary_same Directory (VarPath ["images"]) "lxd_build_" d0)
    as H1.
  unfold moves in H1. fold TempDir in H1.
  destruct (TempDir (VarPath ["images"]) "lxd_build_" d0)
    as [d1 [[e | msg] | builddir]]; [done .. |].
  unfold defer in Hpost.
  destruct ((getImgPostInfo T r builddir
             ≫= λ info, buildImageFromInfo T info builddir) d1)
    as [d2 [[e | msg] | fields]] eqn:Hbody; [done .. |].
  injection Hpost as <- <-.
  apply bind_inr in Hbody as (d3 & info & Hinfo & Hbuild).
  pose proof (getImgPostInfo_same r builddir d1) as H3.
  unfold moves in H3. rewrite Hinfo in H3.
  unfold buildImageFromInfo in Hbuild.
  apply bind_inr in Hbuild as (d4 & [] & Hother & Hbuild).
  pose proof (buildOtherFs_same builddir (Fingerprint info) d3) as H4.
  unfold moves in H4. rewrite Hother in H4.
  apply bind_inr in Hbuild as (d5 & [] & Hinsert & Hbuild).
  apply bind_inr in Hbuild as (d6 & [] & Hpull & Hret).
  pose proof (pullOutImagefiles_same builddir (Fingerprint info) d5) as H6.
  unfold moves in H6. rewrite Hpull in H6.
  injection Hret as <- <-.
  exists info, d4, d5. cbn [fst] in *. unfold same_db in *.
  split; [congruence |]. split; [| done].
  rewrite (removeImgWorkdir_same builddir d6). exact H6.
Qed.

End Steps.

(** X18: when POST /images answers with success, the fingerprint it
    reports was not in the store before and is there afterwards: the
    store's lookup returns a record with that fingerprint, the reported
    size and the time of the upload. *)
Theorem imagesPost_then_get (T : Tools) (d d' : Daemon) (r : Request)
    (metadata : gmap string string) :
  imagesPost T d r = (d', Returned (SyncResponse true (Fields metadata))) →
  ∃ fp base,
    metadata !! "fingerprint" = Some fp
    ∧ dbImageGet (db d) fp false = inl NoSuchObject
    ∧ dbImageGet (db d') fp false = inr base
    ∧ BaseFingerprint base = fp
    ∧ metadata !! "size" = Some (pretty (BaseSize base))
    ∧ BaseUploadDate base = now T.
Proof.
  intros Hpost.
  destruct (imagesPost_success T d d' r metadata Hpost)
    as (info & before & after & Hbefore & Hafter & Hinsert & ->).
  apply dbInsertImage_stores in Hinsert
    as (Hnew & image & Hrows & Hfp & Hsize & Hdate).
  exists (Fingerprint info), (image_of_row image).
  split; [by simplify_map_eq |].
  unfold dbImageGet. rewrite Hafter, Hrows, <- Hbefore.
  rewrite (find_new_row _ _ _ Hnew Hfp), (find_no_row _ _ Hnew).
  repeat split; cbn; unfold text_of, int_of; rewrite ?Hfp, ?Hsize, ?Hdate;
    by simplify_map_eq.
Qed.

Lemma imagesPost_then_get_witness :
  ∃ fp base,
    ({[ "fingerprint" := "1f8b00"; "size" := "3" ]} : gmap string string)
      !! "fingerprint" = Some fp
    ∧ dbImageGet (db (daemon "ext4")) fp false = inl NoSuchObject
    ∧ dbImageGet (db (imagesPost tools (daemon "ext4")
                        (upload [x1f; x8b; x00])).1) fp false = inr base
    ∧ BaseFingerprint base = fp
    ∧ ({[ "fingerprint" := "1f8b00"; "size" := "3" ]} : gmap string string)
        !! "size" = Some (pretty (BaseSize base))
    ∧ BaseUploadDate base = now tools.
Proof.
  apply (imagesPost_then_get tools (daemon "ext4")
           (imagesPost tools (daemon "ext4") (upload [x1f; x8b; x00])).1
           (upload [x1f; x8b; x00])
           {[ "fingerprint" := "1f8b00"; "size" := "3" ]}).
  vm_compute. reflexivity.
Defined.

(** *** An upload that is refused *)

Lemma refused_bind {A B} (c : Job A) (k : A → Job B) (d : Daemon) :
  calm c d →
  (∀ d1 a, c d = (d1, inr a) → refused (k a) d1) →
  refused (c ≫= k) d.
Proof.
  unfold calm, refused, mbind, Prog_bind, bind. intros Hcalm Hk.
  destruct (c d) as [d1 [[e | msg] | a]]; [eauto | | eauto].
  by destruct (Hcalm d1 msg).
Qed.

Lemma refused_now {A B} (c : Job A) (k : A → Job B) (d : Daemon) :
  refused c d → refused (c ≫= k) d.
Proof.
  unfold refused, mbind, Prog_bind, bind. intros (d' & e & ->). eauto.
Qed.

Lemma refused_defer {A} (f : Daemon → Daemon) (body : Job A) (d : Daemon) :
  refused body d → refused (defer f body) d.
Proof. unfold refused, defer. intros (d' & e & ->). eauto. Qed.

Lemma refused_fail {A} (e : error) (d : Daemon) : refused (fail e : Job A) d.
Proof. unfold refused. cbn. eauto. Qed.

Lemma calm_temporary (n : node) (dir pfx : string) (d : Daemon) :
  calm (temporary n dir pfx) d.
Proof. unfold calm, temporary. intros d' msg. by repeat case_match. Qed.

Lemma calm_effect (f : Daemon → Daemon) (d : Daemon) : calm (effect f) d.
Proof. by intros d' msg. Qed.

Lemma calm_check (f : Daemon → Daemon * option error) (d : Daemon) :
  calm (check f) d.
Proof. unfold calm, check. intros d' msg. by repeat case_match. Qed.

Lemma calm_NextPart (ps : list part) (d : Daemon) : calm (NextPart ps) d.
Proof. unfold calm, NextPart. intros d' msg. by case_match. Qed.

Lemma NextPart_inr (ps rest : list part) (p : part) (d d' : Daemon) :
  NextPart ps d = (d', inr (p, rest)) → ps = p :: rest.
Proof. unfold NextPart. destruct ps; [done |]. by intros [= -> -> ->]. Qed.

Lemma checkFingerprint_refused (r : Request) (fingerprint : string)
    (d : Daemon) :
  Header_Get r "X-LXD-fingerprint" ≠ "" →
  fingerprint ≠ Header_Get r "X-LXD-fingerprint" →
  refused (checkFingerprint r fingerprint) d.
Proof.
  intros Hset Hother. unfold checkFingerprint.
  rewrite !bool_decide_eq_false_2 by done. apply refused_fail.
Qed.

Lemma getImgPostInfo_refused (T : Tools) (r : Request) (builddir : string)
    (d : Daemon) :
  json_Decode T (Body r) = None →
  Header_Get r "X-LXD-fingerprint" ≠ "" →
  sha256 T (Body r) ≠ Header_Get r "X-LXD-fingerprint" →
  (∀ boundary p1 p2 rest,
     parts T (Body r) boundary = p1 :: p2 :: rest →
     sha256 T (content p1 ++ content p2) ≠ Header_Get r "X-LXD-fingerprint") →
  refused (getImgPostInfo T r builddir) d.
Proof.
  intros Hjson Hset Hraw Hparts. unfold getImgPostInfo, TempFile.
  apply refused_bind; [apply calm_temporary |]. intros d1 post _.
  apply refused_defer.
  apply refused_bind; [apply calm_effect |]. intros d2 [] _.
  rewrite Hjson.
  destruct (match ParseMediaType T (Header_Get r "Content-Type") with
            | inl _ => _ | inr x => x end) as [ctype ctypeParams].
  apply refused_bind; [apply calm_temporary |]. intros d3 imageTarf _.
  apply refused_now.
  destruct (decide (ctype = "multipart/form-data")) as [_ | _].
  - apply refused_bind; [apply calm_temporary |]. intros d4 rootfsTarf _.
    apply refused_bind; [apply calm_NextPart |].
    intros d5 [part1 mr] Hfirst%NextPart_inr.
    destruct (negb (bool_decide (FormName part1 = "metadata")));
      [apply refused_fail |].
    apply refused_bind; [apply calm_effect |]. intros d6 [] _.
    apply refused_bind; [apply calm_NextPart |].
    intros d7 [part2 others] ->%NextPart_inr.
    destruct (negb (bool_decide (FormName part2 = "rootfs")));
      [apply refused_fail |].
    apply refused_bind; [apply calm_effect |]. intros d8 [] _.
    apply refused_now, checkFingerprint_refused; [done |].
    by apply (Hparts _ _ _ _ Hfirst).
  - apply refused_bind; [apply calm_effect |]. intros d4 [] _.
    by apply refused_now, checkFingerprint_refused.
Qed.

(** X19: an upload in the body whose [X-LXD-fingerprint] header differs
    from the digest of what was sent is answered with an error, neither
    with success nor with a panic, and the database is left as it was. *)
Theorem mismatched_fingerprint_is_refused (T : Tools) (d : Daemon)
    (r : Request) :
  json_Decode T (Body r) = None →
  Header_Get r "X-LXD-fingerprint" ≠ "" →
  sha256 T (Body r) ≠ Header_Get r "X-LXD-fingerprint" →
  (∀ boundary p1 p2 rest,
     parts T (Body r) boundary = p1 :: p2 :: rest →
     sha256 T (content p1 ++ content p2) ≠ Header_Get r "X-LXD-fingerprint") →
  db (imagesPost T d r).1 = db d
  ∧ ∃ e, (imagesPost T d r).2 = Returned (SmartError e)
         ∨ (imagesPost T d r).2 = Returned (InternalError e).
Proof.
  intros Hjson Hset Hraw Hparts. unfold imagesPost.
  pose proof (MkdirAll_same (VarPath ["images"]) d) as H0.
  destruct (MkdirAll (VarPath ["images"]) d) as [d0 [e |]]; [by eauto |].
  pose proof (temporary_same Directory (VarPath ["images"]) "lxd_build_" d0)
    as H1.
  pose proof (calm_temporary Directory (VarPath ["images"]) "lxd_build_" d0)
    as Hcalm.
  unfold moves in H1. unfold calm in Hcalm. fold TempDir in H1, Hcalm.
  destruct (TempDir (VarPath ["images"]) "lxd_build_" d0)
    as [d1 [[e | msg] | builddir]].
  - cbn [fst snd] in *. unfold same_db in *. split; [congruence | eauto].
  - by destruct (Hcalm d1 msg).
  - destruct (getImgPostInfo_refused T r builddir d1 Hjson Hset Hraw Hparts)
      as (d2 & e & Hrun).
    pose proof (getImgPostInfo_same T r builddir d1) as H2.
    unfold moves in H2. rewrite Hrun in H2.
    unfold defer, mbind, Prog_bind, bind. rewrite Hrun.
    cbn [fst snd] in *. unfold same_db in *. split; [| eauto].
    rewrite (removeImgWorkdir_same builddir d2). congruence.
Qed.

Lemma mismatched_fingerprint_is_refused_witness :
  db (imagesPost tools (daemon "ext4") (upload_as "abcd" [x1f; x8b; x00])).1
  = db (daemon "ext4")
  ∧ ∃ e,
      (imagesPost tools (daemon "ext4") (upload_as "abcd" [x1f; x8b; x00])).2
      = Returned (SmartError e)
      ∨ (imagesPost tools (daemon "ext4")
           (upload_as "abcd" [x1f; x8b; x00])).2
        = Returned (InternalError e).
Proof.
  apply (mismatched_fingerprint_is_refused tools (daemon "ext4")
           (upload_as "abcd" [x1f; x8b; x00]));
    [reflexivity | vm_compute; discriminate | vm_compute; discriminate
    | intros boundary p1 p2 rest; discriminate].
Defined.

(** *** What an upload leaves in place *)

#[local] Instance keeps_rows_preorder : PreOrder keeps_rows.
Proof.
  split.
  - by intros d.
  - intros d1 d2 d3 (Ha & Hi & Hp) (Ha' & Hi' & Hp'). repeat split.
    + congruence.
    + by etrans.
    + by etrans.
Qed.

Lemma same_keeps (d d' : Daemon) : same_db d d' → keeps_rows d d'.
Proof. unfold same_db, keeps_rows. by intros ->. Qed.

Lemma moves_same_keeps {A} (c : Job A) (d : Daemon) :
  moves same_db c d → moves keeps_rows c d.
Proof. apply same_keeps. Qed.

Lemma dbInsertImage_keeps (T : Tools) (fp fname : string)
    (sz public arch : Z) (creationDate expiryDate : Z)
    (properties : option (gmap string string)) (d : Daemon) :
  moves keeps_rows
    (dbInsertImage T fp fname sz public arch creationDate expiryDate properties)
    d.
Proof.
  unfold moves, dbInsertImage.
  cbv [mbind Prog_bind bind inspect id fail return_ effect].
  destruct (existsb _ (image_rows (db d))); [done |].
  unfold keeps_rows, image_rows.
  destruct properties as [m |]; [destruct (decide (0 < size m)) |];
    cbn [fst db set_db];
    rewrite ?lookup_insert_eq,
      ?(lookup_insert_ne _ "images_properties" "images_aliases"),
      ?(lookup_insert_ne _ "images_properties" "images"),
      ?(lookup_insert_ne _ "images" "images_aliases"),
      ?(lookup_insert_ne _ "images" "images_properties"),
      ?lookup_insert_eq by done;
    repeat split; try done; apply prefix_app_r; reflexivity.
Qed.

Lemma buildImageFromInfo_keeps (T : Tools) (info : ImageInfo)
    (builddir : string) (d : Daemon) :
  moves keeps_rows (buildImageFromInfo T info builddir) d.
Proof.
  unfold buildImageFromInfo.
  apply (moves_bind keeps_rows);
    [apply moves_same_keeps, buildOtherFs_same |]. intros [] d1 _.
  apply (moves_bind keeps_rows); [apply dbInsertImage_keeps |]. intros [] d2 _.
  apply (moves_bind keeps_rows);
    [apply moves_same_keeps, pullOutImagefiles_same |]. intros [] d3 _.
  apply (moves_ret keeps_rows).
Qed.

(** X20: however POST /images ends - with success, an error or a panic -
    the rows of [images] and [images_properties] that were in the store
    are still there, unchanged and in place, and [images_aliases] is as
    it was. *)
Theorem imagesPost_keeps_rows (T : Tools) (d : Daemon) (r : Request) :
  keeps_rows d (imagesPost T d r).1.
Proof.
  unfold imagesPost.
  pose proof (MkdirAll_same (VarPath ["images"]) d) as H0%same_keeps.
  destruct (MkdirAll (VarPath ["images"]) d) as [d0 [e |]]; [done |].
  pose proof (temporary_same Directory (VarPath ["images"]) "lxd_build_" d0)
    as H1%same_keeps.
  fold TempDir in H1.
  destruct (TempDir (VarPath ["images"]) "lxd_build_" d0)
    as [d1 [[e | msg] | builddir]]; cbn [fst] in *; try by etrans.
  assert (moves keeps_rows
            (defer (removeImgWorkdir builddir)
               (getImgPostInfo T r builddir
                ≫= λ info, buildImageFromInfo T info builddir)) d1) as H2.
  { apply (moves_defer keeps_rows).
    - apply (moves_bind keeps_rows);
        [apply moves_same_keeps, getImgPostInfo_same |].
      intros info d2 _. apply buildImageFromInfo_keeps.
    - intros d2. apply same_keeps, removeImgWorkdir_same. }
  unfold moves in H2.
  destruct (defer _ _ d1) as [d2 [[e | msg] | metadata]]; cbn [fst] in *;
    (etrans; [exact H0 | by etrans]).
Qed.

End IngestMore.

(** ** The handler that works in place *)

Module InlineMore.
Import Sql Images Handlers Scenario.

Lemma append_longer (s t : string) : t ≠ "" → s +:+ t ≠ s.
Proof.
  intros Ht. induction s as [| c s IH]; [done |].
  rewrite ImageMore.append_cons. by intros [= Hs].
Qed.

Lemma bind_left {A B} (c : Prog Daemon Response A) (k : A → Prog Daemon Response B)
    (d d' : Daemon) (response : Response) :
  c d = (d', inl response) → (c ≫= k) d = (d', inl response).
Proof. unfold mbind, Prog_bind, bind. by intros ->. Qed.

Lemma bind_on {A B} (c : Prog Daemon Response A) (k : A → Prog Daemon Response B)
    (d d' : Daemon) (a : A) :
  c d = (d', inr a) → (c ≫= k) d = k a d'.
Proof. unfold mbind, Prog_bind, bind. by intros ->. Qed.

(** The [cleanup] closure removes the file it is given and passes the
    error on. *)
Lemma cleanup_removes (backing_fs vgname : string) (vgnameIsSet : bool)
    (err : error) (fname : string) (c : file) (d : Daemon) :
  fs d !! fname = Some (File c) →
  (Inline.cleanup backing_fs vgname vgnameIsSet err fname d).2 = SmartError err
  ∧ db (Inline.cleanup backing_fs vgname vgnameIsSet err fname d).1 = db d
  ∧ fs (Inline.cleanup backing_fs vgname vgnameIsSet err fname d).1 !! fname
    = None.
Proof.
  intros Hfile. unfold Inline.cleanup.
  set (d1 := if vgnameIsSet then _ else _).
  assert (H1 : fs d1 !! fname = Some (File c) ∧ db d1 = db d).
  { subst d1. destruct vgnameIsSet.
    - rewrite ImageFacts.os_Remove_db, ImageFacts.LVMRemoveLV_db.
      split; [| done].
      set (d0 := (LVMRemoveLV_ d vgname _).1).
      assert (fs d0 = fs d) as Hfs by (unfold d0, LVMRemoveLV_; by case_match).
      unfold os_Remove. rewrite Hfs.
      destruct (fs d !! (fname +:+ ".lvm")) as [[| | |] |]; cbn;
        rewrite ?Hfs, ?lookup_delete_ne; try done;
        by apply append_longer.
    - destruct (decide (backing_fs = "btrfs")); [| done].
      destruct (PathExists d (fname +:+ ".btrfs")); [| done].
      rewrite ImageFacts.btrfsDeleteSubvol_db. split; [| done].
      unfold btrfsDeleteSubvol. cbn [fs did].
      destruct (fs d !! (fname +:+ ".btrfs")) as [[| | |] |]; cbn;
        rewrite ?lookup_delete_ne; try done;
        by apply append_longer. }
  clearbody d1. destruct H1 as [Hfs Hdb].
  unfold os_Remove. rewrite Hfs. cbn.
  split; [done |]. split; [done |]. apply lookup_delete_eq.
Qed.

(** X21: the handler that works in place refuses an upload whose
    content file is already in the image directory: once the file system
    of the container path has been determined and the body has been
    copied, whatever that file system and the volume group, the answer is
    the error [Image already exists.]; when the file system cannot be
    determined, or the copy of the body fails, the answer is that error.
    In every case the database is left as it was. *)
Theorem duplicate_in_place (T : Tools) (GetFilesystem : error + string)
    (io_Copy : option error) (d : Daemon) (r : Request) :
  fs d !! VarPath ["images"] = Some Directory →
  PathExists d (VarPath ["images"; sha256 T (Body r)]) = true →
  Header_Get r "X-LXD-fingerprint" = ""
  ∨ Header_Get r "X-LXD-fingerprint" = sha256 T (Body r) →
  (Inline.imagesPost T GetFilesystem io_Copy d r).2
  = match GetFilesystem, io_Copy with
    | inl err, _ => InternalError err
    | inr _, Some err => SmartError err
    | inr _, None => SmartError Inline.alreadyExists
    end
  ∧ db (Inline.imagesPost T GetFilesystem io_Copy d r).1 = db d.
Proof.
  intros Hdir Hexists Hexpected. unfold Inline.imagesPost.
  destruct GetFilesystem as [err | backing_fs]; [done |].
  unfold getServerConfigValue.
  set (setting := match serverConfig d !! "core.lvm_vg_name" with
                  | Some v => (v, true, None) | None => ("", false, None) end).
  assert (∃ vgname vgnameIsSet, setting = (vgname, vgnameIsSet, None))
    as (vgname & vgnameIsSet & ->).
  { subst setting. destruct (serverConfig d !! _); eauto. }
  cbv zeta.
  unfold MkdirAll. rewrite Hdir.
  unfold TempFile, temporary. rewrite Hdir.
  set (fname := Join (VarPath ["images"]) _).
  set (d1 := next_temporary _).
  destruct io_Copy as [err |].
  { destruct (cleanup_removes backing_fs vgname vgnameIsSet err fname [] d1)
      as (Hresponse & Hdb & _).
    { subst d1. cbn. apply lookup_insert_eq. }
    destruct (Inline.cleanup _ _ _ _ _ d1) as [d2 response] eqn:Hclean.
    cbn [fst snd] in Hresponse, Hdb. subst response.
    rewrite (bind_left _ _ d1 d2 (SmartError err))
      by (cbv beta; by rewrite Hclean).
    split; [done |]. cbn [fst]. by rewrite Hdb. }
  assert (negb (bool_decide (Header_Get r "X-LXD-fingerprint" = ""))
          && negb (bool_decide
                     (sha256 T (Body r) = Header_Get r "X-LXD-fingerprint"))
          = false) as ->.
  { destruct Hexpected as [Hnone | Hsame].
    - by rewrite (bool_decide_eq_true_2 _ Hnone).
    - rewrite (bool_decide_eq_true_2 (sha256 T (Body r) = _)) by done.
      apply andb_false_r. }
  set (d2 := write fname (Body r) d1).
  rewrite (bind_on _ _ d1 d2 ()) by reflexivity.
  rewrite (bind_on _ _ d2 d2 ()) by reflexivity.
  rewrite (bind_on _ _ d2 d2 d2) by reflexivity.
  assert (PathExists d2 (VarPath ["images"; sha256 T (Body r)]) = true) as ->.
  { unfold PathExists in *. apply bool_decide_eq_true in Hexists.
    apply bool_decide_eq_true. subst d2 d1. cbn [fs write set_fs next_temporary].
    rewrite !lookup_insert_is_Some'. tauto. }
  destruct (cleanup_removes backing_fs vgname vgnameIsSet
              Inline.alreadyExists fname (Body r) d2) as (Hresponse & Hdb & _).
  { subst d2. cbn. apply lookup_insert_eq. }
  destruct (Inline.cleanup _ _ _ _ _ d2) as [d3 response] eqn:Hclean.
  cbn [fst snd] in Hresponse, Hdb. subst response.
  rewrite (bind_left _ _ d2 d3 (SmartError Inline.alreadyExists))
    by (cbv beta; by rewrite Hclean).
  split; [done |]. cbn [fst]. by rewrite Hdb.
Qed.

Lemma duplicate_in_place_witness :
  (Inline.imagesPost tools (inr "ext4") None (daemon "ext4")
     (upload [x1f; x8b])).2
  = SmartError Inline.alreadyExists
  ∧ db (Inline.imagesPost tools (inr "ext4") None (daemon "ext4")
          (upload [x1f; x8b])).1
    = db (daemon "ext4").
Proof.
  apply (duplicate_in_place tools (inr "ext4") None (daemon "ext4")
           (upload [x1f; x8b]));
    [reflexivity | reflexivity | left; reflexivity].
Defined.

End InlineMore.

(** ** Mounting and unmounting *)

Module MountMore.
Import Sql Images Handlers Scenario IngestMore.

#[local] Instance unmounts_preorder : PreOrder unmounts.
Proof.
  split.
  - intros d. exists []. split; [by rewrite app_nil_r |].
    by intros device mountpoint ?%elem_of_nil.
  - intros d1 d2 d3 (l & Hl & Hbalanced) (l' & Hl' & Hbalanced').
    exists (l ++ l'). split; [by rewrite Hl', Hl, app_assoc |].
    intros device mountpoint [Hin | Hin]%elem_of_app; apply elem_of_app;
      [left | right]; eauto.
Qed.

Lemma quiet (d d' : Daemon) : worklog d' = worklog d → unmounts d d'.
Proof.
  intros Hlog. exists []. split; [by rewrite app_nil_r |].
  by intros device mountpoint ?%elem_of_nil.
Qed.

Lemma did_unmounts (d : Daemon) (w : work) :
  (∀ device mountpoint, w ≠ Mount device mountpoint) →
  unmounts d (did d w).
Proof.
  intros Hw. exists [w]. split; [done |].
  intros device mountpoint Hin%list_elem_of_singleton.
  by destruct (Hw device mountpoint).
Qed.

Lemma set_fs_quiet (d : Daemon) (x : filesystem) : unmounts d (set_fs d x).
Proof. by apply quiet. Qed.

Lemma set_db_quiet (d : Daemon) (x : database) : unmounts d (set_db d x).
Proof. by apply quiet. Qed.

Lemma write_quiet (p : string) (c : file) (d : Daemon) :
  unmounts d (write p c d).
Proof. by apply quiet. Qed.

Lemma os_Remove_quiet (d : Daemon) (p : string) : unmounts d (os_Remove d p).1.
Proof. apply quiet. unfold os_Remove. by repeat case_match. Qed.

Lemma os_Rename_quiet (old new : string) (d : Daemon) :
  unmounts d (os_Rename old new d).1.
Proof. apply quiet. unfold os_Rename. by case_match. Qed.

Lemma os_Symlink_quiet (target link : string) (d : Daemon) :
  unmounts d (os_Symlink target link d).1.
Proof. apply quiet. unfold os_Symlink. by case_match. Qed.

Lemma MkdirAll_quiet (p : string) (d : Daemon) : unmounts d (MkdirAll p d).1.
Proof. apply quiet. unfold MkdirAll. by repeat case_match. Qed.

Lemma os_RemoveAll_quiet (dir : string) (d : Daemon) :
  unmounts d (os_RemoveAll dir d).1.
Proof. apply quiet. unfold os_RemoveAll. by case_match. Qed.

Lemma temporary_quiet (n : node) (dir pfx : string) (d : Daemon) :
  moves unmounts (temporary n dir pfx) d.
Proof. unfold moves. apply quiet. unfold temporary. by repeat case_match. Qed.

Lemma btrfsMakeSubvol_unmounts (subvol : string) (d : Daemon) :
  unmounts d (btrfsMakeSubvol subvol d).1.
Proof.
  unfold btrfsMakeSubvol. etrans; [by apply (did_unmounts d (BtrfsMakeSubvol subvol)) |].
  apply quiet. cbv zeta. by repeat case_match.
Qed.

Lemma btrfsDeleteSubvol_unmounts (d : Daemon) (subvol : string) :
  unmounts d (btrfsDeleteSubvol d subvol).
Proof.
  unfold btrfsDeleteSubvol. etrans; [by apply (did_unmounts d (BtrfsDeleteSubvol subvol)) |].
  apply quiet. cbv zeta. by repeat case_match.
Qed.

Lemma LVMCreateLV_unmounts (lvname vgname : string) (d : Daemon) :
  unmounts d (LVMCreateLV_ lvname vgname d).1.
Proof.
  unfold LVMCreateLV_. etrans; [by apply (did_unmounts d (LVMCreateLV vgname lvname)) |].
  apply quiet. cbv zeta. by repeat case_match.
Qed.

Lemma LVMRemoveLV_unmounts (d : Daemon) (vgname lvname : string) :
  unmounts d (LVMRemoveLV_ d vgname lvname).1.
Proof.
  unfold LVMRemoveLV_. etrans; [by apply (did_unmounts d (LVMRemoveLV vgname lvname)) |].
  apply quiet. cbv zeta. by repeat case_match.
Qed.

Lemma removeImgWorkdir_unmounts (builddir : string) (d : Daemon) :
  unmounts d (removeImgWorkdir builddir d).
Proof.
  unfold removeImgWorkdir.
  destruct (getServerConfigValue d "core.lvm_vg_name") as [[vgname ?] ?].
  set (d1 := match Glob_lv d builddir with [] => d | _ => _ end).
  assert (H1 : unmounts d d1).
  { subst d1. destruct (Glob_lv d builddir) as [| lvsymlink ?]; [done |].
    destruct (os_Readlink d lvsymlink); [done |]. apply LVMRemoveLV_unmounts. }
  clearbody d1.
  set (d2 := if decide (BackingFs d1 = "btrfs") then _ else d1).
  assert (H2 : unmounts d1 d2).
  { subst d2. destruct (decide (BackingFs d1 = "btrfs")); [| done].
    generalize (ReadDir d1 builddir). intros names.
    assert (∀ d0, unmounts d1 d0 →
                  unmounts d1 (foldl (λ d fname,
                                        btrfsDeleteSubvol d (Join builddir fname))
                                     d0 names)) as Hfold.
    { induction names as [| name names IH]; intros d0 H0; [done |].
      cbn [foldl]. apply IH. etrans; [exact H0 |].
      apply btrfsDeleteSubvol_unmounts. }
    by apply Hfold. }
  clearbody d2. etrans; [exact H1 |]. etrans; [exact H2 |].
  apply os_RemoveAll_quiet.
Qed.

Create HintDb mounts.

#[local] Hint Resolve set_fs_quiet set_db_quiet write_quiet os_Remove_quiet
  os_Rename_quiet os_Symlink_quiet MkdirAll_quiet temporary_quiet
  btrfsMakeSubvol_unmounts LVMCreateLV_unmounts removeImgWorkdir_unmounts
  : mounts.

#[local] Hint Extern 1 (unmounts _ (did _ _)) =>
  (apply did_unmounts; by intros) : mounts.

(** What is left of steps into a fixed daemon. *)
Ltac mounted :=
  try done; try reflexivity; try (intros; by apply quiet);
  eauto with mounts;
  lazymatch goal with
  | H : ?run = (?d', _) |- unmounts ?d ?d' =>
      let X := fresh in
      assert (X : unmounts d run.1) by eauto with mounts;
      rewrite H in X; exact X
  end.

Section Steps.
Context (T : Tools).
Hypothesis mount_succeeds :
  ∀ args fs, ∃ output, exec T "mount" args fs = inr output.

Lemma getImageMetadata_unmounts (fname : string) (d : Daemon) :
  moves unmounts (getImageMetadata T fname) d.
Proof. unfold getImageMetadata. repeat job_step; mounted. Qed.

Lemma untar_unmounts (tarball path : string) (d : Daemon) :
  moves unmounts (untar T tarball path) d.
Proof. unfold untar. repeat job_step; mounted. Qed.

Lemma untarImage_unmounts (imagefname destpath : string) (d : Daemon) :
  moves unmounts (untarImage T imagefname destpath) d.
Proof.
  unfold untarImage. repeat first [apply untar_unmounts | job_step]; mounted.
Qed.

Lemma calm_bind {A B} (c : Job A) (k : A → Job B) (d : Daemon) :
  calm c d → (∀ d1 a, c d = (d1, inr a) → calm (k a) d1) → calm (c ≫= k) d.
Proof.
  unfold calm, mbind, Prog_bind, bind. intros Hc Hk d' msg.
  destruct (c d) as [d1 [[e | msg'] | a]]; [done | | by apply Hk].
  by destruct (Hc d1 msg').
Qed.

Lemma calm_ret {A} (a : A) (d : Daemon) : calm (ret a : Job A) d.
Proof. by intros d' msg. Qed.

Lemma calm_fail {A} (e : error) (d : Daemon) : calm (fail e : Job A) d.
Proof. by intros d' msg. Qed.

Lemma calm_inspect {A} (f : Daemon → A) (d : Daemon) : calm (inspect f) d.
Proof. by intros d' msg. Qed.

Lemma calm_try {A} (x : error + A) (d : Daemon) : calm (try x) d.
Proof. destruct x; [apply calm_fail | apply calm_ret]. Qed.

(** One step through a job that has no panic in it. *)
Ltac calm_step :=
  lazymatch goal with
  | |- calm (ret _) _ => apply calm_ret
  | |- calm (fail _) _ => apply calm_fail
  | |- calm (inspect _) _ => apply calm_inspect
  | |- calm (try _) _ => apply calm_try
  | |- calm (effect _) _ => apply calm_effect
  | |- calm (check _) _ => apply calm_check
  | |- calm (mbind _ _) _ => apply calm_bind; [| intros ? ? ?]
  | |- calm (match ?x with _ => _ end) _ => destruct x eqn:?
  end.

Lemma untar_calm (tarball path : string) (d : Daemon) :
  calm (untar T tarball path) d.
Proof. unfold untar. repeat calm_step. Qed.

Lemma untarImage_calm (imagefname destpath : string) (d : Daemon) :
  calm (untarImage T imagefname destpath) d.
Proof.
  unfold untarImage. repeat first [apply untar_calm | calm_step].
Qed.

(** From the mount on: whatever unpacking does, the unmount is run. *)
Lemma mounted_then_unmounted (imagefname lvpath tempLVMountPoint : string)
    (d : Daemon) :
  moves unmounts
    (_ ← effect (λ d, did d (Mount lvpath tempLVMountPoint));
     d ← inspect id;
     match exec T "mount" ["-o"; "discard"; lvpath; tempLVMountPoint]
             (fs d) with
     | inl err => fail (Wrap "Error mounting image LV" err)
     | inr _ =>
         untarErr ← returned_error (untarImage T imagefname tempLVMountPoint);
         _ ← effect (λ d, did d (Umount tempLVMountPoint));
         d ← inspect id;
         match exec T "umount" [tempLVMountPoint] (fs d) with
         | inl err =>
             match untarErr with
             | None => fail err
             | Some untarErr =>
                 fail (Wrap "Error unmounting during cleanup of error"
                            untarErr)
             end
         | inr _ =>
             match untarErr with
             | None => ret ()
             | Some untarErr => fail untarErr
             end
         end
     end) d.
Proof.
  unfold moves. cbv [mbind Prog_bind bind effect inspect id].
  destruct (mount_succeeds ["-o"; "discard"; lvpath; tempLVMountPoint]
              (fs (did d (Mount lvpath tempLVMountPoint)))) as [output ->].
  pose proof (untarImage_unmounts imagefname tempLVMountPoint
                (did d (Mount lvpath tempLVMountPoint))) as Huntar.
  pose proof (untarImage_calm imagefname tempLVMountPoint
                (did d (Mount lvpath tempLVMountPoint))) as Hcalm.
  unfold moves in Huntar. unfold calm in Hcalm. unfold returned_error.
  destruct (untarImage T imagefname tempLVMountPoint _)
    as [d1 [[e | msg] | []]]; [| by destruct (Hcalm d1 msg) |].
  all: destruct Huntar as (l & Hl & Hbalanced).
  all: assert (unmounts d (did d1 (Umount tempLVMountPoint))) as Hdone.
  1, 3: exists ([Mount lvpath tempLVMountPoint] ++ l
                ++ [Umount tempLVMountPoint]); split;
    [ cbn [worklog did fst] in *; rewrite Hl; by rewrite <- !app_assoc
    | intros device mountpoint Hin;
      apply elem_of_app in Hin as [Hin%list_elem_of_singleton | Hin];
      [ injection Hin as -> ->; set_solver
      | apply elem_of_app in Hin as [Hin | Hin%list_elem_of_singleton];
        [ apply Hbalanced in Hin; set_solver | done ] ] ].
  all: by destruct (exec T "umount" _ _).
Qed.

Lemma createImageLV_unmounts (builddir fingerprint vgname : string)
    (d : Daemon) :
  moves unmounts (createImageLV T builddir fingerprint vgname) d.
Proof.
  unfold createImageLV, TempDir.
  repeat first [apply mounted_then_unmounted | job_step]; mounted.
Qed.

Lemma buildOtherFs_unmounts (builddir fp : string) (d : Daemon) :
  moves unmounts (buildOtherFs T builddir fp) d.
Proof.
  unfold buildOtherFs.
  repeat first [ apply untarImage_unmounts | apply createImageLV_unmounts
               | job_step ];
    mounted.
Qed.

Lemma pullOutImagefiles_unmounts (builddir fingerprint : string)
    (d : Daemon) :
  moves unmounts (pullOutImagefiles builddir fingerprint) d.
Proof. unfold pullOutImagefiles. repeat job_step; mounted. Qed.

Lemma dbInsertImage_unmounts (fp fname : string) (sz public arch : Z)
    (creationDate expiryDate : Z) (properties : option (gmap string string))
    (d : Daemon) :
  moves unmounts
    (dbInsertImage T fp fname sz public arch creationDate expiryDate properties)
    d.
Proof. unfold dbInsertImage. repeat job_step; mounted. Qed.

Lemma buildImageFromInfo_unmounts (info : ImageInfo) (builddir : string)
    (d : Daemon) :
  moves unmounts (buildImageFromInfo T info builddir) d.
Proof.
  unfold buildImageFromInfo.
  repeat first [ apply buildOtherFs_unmounts | apply dbInsertImage_unmounts
               | apply pullOutImagefiles_unmounts | job_step ];
    mounted.
Qed.

Lemma imgPostContInfo_unmounts (req : imageFromContainerPostReq)
    (builddir : string) (d : Daemon) :
  moves unmounts (imgPostContInfo T req builddir) d.
Proof. unfold imgPostContInfo. repeat job_step; mounted. Qed.

Lemma getImgPostInfo_unmounts (r : Request) (builddir : string) (d : Daemon) :
  moves unmounts (getImgPostInfo T r builddir) d.
Proof.
  unfold getImgPostInfo, TempFile, checkFingerprint, NextPart.
  repeat first [ apply temporary_quiet | apply imgPostContInfo_unmounts
               | apply getImageMetadata_unmounts | job_step ];
    mounted.
Qed.

Lemma imagesPost_unmounts_all (d : Daemon) (r : Request) :
  unmounts d (imagesPost T d r).1.
Proof.
  unfold imagesPost.
  pose proof (MkdirAll_quiet (VarPath ["images"]) d) as H0.
  destruct (MkdirAll (VarPath ["images"]) d) as [d0 [e |]]; [done |].
  pose proof (temporary_quiet Directory (VarPath ["images"]) "lxd_build_" d0)
    as H1.
  unfold moves in H1. fold TempDir in H1.
  destruct (TempDir (VarPath ["images"]) "lxd_build_" d0)
    as [d1 [[e | msg] | builddir]]; cbn [fst] in *; try by etrans.
  assert (moves unmounts
            (defer (removeImgWorkdir builddir)
               (getImgPostInfo T r builddir
                ≫= λ info, buildImageFromInfo T info builddir)) d1) as H2.
  { apply (moves_defer unmounts).
    - apply (moves_bind unmounts); [apply getImgPostInfo_unmounts |].
      intros info d2 _. apply buildImageFromInfo_unmounts.
    - intros d2. apply removeImgWorkdir_unmounts. }
  unfold moves in H2.
  destruct (defer _ _ d1) as [d2 [[e | msg] | metadata]]; cbn [fst] in *;
    (etrans; [exact H0 | by etrans]).
Qed.

End Steps.

(** X22: provided the mount command itself succeeds, whatever POST
    /images does - on every backend, and whether it ends with success,
    an error or a panic - each mount it has run comes with the unmount
    of the same mount point. *)
Theorem imagesPost_unmounts (T : Tools) (d : Daemon) (r : Request) :
  (∀ args fs, ∃ output, exec T "mount" args fs = inr output) →
  ∃ l, worklog (imagesPost T d r).1 = worklog d ++ l
       ∧ ∀ device mountpoint,
           Mount device mountpoint ∈ l → Umount mountpoint ∈ l.
Proof. intros Hmount. by apply imagesPost_unmounts_all. Qed.

Lemma imagesPost_unmounts_witness :
  ∃ l,
    worklog (imagesPost tools
               (set_serverConfig (daemon "ext4")
                  {[ "core.lvm_vg_name" := "vg0" ]})
               (upload [x1f; x8b; x00])).1
    = worklog (set_serverConfig (daemon "ext4")
                 {[ "core.lvm_vg_name" := "vg0" ]}) ++ l
    ∧ ∀ device mountpoint,
        Mount device mountpoint ∈ l → Umount mountpoint ∈ l.
Proof.
  apply (imagesPost_unmounts tools
           (set_serverConfig (daemon "ext4") {[ "core.lvm_vg_name" := "vg0" ]})
           (upload [x1f; x8b; x00])).
  intros args fs. by exists [].
Defined.

End MountMore.

(** ** After a delete *)

Module DeleteMore.
Import Sql Images Handlers Scenario.

Lemma find_nothing {A} (f : A → bool) (l : list A) :
  (∀ x, x ∈ l → f x = false) → List.find f l = None.
Proof.
  induction l as [| x l IH]; intros Hf; [done |]. cbn.
  rewrite (Hf x) by apply list_elem_of_here.
  apply IH. intros y Hy. apply Hf. by apply list_elem_of_further.
Qed.

(** X23: once DELETE /images/{fp} has answered with success, a GET and
    an export of that fingerprint both answer that there is no such
    object, for a trusted client as for an untrusted one with any secret.
    The image rows are keyed by [id] and their fingerprints are unique. *)
Theorem deleted_image_is_gone (d d' : Daemon) (r r' : Request) :
  imageDelete d r = (d', EmptySyncResponse) →
  keyed (image_rows (db d)) →
  unique_fingerprints (image_rows (db d)) →
  fingerprintVar r' = fingerprintVar r →
  imageGet d' r' = Returned (SmartError NoSuchObject)
  ∧ imageExport d' r' = Returned (SmartError NoSuchObject).
Proof.
  intros Hdelete Hkeyed Hunique Hfp.
  apply ImageMore.imageDelete_success in Hdelete as (base & Hbase & Hdb).
  apply ImageFacts.dbImageGet_inv in Hbase as (target & Hin & Htarget & _ & ->).
  destruct (Hkeyed target Hin) as [z Hz].
  assert (Hid : Id (image_of_row target) = z).
  { cbn. unfold int_of. by rewrite Hz. }
  rewrite Hid in Hdb.
  assert (Hgone : ∀ public,
            dbImageGet (db d') (fingerprintVar r') public = inl NoSuchObject).
  { intros public. unfold dbImageGet. rewrite find_nothing; [done |].
    intros x Hx. rewrite Hdb in Hx.
    apply ImageMore.deleteRows_images in Hx as [Hx Hother].
    apply andb_false_intro1, bool_decide_eq_false. intros Hsame.
    apply Hother. rewrite <- Hz. f_equal. apply Hunique; [done .. |].
    by rewrite Hsame, Hfp, Htarget. }
  split.
  - unfold imageGet, doImageGet. by rewrite Hgone.
  - unfold imageExport. by rewrite Hgone.
Qed.

Lemma store_unique_fingerprints :
  unique_fingerprints (image_rows (db (daemon "ext4"))).
Proof.
  intros a b Ha Hb _. change (a ∈ [alpine]) in Ha. change (b ∈ [alpine]) in Hb.
  apply list_elem_of_singleton in Ha as ->.
  by apply list_elem_of_singleton in Hb as ->.
Qed.

Lemma deleted_image_is_gone_witness :
  imageGet (imageDelete (daemon "ext4") (request true "1f8b" "")).1
           (request false "1f8b" "s3cret")
  = Returned (SmartError NoSuchObject)
  ∧ imageExport (imageDelete (daemon "ext4") (request true "1f8b" "")).1
                (request false "1f8b" "s3cret")
    = Returned (SmartError NoSuchObject).
Proof.
  apply (deleted_image_is_gone (daemon "ext4")
           (imageDelete (daemon "ext4") (request true "1f8b" "")).1
           (request true "1f8b" "") (request false "1f8b" "s3cret"));
    [ vm_compute; reflexivity | apply HandlerMore.store_keyed
    | apply store_unique_fingerprints | reflexivity ].
Defined.

End DeleteMore.

(** ** Listing the aliases *)

Module AliasMore.
Import Sql Images Handlers Scenario.

Lemma filter_always (rows : list row) :
  filter (λ r, holds Always [] r = true) rows = rows.
Proof.
  induction rows as [| r rows IH]; [done |].
  by rewrite filter_cons, decide_True, IH.
Qed.

Lemma mapM_snoc {A B} (f : A → option B) (l : list A) (x : A) :
  mapM f (l ++ [x])
  = results ← mapM f l; y ← f x; Some (results ++ [y]).
Proof.
  induction l as [| a l IH]; cbn.
  - by destruct (f x).
  - destruct (f a) as [b |]; [| done]. cbn. rewrite IH.
    destruct (mapM f l) as [results |]; [| done]. cbn.
    by destruct (f x).
Qed.

(** Without recursion the loop of [aliasesGet] does not look at the
    store, and goes through the rows one after the other. *)
Lemma listAliases_snoc (d d' : Daemon) (r : Request)
    (results : list (list value)) (last : list value) :
  recursion r = false →
  ∀ responseStr responseMap,
    listAliases d' r (results ++ [last]) responseStr responseMap
    = '(responseStr, responseMap) ←
        listAliases d r results responseStr responseMap;
      listAliases d' r [last] responseStr responseMap.
Proof.
  intros Hr. induction results as [| res results IH];
    intros responseStr responseMap; [done |].
  cbn [app listAliases]. destruct (column_string res 0) as [name |]; [| done].
  cbn. rewrite Hr. cbn. rewrite IH.
  destruct (listAliases d r results _ _) as [[urls records] |]; [| done].
  cbn. by rewrite Hr.
Qed.

(** X24: an alias that POST /images/aliases has just stored shows in the
    listing without recursion: taken as collections, without regard to
    the order in which the rows come back, the listing afterwards is the
    one from before together with the resource path of the new alias. *)
Theorem new_alias_is_listed (decode : list byte → error + aliasPostReq)
    (d d' : Daemon) (r r' : Request) (urls : list string) :
  aliasesPost decode d r = (d', Plain EmptySyncResponse) →
  recursion r' = false →
  aliasesGet d r' = Returned (Plain (SyncResponse true (Urls urls))) →
  ∃ req urls',
    decode (Body r) = inr req
    ∧ aliasesGet d' r' = Returned (Plain (SyncResponse true (Urls urls')))
    ∧ urls' ≡ₚ ("/" +:+ APIVersion +:+ "/images/aliases/" +:+ AliasName req)
               :: urls.
Proof.
  intros Hpost Hr Hget. unfold aliasesPost in Hpost.
  destruct (decode (Body r)) as [e | req]; [by inversion Hpost |].
  exists req,
    (urls ++ ["/" +:+ APIVersion +:+ "/images/aliases/" +:+ AliasName req]).
  split; [done |].
  split; [| symmetry; apply Permutation_cons_append].
  destruct (bool_decide (AliasName req = "") || bool_decide (AliasTarget req = ""));
    [by inversion Hpost |].
  destruct (dbAliasGet (db d) (AliasName req)); [| by inversion Hpost].
  destruct (dbImageGet (db d) (AliasTarget req) false) as [missing | base];
    [by inversion Hpost |].
  unfold dbAddAlias in Hpost.
  destruct (db d !! "images_aliases") as [rows |] eqn:Hrows;
    [| by inversion Hpost].
  destruct (existsb _ rows); [by inversion Hpost |].
  injection Hpost as <-.
  unfold aliasesGet, dbQueryScan in *.
  change (parse "SELECT name FROM images_aliases")
    with (Some (Select ["name"] "images_aliases" Always)) in *.
  cbn [placeholders length db set_db] in *.
  destruct (decide (0 = 0)) as [_ | ?]; [| done].
  rewrite lookup_insert_eq. rewrite Hrows in Hget.
  rewrite filter_always in *. rewrite mapM_snoc.
  destruct (mapM (project ["name"]) rows) as [results |]; [| done].
  match goal with
  | |- context [project ["name"] ?a] =>
      assert (project ["name"] a = Some [VText (AliasName req)]) as ->
        by (unfold project; cbn [mapM]; by simplify_map_eq)
  end.
  cbn [mbind option_bind].
  rewrite (listAliases_snoc d _ r' results _ Hr).
  destruct (listAliases d r' results [] []) as [[responseStr responseMap] |];
    [| done].
  cbn in Hget |- *. rewrite Hr in Hget |- *. cbn in Hget |- *.
  by injection Hget as ->.
Qed.

Lemma new_alias_is_listed_witness :
  ∃ req urls',
    (inr {| AliasName := "edge"; AliasDescription := "";
            AliasTarget := "1f8b" |} : error + aliasPostReq) = inr req
    ∧ aliasesGet (aliasesPost
                    (λ _, inr {| AliasName := "edge"; AliasDescription := "";
                                 AliasTarget := "1f8b" |})
                    (daemon "ext4") (request true "" "")).1
                 (upload [])
      = Returned (Plain (SyncResponse true (Urls urls')))
    ∧ urls' ≡ₚ ("/" +:+ APIVersion +:+ "/images/aliases/" +:+ AliasName req)
               :: ["/1.0/images/aliases/alpine"].
Proof.
  apply (new_alias_is_listed
           (λ _, inr {| AliasName := "edge"; AliasDescription := "";
                        AliasTarget := "1f8b" |})
           (daemon "ext4")
           (aliasesPost
              (λ _, inr {| AliasName := "edge"; AliasDescription := "";
                           AliasTarget := "1f8b" |})
              (daemon "ext4") (request true "" "")).1
           (request true "" "") (upload []) ["/1.0/images/aliases/alpine"]);
    [vm_compute; reflexivity | reflexivity | vm_compute; reflexivity].
Defined.

End AliasMore.

(** ** An image made from a container *)

Module ContainerMore.
Import Sql Images Handlers Scenario IngestMore.

Lemma os_Rename_moves (old new : string) (d d' : Daemon) :
  check (os_Rename old new) d = (d', inr ()) → fs d' !! new = fs d !! old.
Proof.
  unfold check, os_Rename. destruct (fs d !! old) as [n |]; [| done].
  intros [= <-]. cbn. apply lookup_insert_eq.
Qed.

(** From the container on: the export, its compression and the rename. *)
Ltac exported Hrun :=
  let Hgz := fresh "Hgz" in
  let Hrename := fresh "Hrename" in
  apply bind_inr in Hrun as (? & ? & _ & Hrun);
  apply bind_inr in Hrun as (? & [] & _ & Hrun);
  lazymatch type of Hrun with
  | context [exportToTar ?T ?container ?snap] =>
      let tar := fresh "tar" in
      let Hexport := fresh "Hexport" in
      destruct (exportToTar T container snap) as [? | tar] eqn:Hexport;
      [by inversion Hrun |];
      apply bind_inr in Hrun as (? & [] & _ & Hrun);
      apply bind_inr in Hrun as (? & ? & _ & Hrun);
      apply bind_inr in Hrun as (? & ? & _ & Hrun);
      apply bind_inr in Hrun as (? & [] & Hgz & Hrun);
      apply bind_inr in Hrun as (? & [] & Hrename & Hrun);
      injection Hrun as <- <-;
      apply os_Rename_moves in Hrename;
      injection Hgz as <-;
      exists container, snap, tar;
      repeat split; try done;
      try (cbn [Fingerprint]; rewrite Hrename; apply lookup_insert_eq)
  end.

(** X25: when an image is made from a container or a snapshot, the
    source type agrees with the name (a snapshot name is split at its
    first slash), and the image is the compressed export of that source:
    the fingerprint is the digest of the compressed archive, the size its
    length, the file left under the build directory for the caller holds
    exactly those bytes, and the file name and properties are those of
    the request. *)
Theorem container_image_is_the_export (T : Tools)
    (req : imageFromContainerPostReq) (builddir : string) (d d' : Daemon)
    (info : ImageInfo) :
  imgPostContInfo T req builddir d = (d', inr info) →
  let name := default "" (Source req !! "name") in
  let ctype := default "" (Source req !! "type") in
  ∃ container snap tar,
    (ctype = "container" ∧ Copy.IsSnapshot name = false
     ∧ container = name ∧ snap = ""
     ∨ ctype = "snapshot" ∧ cut "/" name = Some (container, snap))
    ∧ exportToTar T container snap = inr tar
    ∧ Fingerprint info = sha256 T (compress T tar)
    ∧ Size info = Z.of_nat (length (compress T tar))
    ∧ fs d' !! Join builddir (Fingerprint info) = Some (File (compress T tar))
    ∧ Filename info = ReqFilename req
    ∧ Properties info = ReqProperties req.
Proof.
  intros Hrun name ctype. unfold imgPostContInfo in Hrun.
  fold name ctype in Hrun.
  destruct (bool_decide (ctype = "") || bool_decide (name = ""));
    [by inversion Hrun |].
  destruct (decide (ctype = "snapshot")) as [Hsnapshot | _].
  - destruct (negb (Copy.IsSnapshot name)); [by inversion Hrun |].
    apply bind_inr in Hrun as (d1 & [container snap] & Hsplit & Hrun).
    destruct (cut "/" name) as [[c s] |] eqn:Hcut; [| by inversion Hsplit].
    injection Hsplit as <- <- <-.
    exported Hrun. by right.
  - destruct (decide (ctype = "container")) as [Hcontainer | _];
      [| by inversion Hrun].
    destruct (Copy.IsSnapshot name) eqn:Hplain; [by inversion Hrun |].
    apply bind_inr in Hrun as (d1 & [container snap] & Hsplit & Hrun).
    injection Hsplit as <- <- <-.
    exported Hrun. by left.
Qed.

Lemma container_image_is_the_export_witness :
  ∃ container snap tar,
    (default "" (Source from_c1 !! "type") = "container"
     ∧ Copy.IsSnapshot (default "" (Source from_c1 !! "name")) = false
     ∧ container = default "" (Source from_c1 !! "name") ∧ snap = ""
     ∨ default "" (Source from_c1 !! "type") = "snapshot"
       ∧ cut "/" (default "" (Source from_c1 !! "name"))
         = Some (container, snap))
    ∧ exportToTar exporting container snap = inr tar
    ∧ Fingerprint exported_c1 = sha256 exporting (compress exporting tar)
    ∧ Size exported_c1 = Z.of_nat (length (compress exporting tar))
    ∧ fs (imgPostContInfo exporting from_c1 "/var/lib/lxd/images"
            (daemon "ext4")).1
        !! Join "/var/lib/lxd/images" (Fingerprint exported_c1)
      = Some (File (compress exporting tar))
    ∧ Filename exported_c1 = ReqFilename from_c1
    ∧ Properties exported_c1 = ReqProperties from_c1.
Proof.
  apply (container_image_is_the_export exporting from_c1 "/var/lib/lxd/images"
           (daemon "ext4")
           (imgPostContInfo exporting from_c1 "/var/lib/lxd/images"
              (daemon "ext4")).1
           exported_c1).
  vm_compute. reflexivity.
Defined.

End ContainerMore.
